(** * DocsFlow: a shallow embedding of the documentation CI scripts

    The development follows the three scripts of the repository:

    - [scripts/upload_to_fluidtopics.py]  (module [Uploader]),
    - [scripts/lint_docs.py]              (module [Linter]),
    - [scripts/validate_yaml.py]          (module [YamlValidator]).

    Python code that prints, sleeps, talks to the network or touches the
    file system is embedded in a small state-and-exception monad whose state
    records the observable events in program order.  Python's exception
    hierarchy is cut down to the classes the scripts tell apart: the two
    [requests] exceptions the uploader names, every other [Exception], and
    [KeyboardInterrupt], which [except Exception] does not catch. *)

From Stdlib Require Import String Ascii ZArith List Bool Lia.
From stdpp Require Import base option list gmap strings.
Import ListNotations.

Local Open Scope string_scope.
Local Open Scope list_scope.
Local Open Scope nat_scope.

(** ** Python values shared by the three scripts *)

Module Py.

(** The two exception classes the scripts distinguish. *)
Inductive exn : Type :=
| Timeout            (* requests.exceptions.Timeout *)
| ConnectionError    (* requests.exceptions.ConnectionError *)
| OtherException     (* any other subclass of Exception *)
| KeyboardInterrupt. (* a BaseException that is not an Exception *)

(** [isinstance(e, Exception)] *)
Definition is_Exception (e : exn) : bool :=
  match e with KeyboardInterrupt => false | _ => true end.

Inductive res (A : Type) : Type :=
| Ret (a : A)
| Raise (e : exn).
Arguments Ret {A} a.
Arguments Raise {A} e.

(** [str.startswith] *)
Definition startswith (s p : string) : bool := String.prefix p s.

(** [str.endswith] *)
Definition endswith (s p : string) : bool :=
  let n := String.length s in
  let k := String.length p in
  (k <=? n) && String.eqb (String.substring (n - k) k s) p.

(** [str.rstrip(c)] for a one-character argument *)
Fixpoint rstrip (c : ascii) (s : string) : string :=
  match s with
  | EmptyString => EmptyString
  | String a s' =>
      match rstrip c s' with
      | EmptyString => if Ascii.eqb a c then EmptyString else String a EmptyString
      | r => String a r
      end
  end.

(** [str.lstrip(c)] for a one-character argument *)
Fixpoint lstrip (c : ascii) (s : string) : string :=
  match s with
  | EmptyString => EmptyString
  | String a s' => if Ascii.eqb a c then lstrip c s' else s
  end.

(** Characters are the code points below 256.  [str.isspace], which is
    also what [\s] matches in a [str] pattern. *)
Definition is_space (c : ascii) : bool :=
  let n := nat_of_ascii c in
  ((9 <=? n) && (n <=? 13)) || ((28 <=? n) && (n <=? 32))
  || (n =? 133) || (n =? 160).

Fixpoint lstrip_space (s : string) : string :=
  match s with
  | EmptyString => EmptyString
  | String a s' => if is_space a then lstrip_space s' else s
  end.

Fixpoint rstrip_space (s : string) : string :=
  match s with
  | EmptyString => EmptyString
  | String a s' =>
      match rstrip_space s' with
      | EmptyString => if is_space a then EmptyString else String a EmptyString
      | r => String a r
      end
  end.

(** [str.strip()] *)
Definition strip (s : string) : string := rstrip_space (lstrip_space s).

(** [str.lower()] on code points below 256. *)
Definition lower_char (c : ascii) : ascii :=
  let n := nat_of_ascii c in
  if ((65 <=? n) && (n <=? 90))
     || ((192 <=? n) && (n <=? 222) && negb (n =? 215))
  then ascii_of_nat (n + 32) else c.

Fixpoint lower (s : string) : string :=
  match s with
  | EmptyString => EmptyString
  | String a s' => String (lower_char a) (lower s')
  end.

Definition newline : ascii := ascii_of_nat 10.

(** [str.split('\n')]: never empty, one more piece than there are newlines. *)
Fixpoint split_lines (s : string) : list string :=
  match s with
  | EmptyString => [EmptyString]
  | String a s' =>
      if Ascii.eqb a newline then EmptyString :: split_lines s'
      else match split_lines s' with
           | l :: ls => String a l :: ls
           | [] => [String a EmptyString]
           end
  end.

(** [enumerate(xs, start)] *)
Fixpoint enumerate {A} (xs : list A) (start : nat) : list (nat * A) :=
  match xs with
  | [] => []
  | x :: xs' => (start, x) :: enumerate xs' (S start)
  end.

(** Truthiness of a [str]: non-empty. *)
Definition truthy (s : string) : bool :=
  match s with EmptyString => false | _ => true end.

(** JSON as the scripts use it: the body of a response either does not
    parse ([response.json()] raises), parses to something that is not an
    object (so [.get] raises), or parses to an object.  Of the values only
    strings are inspected. *)
Inductive jval : Type :=
| JStr (s : string)
| JOther.

Inductive json_body : Type :=
| BadJson
| JsonNonObject
| JsonObject (d : gmap string jval).

(** *** The monad of effectful Python code

    A computation takes the mutable state, and returns or raises, with the
    state it left behind. *)

Definition M (St A : Type) : Type := St -> res A * St.

Definition ret {St A} (a : A) : M St A := fun w => (Ret a, w).

Definition raise {St A} (e : exn) : M St A := fun w => (Raise e, w).

Definition bind {St A B} (m : M St A) (k : A -> M St B) : M St B :=
  fun w =>
    match m w with
    | (Ret a, w') => k a w'
    | (Raise e, w') => (Raise e, w')
    end.

Declare Scope py_scope.
Delimit Scope py_scope with py.
Notation "x ← y ; z" := (bind y (fun x => z))
  (at level 20, y at level 100, z at level 200, only parsing) : py_scope.
Notation "y ;; z" := (bind y (fun _ => z))
  (at level 100, z at level 200, only parsing, right associativity) : py_scope.

(** [try: m except ...: ...]: [h e] is the body of the first [except]
    clause that matches [e], if there is one; otherwise [e] passes through. *)
Definition try_with {St A} (m : M St A) (h : exn -> option (M St A)) : M St A :=
  fun w =>
    match m w with
    | (Raise e, w') =>
        match h e with
        | Some k => k w'
        | None => (Raise e, w')
        end
    | r => r
    end.

(** [try: m except Exception: h] *)
Definition try_except {St A} (m : M St A) (h : M St A) : M St A :=
  try_with m (fun e => if is_Exception e then Some h else None).

End Py.

Export Py.
Local Open Scope py_scope.

(** ** scripts/upload_to_fluidtopics.py *)

Module Uploader.

(** *** The world outside the process *)

(** A directory entry as [os.walk] sees it: a file, which [zipf.write] can
    read or not, or a sub-directory with its own entries. *)
#[warnings="-register-all"]
Inductive entry : Type :=
| File (name : string) (readable : bool)
| Dir (name : string) (children : list entry).

Definition path := list string.

(** The archive [docs_package.zip] on disk: the members written so far and
    whether the writer has been closed (closing a [ZipFile] writes the
    central directory, without which the file is not a complete archive). *)
Record archive : Type := { a_members : list path; a_closed : bool }.

(** What [requests.post] does. *)
Inductive post_resp : Type :=
| PostHttp (status_code : Z) (body : json_body)
| PostTimeout        (* requests.exceptions.Timeout *)
| PostConnectionError (* requests.exceptions.ConnectionError *)
| PostException      (* any other Exception *)
| PostInterrupt.     (* KeyboardInterrupt while waiting *)

(** What [requests.get] on the status URL does. *)
Inductive get_resp : Type :=
| GetHttp (status_code : Z) (body : json_body)
| GetException
| GetInterrupt.

(** The environment of one run: the process environment variables; the two
    candidate source paths ([None]: the path does not exist; [Some []] is an
    empty directory, and also a path that exists without being a directory,
    for which [os.walk] yields nothing); whether [zipfile.ZipFile] can create
    the archive file; the reply to the upload request; the reply to the n-th
    status query; whether [KeyboardInterrupt] arrives during the wait that
    follows the n-th status query; and whether [os.remove] can delete the
    archive. *)
Record outside : Type := {
  environ : gmap string string;
  site_tree : option (list entry);
  docs_tree : option (list entry);
  zip_creatable : bool;
  post_reply : post_resp;
  get_reply : nat -> get_resp;
  sleep_interrupted : nat -> bool;
  remove_ok : bool
}.

(** *** Observable events *)

Inductive message : Type :=
| MCreating
| MSourceMissing (source_dir : string)
| MPackageCreated (files_added : nat)
| MChecksum (snapshot : archive)
| MCreateFailed
| MUploading
| MPackageNotFound
| MUploadingTo
| MUploadSuccessful
| MUploadId (upload_id : option jval)
| MUploadStatus (status : option jval)
| MAuthFailed
| MTooLarge
| MUploadStatusFailed (status_code : Z)
| MUploadResponse (body : json_body)
| MUploadTimedOut
| MConnectionFailed
| MUploadFailed
| MMonitoring
| MProcessingStatus (status : jval)
| MProcessingCompleted
| MPublishedAt (publication_url : jval)
| MProcessingFailed
| MProcessingError (error : jval)
| MUnknownStatus (status : jval)
| MStatusCheckFailed (status_code : Z)
| MStatusCheckError
| MMonitoringTimedOut
| MCleanedUp
| MCleanupWarning
| MStarting
| MDeploymentCompleted
| MDeploymentFailed
| MDeploymentInterrupted
| MDeploymentError.

Inductive event : Type :=
| EvZipOpen                       (* zipfile.ZipFile(package_name, 'w') *)
| EvZipWrite (arcname : path)     (* zipf.write(file_path, arcname) *)
| EvZipClose                      (* leaving the [with] block *)
| EvDigest (snapshot : archive)       (* calculate_checksum reads the file *)
| EvPost                          (* requests.post *)
| EvGet (attempt : nat)           (* requests.get on the status URL *)
| EvSleep (seconds : nat)         (* a call of time.sleep *)
| EvCleanup                       (* a call of cleanup() *)
| EvRemove                        (* os.remove(package_name) deleted the file *)
| EvPrint (m : message).

(** The mutable state: the archive file, if it exists, and the events so
    far, oldest first. *)
Record world : Type := { w_archive : option archive; w_trace : list event }.

(** *** Primitive actions *)

Abbreviation M := (Py.M world).

Definition emit (e : event) : M unit :=
  fun w => (Ret tt, {| w_archive := w_archive w; w_trace := w_trace w ++ [e] |}).

Definition print (m : message) : M unit := emit (EvPrint m).

Definition get_archive : M (option archive) := fun w => (Ret (w_archive w), w).

Definition set_archive (a : option archive) : M unit :=
  fun w => (Ret tt, {| w_archive := a; w_trace := w_trace w |}).


Definition run {A} (m : M A) : res A * world :=
  m {| w_archive := None; w_trace := [] |}.

(** *** The uploader object *)

Record uploader : Type := {
  base_url : string;
  username : string;
  password : string;
  docs_dir : string;
  build_dir : string;
  package_name : string
}.

(** [os.getenv(name, "")] *)
Definition getenv (o : outside) (name : string) : string :=
  default "" (environ o !! name).

(** [FluidTopicsUploader.__init__]: [Raise OtherException] is the [ValueError]. *)
Definition init (o : outside) : res uploader :=
  let self :=
    {| base_url := rstrip "/" (getenv o "FLUID_URL");
       username := getenv o "FLUID_USER";
       password := getenv o "FLUID_PASS";
       docs_dir := "docs";
       build_dir := "site";
       package_name := "docs_package.zip" |} in
  if forallb truthy [base_url self; username self; password self]
  then Ret self
  else Raise OtherException.

(** *** create_package *)

(** The directory at a relative path; the uploader only ever asks for its
    two candidate source directories. *)
Definition lookup_dir (o : outside) (d : string) : option (list entry) :=
  if String.eqb d "site" then site_tree o
  else if String.eqb d "docs" then docs_tree o
  else None.

(** [Path(d).exists()] *)
Definition dir_exists (o : outside) (d : string) : bool :=
  match lookup_dir o d with Some _ => true | None => false end.

(** The names [os.walk] reports for one directory: sub-directories and
    files (with their readability, which only [zipf.write] looks at). *)
Definition dirnames (es : list entry) : list string :=
  flat_map (fun e => match e with Dir d _ => [d] | File _ _ => [] end) es.

Definition filenames (es : list entry) : list (string * bool) :=
  flat_map (fun e => match e with File f r => [(f, r)] | Dir _ _ => [] end) es.

(** [os.walk(top)], top-down, with [root] the path of [top] relative to
    the directory the walk started from.  Each step yields a directory and
    its files; the caller prunes [dirs] in place before the generator
    descends, and [keep] is that pruning. *)
Fixpoint os_walk (keep : string -> bool) (root : path) (top : entry)
  {struct top} : list (path * list (string * bool)) :=
  match top with
  | File _ _ => []
  | Dir _ es =>
      (root, filenames es) ::
      flat_map (fun e =>
                  match e with
                  | Dir d _ =>
                      if keep d then os_walk keep (root ++ [d]) e else []
                  | File _ _ => []
                  end) es
  end.

(** [zipf.write(file_path, arcname)]: reading an unreadable file raises. *)
Definition zip_write (arcname : path) (readable : bool) : M unit :=
  if readable then
    a ← get_archive;
    match a with
    | Some z =>
        set_archive (Some {| a_members := a_members z ++ [arcname];
                             a_closed := a_closed z |}) ;;
        emit (EvZipWrite arcname)
    | None => raise OtherException
    end
  else raise OtherException.

(** The inner loop [for file in files]. *)
Fixpoint add_files (root : path) (files : list (string * bool))
  (files_added : nat) : M nat :=
  match files with
  | [] => ret files_added
  | (file, readable) :: rest =>
      if startswith file "." then add_files root rest files_added
      else
        zip_write (root ++ [file]) readable ;;
        add_files root rest (files_added + 1)
  end.

(** The outer loop [for root, dirs, files in os.walk(source_dir)]. *)
Fixpoint add_dirs (steps : list (path * list (string * bool)))
  (files_added : nat) : M nat :=
  match steps with
  | [] => ret files_added
  | (root, files) :: rest =>
      n ← add_files root files files_added;
      add_dirs rest n
  end.

(** [calculate_checksum]: hashes what is in the file at that moment. *)
Definition calculate_checksum : M archive :=
  a ← get_archive;
  match a with
  | Some z => emit (EvDigest z) ;; ret z
  | None => raise OtherException
  end.

(** [with zipfile.ZipFile(package_name, 'w', ...) as zipf: body]: when the
    file cannot be created the constructor raises, nothing is written and an
    older file stays as it was; otherwise the file is created (replacing an
    older one), and the writer is closed on every way out of the block, by
    [return] or by exception. *)
Definition zip_close : M unit :=
  a ← get_archive;
  match a with
  | Some z => set_archive (Some {| a_members := a_members z; a_closed := true |})
  | None => ret tt
  end ;;
  emit EvZipClose.

Definition with_zipfile {A} (o : outside) (body : M A) : M A :=
  if zip_creatable o then
    set_archive (Some {| a_members := []; a_closed := false |}) ;;
    emit EvZipOpen ;;
    fun w =>
      match body w with
      | (r, w') =>
          match zip_close w' with
          | (_, w'') => (r, w'')
          end
      end
  else raise OtherException.

(** The [try] covers the creation of the archive as well as the reading of
    the source files. *)
Definition create_package (o : outside) (self : uploader) : M bool :=
  print MCreating ;;
  let source_dir :=
    if dir_exists o (build_dir self) then build_dir self else docs_dir self in
  match lookup_dir o source_dir with
  | None => print (MSourceMissing source_dir) ;; ret false
  | Some es =>
      try_except
        (with_zipfile o
           (files_added ← add_dirs (os_walk (fun d => negb (startswith d ".")) []
                                    (Dir source_dir es)) 0;
            print (MPackageCreated files_added) ;;
            checksum ← calculate_checksum;
            print (MChecksum checksum) ;;
            ret true))
        (print MCreateFailed ;; ret false)
  end.

(** *** monitor_processing *)

Definition max_attempts : nat := 30.

(** [requests.get(status_url, ...)] for the query made at loop counter
    [attempt]. *)
Definition http_get (o : outside) (attempt : nat) : M (Z * json_body) :=
  emit (EvGet attempt) ;;
  match get_reply o attempt with
  | GetHttp code body => ret (code, body)
  | GetException => raise OtherException
  | GetInterrupt => raise KeyboardInterrupt
  end.

(** [response.json()] followed by a first [.get]: both raise on a body that
    is not a JSON object. *)
Definition json_object (body : json_body) : M (gmap string jval) :=
  match body with
  | JsonObject d => ret d
  | _ => raise OtherException
  end.

Definition jval_is (v : jval) (s : string) : bool :=
  match v with JStr t => String.eqb t s | JOther => false end.

Definition when (b : bool) (m : M unit) : M unit := if b then m else ret tt.

(** [if key in d: print(d[key])] *)
Definition print_if_present (d : gmap string jval) (key : string)
  (m : jval -> message) : M unit :=
  match d !! key with
  | Some v => print (m v)
  | None => ret tt
  end.

(** [time.sleep(10)] in the turn of the loop with counter [attempt]: the
    wait can be cut short by [KeyboardInterrupt]. *)
Definition sleep (o : outside) (attempt : nat) : M unit :=
  emit (EvSleep 10) ;;
  if sleep_interrupted o attempt then raise KeyboardInterrupt else ret tt.

(** The loop [while attempt < max_attempts].  [remaining] is
    [max_attempts - attempt], the number of iterations the guard still
    allows; every [continue] adds one to [attempt], so it is the structural
    measure of the loop.  One turn either returns ([Some result]) or waits
    and goes round again ([None]: [attempt += 1; continue]); three of the
    four waits are inside the [try], the fourth is in its handler. *)
Fixpoint monitor_loop (o : outside) (remaining attempt : nat) : M bool :=
  match remaining with
  | O => print MMonitoringTimedOut ;; ret false
  | S remaining' =>
      outcome ←
        try_except
          (response ← http_get o attempt;
           if Z.eqb (fst response) 200 then
             status_data ← json_object (snd response);
             let status := default (JStr "unknown") (status_data !! "status") in
             print (MProcessingStatus status) ;;
             if jval_is status "completed" then
               print MProcessingCompleted ;;
               print_if_present status_data "publication_url" MPublishedAt ;;
               ret (Some true)
             else if jval_is status "failed" then
               print MProcessingFailed ;;
               print_if_present status_data "error" MProcessingError ;;
               ret (Some false)
             else if existsb (jval_is status) ["processing"; "queued"; "uploading"] then
               sleep o attempt ;;
               ret None
             else
               print (MUnknownStatus status) ;;
               sleep o attempt ;;
               ret None
           else
             print (MStatusCheckFailed (fst response)) ;;
             sleep o attempt ;;
             ret None)
          (print MStatusCheckError ;; sleep o attempt ;; ret None);
      match outcome with
      | Some result => ret result
      | None => monitor_loop o remaining' (attempt + 1)
      end
  end.

Definition monitor_processing (o : outside) (self : uploader)
  (upload_id : jval) : M bool :=
  print MMonitoring ;;
  monitor_loop o (max_attempts - 0) 0.

(** *** upload_package *)

Definition package_exists : M bool :=
  a ← get_archive; ret (match a with Some _ => true | None => false end).

(** [requests.post(upload_url, ...)] *)
Definition http_post (o : outside) : M (Z * json_body) :=
  emit EvPost ;;
  match post_reply o with
  | PostHttp code body => ret (code, body)
  | PostTimeout => raise Timeout
  | PostConnectionError => raise ConnectionError
  | PostException => raise OtherException
  | PostInterrupt => raise KeyboardInterrupt
  end.

(** [get_version_info], whose bare [except] lets nothing escape, only
    feeds the form data of the request and is left out. *)
Definition upload_package (o : outside) (self : uploader) : M bool :=
  print MUploading ;;
  present ← package_exists;
  if negb present then print MPackageNotFound ;; ret false
  else
    try_with
      (print MUploadingTo ;;
       response ← http_post o;
       if Z.eqb (fst response) 200 then
         match snd response with
         | BadJson => raise OtherException
         | JsonNonObject => print MUploadSuccessful ;; raise OtherException
         | JsonObject result =>
             print MUploadSuccessful ;;
             print (MUploadId (result !! "upload_id")) ;;
             print (MUploadStatus (result !! "status")) ;;
             match result !! "upload_id" with
             | Some upload_id => monitor_processing o self upload_id
             | None => ret true
             end
         end
       else if Z.eqb (fst response) 401 then
         print MAuthFailed ;; ret false
       else if Z.eqb (fst response) 413 then
         print MTooLarge ;; ret false
       else
         print (MUploadStatusFailed (fst response)) ;;
         print (MUploadResponse (snd response)) ;;
         ret false)
      (fun e =>
         match e with
         | Timeout => Some (print MUploadTimedOut ;; ret false)
         | ConnectionError => Some (print MConnectionFailed ;; ret false)
         | OtherException => Some (print MUploadFailed ;; ret false)
         | KeyboardInterrupt => None
         end).

(** *** cleanup and deploy *)

(** [os.remove(self.package_name)]: the file is deleted, or the call
    raises and the file stays. *)
Definition os_remove (o : outside) : M unit :=
  if remove_ok o then set_archive None ;; emit EvRemove
  else raise OtherException.

Definition cleanup (o : outside) (self : uploader) : M unit :=
  emit EvCleanup ;;
  try_except
    (present ← package_exists;
     when present (os_remove o ;; print MCleanedUp))
    (print MCleanupWarning).

Definition deploy (o : outside) (self : uploader) : M bool :=
  print MStarting ;;
  try_with
    (created ← create_package o self;
     if negb created then ret false
     else
       success ← upload_package o self;
       cleanup o self ;;
       (if success then print MDeploymentCompleted else print MDeploymentFailed) ;;
       ret success)
    (fun e =>
       match e with
       | KeyboardInterrupt =>
           Some (print MDeploymentInterrupted ;; cleanup o self ;; ret false)
       | _ =>
           Some (print MDeploymentError ;; cleanup o self ;; ret false)
       end).

End Uploader.

(** ** scripts/lint_docs.py *)

Module Linter.

(** *** The files *)

(** What the linter can observe of the file system: the result of reading
    a file ([None]: [open] or [read] raised) and whether the target of an
    internal link exists, [(self.docs_dir / url).exists()] ([None]: the
    call raised, as [Path.exists] does on an [OSError] other than the few it
    takes for "no such file", a name that is too long for one). *)
Record files : Type := {
  read_file : string -> option string;
  link_target_exists : string -> option bool
}.

(** *** The report *)

Inductive lint_message : Type :=
| ReadFailed
| H1Count (h1_count : nat)
| HeadingJump (line_num prev_level level : nat)
| MissingLanguage (line_num : nat)
| UnclosedCodeBlock
| NonDescriptiveLink (link_text : string)
| BrokenLink (url : string)
| NoFinalNewline
| AsteriskBullet (line_num : nat).

(** The linter object: the two accumulators, and the files announced on
    standard output by [lint_file], in order. *)
Record linter : Type := {
  errors : list (string * lint_message);
  warnings : list (string * lint_message);
  announced : list string
}.

(** [DocumentLinter.__init__] *)
Definition init : linter := {| errors := []; warnings := []; announced := [] |}.

Definition add_error (file_path : string) (m : lint_message) (self : linter)
  : linter :=
  {| errors := errors self ++ [(file_path, m)];
     warnings := warnings self;
     announced := announced self |}.

Definition add_warning (file_path : string) (m : lint_message) (self : linter)
  : linter :=
  {| errors := errors self;
     warnings := warnings self ++ [(file_path, m)];
     announced := announced self |}.

Definition announce (file_path : string) (self : linter) : linter :=
  {| errors := errors self;
     warnings := warnings self;
     announced := announced self ++ [file_path] |}.

(** *** check_heading_structure *)

(** [len(line) - len(line.lstrip('#'))] *)
Definition heading_level (line : string) : nat :=
  String.length line - String.length (lstrip "#" line).

(** The first loop: every line that starts with [#] becomes a heading
    [(level, heading_text, i)]. *)
Fixpoint collect_headings (lines : list (nat * string))
  : list (nat * string * nat) :=
  match lines with
  | [] => []
  | (i, line) :: rest =>
      if startswith line "#"
      then (heading_level line, strip (lstrip "#" line), i) :: collect_headings rest
      else collect_headings rest
  end.

(** [sum(1 for level, _, _ in headings if level == 1)] *)
Definition count_h1 (headings : list (nat * string * nat)) : nat :=
  length (List.filter (fun h => fst (fst h) =? 1) headings).

(** The second loop, over [headings[1:]] with the level of the heading
    before each. *)
Fixpoint check_hierarchy (file_path : string) (prev_level : nat)
  (rest : list (nat * string * nat)) (self : linter) : linter :=
  match rest with
  | [] => self
  | (level, _, line_num) :: rest' =>
      let self' :=
        if prev_level + 1 <? level
        then add_warning file_path (HeadingJump line_num prev_level level) self
        else self in
      check_hierarchy file_path level rest' self'
  end.

Definition check_heading_structure (file_path content : string)
  (self : linter) : bool * linter :=
  let lines := split_lines content in
  let headings := collect_headings (enumerate lines 1) in
  let h1_count := count_h1 headings in
  let '(success, self) :=
    if negb (h1_count =? 1)
    then (false, add_error file_path (H1Count h1_count) self)
    else (true, self) in
  let self :=
    match headings with
    | [] => self
    | (level, _, _) :: rest => check_hierarchy file_path level rest self
    end in
  (success, self).

(** *** check_code_blocks *)

Definition fence : string := "```".

(** The loop over the lines, threading [in_code_block]. *)
Fixpoint scan_fences (file_path : string) (lines : list (nat * string))
  (in_code_block : bool) (self : linter) : bool * linter :=
  match lines with
  | [] => (in_code_block, self)
  | (i, line) :: rest =>
      if startswith line fence then
        if negb in_code_block then
          let language := strip (String.substring 3 (String.length line - 3) line) in
          let self' :=
            if negb (truthy language) && String.eqb line fence
            then add_warning file_path (MissingLanguage i) self
            else self in
          scan_fences file_path rest true self'
        else scan_fences file_path rest false self
      else scan_fences file_path rest in_code_block self
  end.

Definition check_code_blocks (file_path content : string) (self : linter)
  : bool * linter :=
  let lines := split_lines content in
  let '(in_code_block, self) :=
    scan_fences file_path (enumerate lines 1) false self in
  if in_code_block
  then (false, add_error file_path UnclosedCodeBlock self)
  else (true, self).

(** *** check_links *)

(** The longest run of characters other than [stop] at the front of [s],
    and what follows it: a greedy [[^stop]*]. *)
Fixpoint span_not (stop : ascii) (s : string) : string * string :=
  match s with
  | EmptyString => (EmptyString, EmptyString)
  | String a s' =>
      if Ascii.eqb a stop then (EmptyString, s)
      else let '(run, rest) := span_not stop s' in (String a run, rest)
  end.

(** A match of [\[([^\]]+)\]\(([^)]+)\)] at the start of [s]: the two
    groups and the text after the match.  Each group is followed by the one
    character it excludes, so the greedy run is the only candidate. *)
Definition match_link (s : string) : option (string * string * string) :=
  match s with
  | String "["%char s1 =>
      let '(link_text, s2) := span_not "]"%char s1 in
      match s2 with
      | String "]"%char (String "("%char s3) =>
          let '(url, s4) := span_not ")"%char s3 in
          match s4 with
          | String ")"%char s5 =>
              if truthy link_text && truthy url
              then Some (link_text, url, s5) else None
          | _ => None
          end
      | _ => None
      end
  | _ => None
  end.

(** [re.findall]: leftmost matches, scanning on after each one.  Every step
    consumes a character, so [fuel] above the length of [s] is never used up. *)
Fixpoint findall_from (fuel : nat) (s : string) : list (string * string) :=
  match fuel with
  | O => []
  | S fuel' =>
      match match_link s with
      | Some (link_text, url, rest) => (link_text, url) :: findall_from fuel' rest
      | None =>
          match s with
          | EmptyString => []
          | String _ s' => findall_from fuel' s'
          end
      end
  end.

Definition findall_links (content : string) : list (string * string) :=
  findall_from (S (String.length content)) content.

Definition generic_link_texts : list string :=
  ["click here"; "here"; "link"; "read more"].

(** The loop [for link_text, url in links].  Nothing catches what
    [target_path.exists()] raises: it ends the loop, the check and the
    run. *)
Fixpoint check_each_link (fs : files) (file_path : string)
  (links : list (string * string)) (success : bool) (self : linter)
  : res bool * linter :=
  match links with
  | [] => (Ret success, self)
  | (link_text, url) :: rest =>
      let self :=
        if existsb (String.eqb (lower link_text)) generic_link_texts
        then add_warning file_path (NonDescriptiveLink link_text) self
        else self in
      if endswith url ".md" && negb (startswith url "http") then
        match link_target_exists fs url with
        | None => (Raise OtherException, self)
        | Some found =>
            if negb found
            then check_each_link fs file_path rest false
                   (add_error file_path (BrokenLink url) self)
            else check_each_link fs file_path rest success self
        end
      else check_each_link fs file_path rest success self
  end.

Definition check_links (fs : files) (file_path content : string)
  (self : linter) : res bool * linter :=
  check_each_link fs file_path (findall_links content) true self.

(** *** check_line_endings *)

Definition check_line_endings (file_path content : string) (self : linter)
  : bool * linter :=
  if negb (endswith content (String newline EmptyString))
  then (false, add_error file_path NoFinalNewline self)
  else (true, self).

(** *** check_list_formatting *)

(** [re.match(r'^\s*\*\s', line)] *)
Definition asterisk_bullet (line : string) : bool :=
  match lstrip_space line with
  | String "*"%char (String c _) => is_space c
  | _ => false
  end.

Fixpoint scan_bullets (file_path : string) (lines : list (nat * string))
  (self : linter) : linter :=
  match lines with
  | [] => self
  | (i, line) :: rest =>
      scan_bullets file_path rest
        (if asterisk_bullet line
         then add_warning file_path (AsteriskBullet i) self
         else self)
  end.

Definition check_list_formatting (file_path content : string)
  (self : linter) : bool * linter :=
  (true, scan_bullets file_path (enumerate (split_lines content) 1) self).

(** *** lint_file and lint_all_files *)

(** Only the reading of the file is inside a [try]; an exception from
    [check_links] passes through [lint_file]. *)
Definition lint_file (fs : files) (file_path : string) (self : linter)
  : res bool * linter :=
  let self := announce file_path self in
  match read_file fs file_path with
  | None => (Ret false, add_error file_path ReadFailed self)
  | Some content =>
      let file_success := true in
      let '(ok, self) := check_heading_structure file_path content self in
      let file_success := if negb ok then false else file_success in
      let '(ok, self) := check_code_blocks file_path content self in
      let file_success := if negb ok then false else file_success in
      match check_links fs file_path content self with
      | (Raise e, self) => (Raise e, self)
      | (Ret ok, self) =>
          let file_success := if negb ok then false else file_success in
          let '(ok, self) := check_line_endings file_path content self in
          let file_success := if negb ok then false else file_success in
          let '(ok, self) := check_list_formatting file_path content self in
          let file_success := if negb ok then false else file_success in
          (Ret file_success, self)
      end
  end.

(** The loop [for file_path in md_files]; an exception from [lint_file]
    ends it. *)
Fixpoint lint_each (fs : files) (md_files : list string) (success : bool)
  (self : linter) : res bool * linter :=
  match md_files with
  | [] => (Ret success, self)
  | file_path :: rest =>
      match lint_file fs file_path self with
      | (Ret ok, self) =>
          lint_each fs rest (if negb ok then false else success) self
      | (Raise e, self) => (Raise e, self)
      end
  end.

(** [md_files] is what [self.docs_dir.glob("**/*.md")] returned. *)
Definition lint_all_files (fs : files) (md_files : list string)
  (self : linter) : res bool * linter :=
  match md_files with
  | [] => (Ret false, self)
  | _ => lint_each fs md_files true self
  end.

End Linter.

(** ** scripts/validate_yaml.py *)

Module YamlValidator.

(** *** Parsed YAML *)

(** What [yaml.safe_load] returns for a document in plain YAML, as far as
    the validator looks: mappings keep their insertion order and have string
    keys; a float is kept as its digits and a timestamp ([datetime.date] or
    [datetime.datetime]) as its text, neither of which the validator reads.
    Values that need an explicit tag ([!!binary], [!!set], ...) are not
    covered. *)
#[warnings="-register-all"]
Inductive yaml : Type :=
| YNull
| YBool (b : bool)
| YInt (z : Z)
| YFloat (digits : string)
| YDate (text : string)
| YStr (s : string)
| YList (items : list yaml)
| YDict (pairs : list (string * yaml)).

(** A path as its components; [file_path.name] is the last one. *)
Definition path := list string.

Definition name (file_path : path) : string := List.last file_path "".

(** [file_path.match('.github/workflows/*.yml')]: a relative pattern is
    matched against the last components of the path. *)
Definition match_workflow (file_path : path) : bool :=
  match rev file_path with
  | file :: dir2 :: dir1 :: _ =>
      endswith file ".yml" && String.eqb dir2 "workflows"
      && String.eqb dir1 ".github"
  | _ => false
  end.

(** The outcome of reading and parsing one file. *)
Inductive loaded : Type :=
| Unreadable            (* open or read raised *)
| InvalidSyntax         (* yaml.YAMLError *)
| Loaded (data : yaml).

(** What the validator can observe of the file system: each file's content
    as parsed, [(self.config_dir / d).exists()] and
    [(self.config_dir / 'docs' / p).exists()] ([None]: the call raised, as
    [Path.exists] does on an [OSError] other than the few it takes for "no
    such file", a name that is too long for one). *)
Record files : Type := {
  load : path -> loaded;
  config_path_exists : string -> option bool;
  docs_path_exists : string -> option bool
}.

(** *** The report *)

Inductive yaml_message : Type :=
| ReadFailed
| InvalidYaml
| EmptyFile
| MissingField (field : string)
| BadSiteName
| DocsDirMissing (docs_dir : string)
| NavTargetMissing (target : string)
| ThemeWithoutName
| BadTheme
| JobsNotDict
| JobNotDict (job_name : string)
| JobWithoutRunsOn (job_name : string)
| JobWithoutSteps (job_name : string)
| NoVersion
| NoServices
| ServicesNotDict
| ServiceNotDict (service_name : string)
| ServiceWithoutImage (service_name : string).

Record validator : Type := {
  errors : list (path * yaml_message);
  warnings : list (path * yaml_message);
  announced : list path
}.

(** [YAMLValidator.__init__] *)
Definition init : validator := {| errors := []; warnings := []; announced := [] |}.

Abbreviation M := (Py.M validator).

Definition add_error (file_path : path) (m : yaml_message) : M unit :=
  fun self =>
    (Ret tt, {| errors := errors self ++ [(file_path, m)];
                warnings := warnings self;
                announced := announced self |}).

Definition add_warning (file_path : path) (m : yaml_message) : M unit :=
  fun self =>
    (Ret tt, {| errors := errors self;
                warnings := warnings self ++ [(file_path, m)];
                announced := announced self |}).

Definition announce (file_path : path) : M unit :=
  fun self =>
    (Ret tt, {| errors := errors self;
                warnings := warnings self;
                announced := announced self ++ [file_path] |}).

(** *** Python operators on parsed YAML

    A [TypeError], [KeyError] or [AttributeError] is [OtherException]. *)

Fixpoint assoc (key : string) (pairs : list (string * yaml)) : option yaml :=
  match pairs with
  | [] => None
  | (k, v) :: rest => if String.eqb k key then Some v else assoc key rest
  end.

Definition is_str (v : yaml) (s : string) : bool :=
  match v with YStr t => String.eqb t s | _ => false end.

(** [key in data] *)
Definition contains (data : yaml) (key : string) : M bool :=
  match data with
  | YDict pairs => ret (match assoc key pairs with Some _ => true | None => false end)
  | YList items => ret (existsb (fun v => is_str v key) items)
  | YStr s => ret (match String.index 0 key s with Some _ => true | None => false end)
  | _ => raise OtherException
  end.

(** [data[key]] for a string key *)
Definition getitem (data : yaml) (key : string) : M yaml :=
  match data with
  | YDict pairs =>
      match assoc key pairs with
      | Some v => ret v
      | None => raise OtherException
      end
  | _ => raise OtherException
  end.

(** [p.exists()], given what the file system answers. *)
Definition path_exists (answer : option bool) : M bool :=
  match answer with
  | Some found => ret found
  | None => raise OtherException
  end.

(** [for item in v] *)
Definition iterate (v : yaml) : M (list yaml) :=
  match v with
  | YList items => ret items
  | YDict pairs => ret (map (fun kv => YStr (fst kv)) pairs)
  | YStr s => ret (map (fun c => YStr (String c EmptyString)) (list_ascii_of_string s))
  | _ => raise OtherException
  end.

(** The loop [for field in required_fields]. *)
Fixpoint check_required (file_path : path) (data : yaml)
  (required_fields : list string) (success : bool) : M bool :=
  match required_fields with
  | [] => ret success
  | field :: rest =>
      present ← contains data field;
      if negb present then
        add_error file_path (MissingField field) ;;
        check_required file_path data rest false
      else check_required file_path data rest success
  end.

(** *** validate_navigation *)

(** The inner loop [for title, path in item.items()]. *)
Fixpoint check_nav_targets (fs : files) (file_path : path)
  (pairs : list (string * yaml)) (success : bool) : M bool :=
  match pairs with
  | [] => ret success
  | (title, target) :: rest =>
      match target with
      | YStr p =>
          if endswith p ".md" then
            found ← path_exists (docs_path_exists fs p);
            if negb found then
              add_error file_path (NavTargetMissing p) ;;
              check_nav_targets fs file_path rest false
            else check_nav_targets fs file_path rest success
          else check_nav_targets fs file_path rest success
      | _ => check_nav_targets fs file_path rest success
      end
  end.

(** The outer loop [for item in nav]. *)
Fixpoint check_nav_items (fs : files) (file_path : path)
  (items : list yaml) (success : bool) : M bool :=
  match items with
  | [] => ret success
  | item :: rest =>
      match item with
      | YDict pairs =>
          success ← check_nav_targets fs file_path pairs success;
          check_nav_items fs file_path rest success
      | _ => check_nav_items fs file_path rest success
      end
  end.

Definition validate_navigation (fs : files) (file_path : path) (nav : yaml)
  : M bool :=
  items ← iterate nav;
  check_nav_items fs file_path items true.

(** *** validate_mkdocs_config *)

Definition validate_mkdocs_config (fs : files) (file_path : path)
  (data : yaml) : M bool :=
  success ← check_required file_path data ["site_name"; "docs_dir"] true;
  has_site_name ← contains data "site_name";
  success ←
    (if has_site_name then
       site_name ← getitem data "site_name";
       match site_name with
       | YStr s =>
           if negb (truthy (strip s))
           then add_error file_path BadSiteName ;; ret false
           else ret success
       | _ => add_error file_path BadSiteName ;; ret false
       end
     else ret success);
  has_docs_dir ← contains data "docs_dir";
  success ←
    (if has_docs_dir then
       docs_dir ← getitem data "docs_dir";
       match docs_dir with
       | YStr d =>
           found ← path_exists (config_path_exists fs d);
           if negb found
           then add_error file_path (DocsDirMissing d) ;; ret false
           else ret success
       | _ => raise OtherException
       end
     else ret success);
  has_nav ← contains data "nav";
  success ←
    (if has_nav then
       nav ← getitem data "nav";
       ok ← validate_navigation fs file_path nav;
       ret (if negb ok then false else success)
     else ret success);
  has_theme ← contains data "theme";
  success ←
    (if has_theme then
       theme ← getitem data "theme";
       match theme with
       | YDict _ =>
           has_name ← contains theme "name";
           (if negb has_name
            then add_warning file_path ThemeWithoutName
            else ret tt) ;;
           ret success
       | YStr _ => ret success
       | _ => add_error file_path BadTheme ;; ret false
       end
     else ret success);
  ret success.

(** *** validate_github_workflow *)

(** The loop [for job_name, job_config in data['jobs'].items()]. *)
Fixpoint check_jobs (file_path : path) (jobs : list (string * yaml))
  (success : bool) : M bool :=
  match jobs with
  | [] => ret success
  | (job_name, job_config) :: rest =>
      match job_config with
      | YDict _ =>
          has_runs_on ← contains job_config "runs-on";
          success ←
            (if negb has_runs_on
             then add_error file_path (JobWithoutRunsOn job_name) ;; ret false
             else ret success);
          has_steps ← contains job_config "steps";
          success ←
            (if negb has_steps
             then add_error file_path (JobWithoutSteps job_name) ;; ret false
             else ret success);
          check_jobs file_path rest success
      | _ =>
          add_error file_path (JobNotDict job_name) ;;
          check_jobs file_path rest false
      end
  end.

Definition validate_github_workflow (file_path : path) (data : yaml)
  : M bool :=
  success ← check_required file_path data ["name"; "on"; "jobs"] true;
  has_jobs ← contains data "jobs";
  if has_jobs then
    jobs ← getitem data "jobs";
    match jobs with
    | YDict pairs => check_jobs file_path pairs success
    | _ => add_error file_path JobsNotDict ;; ret false
    end
  else ret success.

(** *** validate_docker_compose *)

(** The loop [for service_name, service_config in data['services'].items()]. *)
Fixpoint check_services (file_path : path) (services : list (string * yaml))
  (success : bool) : M bool :=
  match services with
  | [] => ret success
  | (service_name, service_config) :: rest =>
      match service_config with
      | YDict _ =>
          has_image ← contains service_config "image";
          has_build ← contains service_config "build";
          if negb has_image && negb has_build then
            add_error file_path (ServiceWithoutImage service_name) ;;
            check_services file_path rest false
          else check_services file_path rest success
      | _ =>
          add_error file_path (ServiceNotDict service_name) ;;
          check_services file_path rest false
      end
  end.

Definition validate_docker_compose (file_path : path) (data : yaml)
  : M bool :=
  has_version ← contains data "version";
  (if negb has_version then add_warning file_path NoVersion else ret tt) ;;
  has_services ← contains data "services";
  if negb has_services then
    add_error file_path NoServices ;; ret false
  else
    services ← getitem data "services";
    match services with
    | YDict pairs => check_services file_path pairs true
    | _ => add_error file_path ServicesNotDict ;; ret false
    end.

(** *** validate_generic_yaml *)

Definition validate_generic_yaml (file_path : path) (data : yaml) : M bool :=
  ret true.

(** *** run_specific_validation, validate_file, validate_all_files *)

Definition run_specific_validation (fs : files) (file_path : path)
  (data : yaml) : M bool :=
  let file_name := name file_path in
  if String.eqb file_name "mkdocs.yml" then
    validate_mkdocs_config fs file_path data
  else if match_workflow file_path then
    validate_github_workflow file_path data
  else if String.eqb file_name "docker-compose.yml" then
    validate_docker_compose file_path data
  else
    validate_generic_yaml file_path data.

Definition validate_file (fs : files) (file_path : path) : M bool :=
  announce file_path ;;
  match load fs file_path with
  | Unreadable => add_error file_path ReadFailed ;; ret false
  | InvalidSyntax => add_error file_path InvalidYaml ;; ret false
  | Loaded YNull => add_warning file_path EmptyFile ;; ret true
  | Loaded data => run_specific_validation fs file_path data
  end.

(** The loop [for file_path in yaml_files]. *)
Fixpoint validate_each (fs : files) (yaml_files : list path) (success : bool)
  : M bool :=
  match yaml_files with
  | [] => ret success
  | file_path :: rest =>
      ok ← validate_file fs file_path;
      validate_each fs rest (if negb ok then false else success)
  end.

(** [yaml_files] is what [find_yaml_files] returned. *)
Definition validate_all_files (fs : files) (yaml_files : list path)
  : M bool :=
  match yaml_files with
  | [] => ret false
  | _ => validate_each fs yaml_files true
  end.

End YamlValidator.

(** * The vocabulary of the statements *)

(** ** The uploader *)

Section UploaderVocabulary.
Import Uploader.

(** The three configuration values as the process environment gives them. *)
Definition fluid_url (o : outside) : string := getenv o "FLUID_URL".
Definition fluid_user (o : outside) : string := getenv o "FLUID_USER".
Definition fluid_pass (o : outside) : string := getenv o "FLUID_PASS".

(** An environment in which the URL is a lone slash. *)
Definition slash_env : outside :=
  {| environ := <["FLUID_URL" := "/"]> (<["FLUID_USER" := "user"]>
                  (<["FLUID_PASS" := "secret"]> ∅));
     site_tree := None; docs_tree := None;
     post_reply := PostTimeout; get_reply := fun _ => GetException;
     zip_creatable := true; sleep_interrupted := fun _ => false;
     remove_ok := true |}.

(** The number of events of a trace that satisfy [p]. *)
Definition count (p : event -> bool) (t : list event) : nat :=
  length (List.filter p t).

Definition is_get (e : event) : bool :=
  match e with EvGet _ => true | _ => false end.
Definition is_sleep (e : event) : bool :=
  match e with EvSleep _ => true | _ => false end.
Definition is_post (e : event) : bool :=
  match e with EvPost => true | _ => false end.
Definition is_cleanup (e : event) : bool :=
  match e with EvCleanup => true | _ => false end.
Definition is_remove (e : event) : bool :=
  match e with EvRemove => true | _ => false end.
Definition says_cleanup_warning (e : event) : bool :=
  match e with EvPrint MCleanupWarning => true | _ => false end.
(** The events of [cleanup]. *)
Definition is_cleaning (e : event) : bool :=
  match e with
  | EvCleanup | EvRemove | EvPrint MCleanedUp | EvPrint MCleanupWarning => true
  | _ => false
  end.
Definition is_zip (e : event) : bool :=
  match e with EvZipOpen | EvZipWrite _ | EvZipClose | EvDigest _ => true | _ => false end.
Definition says_completed (e : event) : bool :=
  match e with EvPrint MProcessingCompleted => true | _ => false end.
Definition says_failed (e : event) : bool :=
  match e with EvPrint MProcessingFailed => true | _ => false end.
Definition says_timed_out (e : event) : bool :=
  match e with EvPrint MMonitoringTimedOut => true | _ => false end.

(** The events the poller produces: queries, waits and its own messages. *)
Definition poller_event (e : event) : bool :=
  match e with
  | EvGet _ | EvSleep _ => true
  | EvPrint m =>
      match m with
      | MMonitoring | MProcessingStatus _ | MProcessingCompleted
      | MPublishedAt _ | MProcessingFailed | MProcessingError _
      | MUnknownStatus _ | MStatusCheckFailed _ | MStatusCheckError
      | MMonitoringTimedOut => true
      | _ => false
      end
  | _ => false
  end.

(** [w] after the events [new]. *)
Definition after (w : world) (new : list event) : world :=
  {| w_archive := w_archive w; w_trace := w_trace w ++ new |}.

(** What one reply of the status endpoint means to the loop, and what one
    turn of the loop comes to: a turn that would go round again is cut short
    when the interrupt arrives during its wait. *)
Inductive reply_kind : Type :=
| Completed | Failed | Retry | Interrupted | InterruptedWait.

Definition kind_of (r : get_resp) : reply_kind :=
  match r with
  | GetInterrupt => Interrupted
  | GetException => Retry
  | GetHttp code body =>
      if Z.eqb code 200 then
        match body with
        | JsonObject d =>
            match d !! "status" with
            | Some (JStr label) =>
                if String.eqb label "completed" then Completed
                else if String.eqb label "failed" then Failed
                else Retry
            | _ => Retry
            end
        | _ => Retry
        end
      else Retry
  end.

Definition turn_kind (o : outside) (attempt : nat) : reply_kind :=
  match kind_of (get_reply o attempt) with
  | Retry => if sleep_interrupted o attempt then InterruptedWait else Retry
  | k => k
  end.

(** The first turn, among those with the counters [attempt], [attempt + 1],
    ... that the loop guard allows, that does not make the loop go round
    again. *)
Fixpoint first_decisive (o : outside) (remaining attempt : nat)
  : option (nat * reply_kind) :=
  match remaining with
  | O => None
  | S remaining' =>
      match turn_kind o attempt with
      | Retry => first_decisive o remaining' (attempt + 1)
      | k => Some (attempt, k)
      end
  end.

(** How the loop ends, given the first decisive reply: the result, and the
    numbers of queries, waits and closing messages among the events
    [new] it adds.  Nothing else of the world changes, and the loop neither
    posts, nor cleans up, nor touches the archive. *)
Definition loop_outcome (attempt remaining : nat)
  (decisive : option (nat * reply_kind)) (r : res bool) (new : list event)
  : Prop :=
  forallb poller_event new = true /\
  match decisive with
  | Some (n, k) =>
      count is_get new = n - attempt + 1 /\
      count is_sleep new =
        n - attempt + (match k with InterruptedWait => 1 | _ => 0 end) /\
      count says_timed_out new = 0 /\
      match k with
      | Completed =>
          r = Ret true /\ count says_completed new = 1 /\ count says_failed new = 0
      | Failed =>
          r = Ret false /\ count says_completed new = 0 /\ count says_failed new = 1
      | _ =>
          r = Raise KeyboardInterrupt /\
          count says_completed new = 0 /\ count says_failed new = 0
      end
  | None =>
      r = Ret false /\
      count is_get new = remaining /\ count is_sleep new = remaining /\
      count says_timed_out new = 1 /\
      count says_completed new = 0 /\ count says_failed new = 0
  end.

(** One more turn of the loop in front: a query, prints that close
    nothing, and a wait. *)
Definition quiet_turn (pre : list event) : Prop :=
  count is_get pre = 1 /\ count is_sleep pre = 1 /\
  forallb poller_event pre = true /\
  count says_timed_out pre = 0 /\ count says_completed pre = 0 /\
  count says_failed pre = 0.

(** The events of one turn of the loop on the label "processing". *)
Definition processing_turn (n : nat) : list event :=
  [EvGet n; EvPrint (MProcessingStatus (JStr "processing")); EvSleep 10].

(** An endpoint that answers "processing" five times and then "completed"
    with a publication URL. *)
Definition status_object (label : string) : gmap string jval :=
  <["status" := JStr label]> ∅.

Definition scenario_d : outside :=
  {| environ := ∅; site_tree := None; docs_tree := None;
     post_reply := PostTimeout;
     get_reply := fun n =>
       if n <? 5 then GetHttp 200 (JsonObject (status_object "processing"))
       else GetHttp 200 (JsonObject
              (<["publication_url" := JStr "https://docs.example/pub/7"]>
                 (status_object "completed")));
     zip_creatable := true; sleep_interrupted := fun _ => false;
     remove_ok := true |}.

Definition some_uploader : uploader :=
  {| base_url := "https://ft.example"; username := "user"; password := "secret";
     docs_dir := "docs"; build_dir := "site"; package_name := "docs_package.zip" |}.

Definition fresh_world : world := {| w_archive := None; w_trace := [] |}.

(** The outcomes of one upload as the specification names them, with one
    more for what the last [except Exception] clause reports. *)
Inductive upload_outcome : Type :=
| Success
| AuthFailure
| PayloadTooLarge
| ServerError (status_code : Z)
| NetworkTimeout
| ConnectionFailure
| UnclassifiedFailure.

(** The outcome an event announces, if it announces one. *)
Definition outcome_message (e : event) : option upload_outcome :=
  match e with
  | EvPrint MUploadSuccessful => Some Success
  | EvPrint MAuthFailed => Some AuthFailure
  | EvPrint MTooLarge => Some PayloadTooLarge
  | EvPrint (MUploadStatusFailed code) => Some (ServerError code)
  | EvPrint MUploadTimedOut => Some NetworkTimeout
  | EvPrint MConnectionFailed => Some ConnectionFailure
  | EvPrint MUploadFailed => Some UnclassifiedFailure
  | _ => None
  end.

(** The outcomes announced along a trace, in order. *)
Fixpoint reported_outcomes (t : list event) : list upload_outcome :=
  match t with
  | [] => []
  | e :: t' =>
      match outcome_message e with
      | Some out => out :: reported_outcomes t'
      | None => reported_outcomes t'
      end
  end.

(** The outcome the claim assigns to a status code. *)
Definition outcome_of_status (code : Z) : upload_outcome :=
  if Z.eqb code 200 then Success
  else if Z.eqb code 401 then AuthFailure
  else if Z.eqb code 413 then PayloadTooLarge
  else ServerError code.

(** A server that answers 200 with a body that is not JSON. *)
Definition html_reply : outside :=
  {| environ := ∅; site_tree := None; docs_tree := None;
     post_reply := PostHttp 200 BadJson;
     get_reply := fun _ => GetException;
     zip_creatable := true; sleep_interrupted := fun _ => false;
     remove_ok := true |}.

(** A server that rejects the credentials. *)
Definition unauthorized : outside :=
  {| environ := ∅; site_tree := None; docs_tree := None;
     post_reply := PostHttp 401 (JsonObject ∅);
     get_reply := fun _ => GetException;
     zip_creatable := true; sleep_interrupted := fun _ => false;
     remove_ok := true |}.

(** A world in which the package has been written. *)
Definition packaged_world : world :=
  {| w_archive := Some {| a_members := [["index.html"]]; a_closed := true |};
     w_trace := [] |}.

(** Induction on directory trees. *)
Fixpoint entry_rect' (P : entry -> Prop)
  (Hfile : forall name readable, P (File name readable))
  (Hdir : forall name es, Forall P es -> P (Dir name es))
  (e : entry) {struct e} : P e :=
  match e with
  | File name readable => Hfile name readable
  | Dir name es =>
      Hdir name es
        ((fix all (es : list entry) : Forall P es :=
            match es with
            | [] => @List.Forall_nil _ P
            | e' :: es' =>
                @List.Forall_cons _ P e' es' (entry_rect' P Hfile Hdir e') (all es')
            end) es)
  end.

(** A name is shown when it does not start with the hidden-file marker; a
    relative path is visible when all of its components are shown: the file
    is not hidden and neither is any directory above it. *)
Definition shown (name : string) : bool := negb (startswith name ".").

Definition visible (p : path) : bool := forallb shown p.

(** All the files below [top], each with its path relative to the start of
    the walk ([root] is the path of [top]) and its readability, directory
    by directory, a directory's own files before those of its
    sub-directories. *)
Fixpoint tree_files (root : path) (top : entry) {struct top}
  : list (path * bool) :=
  match top with
  | File _ _ => []
  | Dir _ es =>
      map (fun fr => (root ++ [fst fr], snd fr)) (filenames es) ++
      flat_map (fun e =>
                  match e with
                  | Dir d _ => tree_files (root ++ [d]) e
                  | File _ _ => []
                  end) es
  end.

(** The files [create_package] means to add for one step of the walk. *)
Definition step_targets (step : path * list (string * bool))
  : list (path * bool) :=
  map (fun fr => (fst step ++ [fst fr], snd fr))
      (List.filter (fun fr => negb (startswith (fst fr) ".")) (snd step)).

(** The files [create_package] means to add, in order. *)
Definition targets (top : entry) : list (path * bool) :=
  flat_map step_targets (os_walk (fun d => negb (startswith d ".")) [] top).

(** The files written before the first one that cannot be read. *)
Fixpoint readable_prefix (ts : list (path * bool)) : list path :=
  match ts with
  | (p, true) :: ts' => p :: readable_prefix ts'
  | _ => []
  end.

Definition all_readable (ts : list (path * bool)) : bool := forallb snd ts.

(** The archive [z] with the members [ps] added. *)
Definition extended (z : archive) (ps : list path) : archive :=
  {| a_members := a_members z ++ ps; a_closed := a_closed z |}.

(** The world once [ps] have been written to the open archive [z]. *)
Definition written (w : world) (z : archive) (ps : list path) : world :=
  {| w_archive := Some (extended z ps);
     w_trace := w_trace w ++ map EvZipWrite ps |}.

(** The directory the packager takes: [site] if it exists, else [docs]. *)
Definition chosen_source (o : outside) : option (string * list entry) :=
  match site_tree o with
  | Some es => Some ("site", es)
  | None =>
      match docs_tree o with
      | Some es => Some ("docs", es)
      | None => None
      end
  end.

(** The two directory names as [__init__] sets them. *)
Definition standard (self : uploader) : Prop :=
  build_dir self = "site" /\ docs_dir self = "docs".

(** The archive file with the members [ps], before and after the writer is
    closed. *)
Definition open_archive (ps : list path) : archive :=
  {| a_members := ps; a_closed := false |}.

Definition closed_archive (ps : list path) : archive :=
  {| a_members := ps; a_closed := true |}.

(** The events of packaging the files [ts], the first unreadable one of
    which, if any, makes [zipf.write] raise. *)
Definition package_events (ts : list (path * bool)) : list event :=
  [EvPrint MCreating; EvZipOpen] ++
  map EvZipWrite (readable_prefix ts) ++
  (if all_readable ts
   then [EvPrint (MPackageCreated (length ts));
         EvDigest (open_archive (readable_prefix ts));
         EvPrint (MChecksum (open_archive (readable_prefix ts)));
         EvZipClose]
   else [EvZipClose; EvPrint MCreateFailed]).



(** The visible files of a tree. *)
Definition visible_files (top : entry) : list (path * bool) :=
  List.filter (fun t => visible (fst t)) (tree_files [] top).

(** A site with a hidden directory, a hidden file, and visible pages. *)
Definition sample_site : list entry :=
  [File "index.html" true;
   File ".nojekyll" true;
   Dir ".git" [File "HEAD" true; Dir "objects" [File "pack" true]];
   Dir "guide" [File "intro.html" true; File ".DS_Store" true;
                Dir ".cache" [File "page.html" true]]].

Definition site_only (es : list entry) : outside :=
  {| environ := <["FLUID_URL" := "https://ft.example/"]>
                  (<["FLUID_USER" := "user"]> (<["FLUID_PASS" := "secret"]> ∅));
     site_tree := Some es; docs_tree := None;
     post_reply := PostHttp 200 (JsonObject ∅);
     get_reply := fun _ => GetException;
     zip_creatable := true; sleep_interrupted := fun _ => false;
     remove_ok := true |}.

(** What [create_package] gives when the archive file cannot be created:
    the failure is reported, and neither the file on disk nor any archive
    event is there to show for it. *)
Definition creation_failed (w : world) : res bool * world :=
  (Ret false, after w [EvPrint MCreating; EvPrint MCreateFailed]).

(** The sample site in a working directory in which no file can be
    created. *)
Definition unwritable_directory : outside :=
  {| environ := <["FLUID_URL" := "https://ft.example/"]>
                  (<["FLUID_USER" := "user"]> (<["FLUID_PASS" := "secret"]> ∅));
     site_tree := Some sample_site; docs_tree := None;
     zip_creatable := false;
     post_reply := PostHttp 200 (JsonObject ∅);
     get_reply := fun _ => GetException;
     sleep_interrupted := fun _ => false; remove_ok := true |}.

(** A project in which [site] is a regular file and the pages are in
    [docs]. *)
Definition site_is_a_file : outside :=
  {| environ := <["FLUID_URL" := "https://ft.example/"]>
                  (<["FLUID_USER" := "user"]> (<["FLUID_PASS" := "secret"]> ∅));
     site_tree := Some []; docs_tree := Some [File "index.md" true];
     zip_creatable := true;
     post_reply := PostHttp 200 (JsonObject ∅);
     get_reply := fun _ => GetException;
     sleep_interrupted := fun _ => false; remove_ok := true |}.

(** What packaging the directory [top] gives: the visible files up to the
    first unreadable one are in the archive, and the result tells whether
    that was all of them. *)
Definition packaged (w : world) (top : entry) : res bool * world :=
  (Ret (all_readable (visible_files top)),
   {| w_archive := Some (closed_archive (readable_prefix (visible_files top)));
      w_trace := w_trace w ++ package_events (visible_files top) |}).

Definition is_zip_close (e : event) : bool :=
  match e with EvZipClose => true | _ => false end.

(** A site one page of which cannot be read. *)
Definition unreadable_site : list entry :=
  [File "index.html" true; File "private.html" false; File "late.html" true].

(** [k] copies of the character [c]. *)
Fixpoint repeat_char (k : nat) (c : ascii) : string :=
  match k with
  | O => EmptyString
  | S k' => String c (repeat_char k' c)
  end.

(** A status check that failed by itself: the request raised, the status
    code was not 200, or the body was not a JSON object. *)
Definition transient (r : get_resp) : bool :=
  match r with
  | GetException => true
  | GetHttp code body =>
      negb (Z.eqb code 200)
      || match body with JsonObject _ => false | _ => true end
  | GetInterrupt => false
  end.

(** The time spent in [time.sleep] along a trace. *)
Fixpoint sleep_seconds (t : list event) : nat :=
  match t with
  | [] => 0
  | EvSleep s :: t' => s + sleep_seconds t'
  | _ :: t' => sleep_seconds t'
  end.

(** A status endpoint that is unreachable, then overloaded, then answers
    with a page that is not JSON, before it reports completion. *)
Definition flaky_endpoint : outside :=
  {| environ := ∅; site_tree := None; docs_tree := None;
     post_reply := PostTimeout;
     get_reply := fun n =>
       match n with
       | 0 => GetException
       | 1 => GetHttp 503 (JsonObject (status_object "completed"))
       | 2 => GetHttp 200 BadJson
       | _ => GetHttp 200 (JsonObject (status_object "completed"))
       end;
     zip_creatable := true; sleep_interrupted := fun _ => false;
     remove_ok := true |}.

(** What the poller returns, read off the first decisive turn. *)
Definition poll_result (o : outside) : res bool :=
  match first_decisive o max_attempts 0 with
  | Some (_, Completed) => Ret true
  | Some (_, Interrupted) | Some (_, InterruptedWait) => Raise KeyboardInterrupt
  | _ => Ret false
  end.




(** The world [deploy] hands to [upload_package] once the files [ts] have
    been packaged. *)
Definition world_with_package (w : world) (ts : list (path * bool)) : world :=
  {| w_archive := Some (closed_archive (readable_prefix ts));
     w_trace := w_trace w ++ [EvPrint MStarting] ++ package_events ts |}.

(** What [cleanup] leaves of the archive [z] it finds on disk, and its
    events: the file is deleted, or [os.remove] raises, the file stays and
    the warning is printed. *)
Definition cleaned (o : outside) (z : archive) : option archive :=
  if remove_ok o then None else Some z.

Definition cleanup_events (o : outside) : list event :=
  if remove_ok o then [EvCleanup; EvRemove; EvPrint MCleanedUp]
  else [EvCleanup; EvPrint MCleanupWarning].

(** The events with which [deploy] ends, given how the upload ended. *)
Definition deploy_ending (o : outside) (r : res bool) : list event :=
  match r with
  | Ret success =>
      cleanup_events o ++
      [EvPrint (if success then MDeploymentCompleted else MDeploymentFailed)]
  | Raise KeyboardInterrupt => EvPrint MDeploymentInterrupted :: cleanup_events o
  | Raise _ => EvPrint MDeploymentError :: cleanup_events o
  end.

(** The boolean [deploy] makes of it. *)
Definition deploy_flag (r : res bool) : bool :=
  match r with Ret success => success | Raise _ => false end.

(** The sample site and a server that rejects the credentials. *)
Definition rejected_site : outside :=
  {| environ := environ (site_only sample_site);
     site_tree := Some sample_site; docs_tree := None;
     post_reply := PostHttp 401 BadJson;
     get_reply := fun _ => GetException;
     zip_creatable := true; sleep_interrupted := fun _ => false;
     remove_ok := true |}.

(** The sample site and a connection that cannot be established. *)
Definition unreachable_server : outside :=
  {| environ := environ (site_only sample_site);
     site_tree := Some sample_site; docs_tree := None;
     post_reply := PostConnectionError;
     get_reply := fun _ => GetException;
     zip_creatable := true; sleep_interrupted := fun _ => false;
     remove_ok := true |}.

(** The sample site and a server that hands out an upload id and then
    answers every status query with "processing". *)
Definition stuck_processing : outside :=
  {| environ := environ (site_only sample_site);
     site_tree := Some sample_site; docs_tree := None;
     post_reply := PostHttp 200 (JsonObject (<["upload_id" := JStr "7"]> ∅));
     get_reply := fun _ => GetHttp 200 (JsonObject (status_object "processing"));
     zip_creatable := true; sleep_interrupted := fun _ => false;
     remove_ok := true |}.

(** The outcome reported when the request itself fails. *)
Definition outcome_of_failure (r : post_resp) : list upload_outcome :=
  match r with
  | PostTimeout => [NetworkTimeout]
  | PostConnectionError => [ConnectionFailure]
  | PostException => [UnclassifiedFailure]
  | _ => []
  end.

(** The sample site, a server that takes the upload, and an interruption
    during the first status query. *)
Definition interrupted_poll : outside :=
  {| environ := environ (site_only sample_site);
     site_tree := Some sample_site; docs_tree := None;
     post_reply := PostHttp 200 (JsonObject (<["upload_id" := JStr "7"]> ∅));
     get_reply := fun _ => GetInterrupt;
     zip_creatable := true; sleep_interrupted := fun _ => false;
     remove_ok := true |}.

(** The sample site, a server that rejects the credentials, and an archive
    that cannot be deleted. *)
Definition undeletable_archive : outside :=
  {| environ := environ (site_only sample_site);
     site_tree := Some sample_site; docs_tree := None;
     zip_creatable := true;
     post_reply := PostHttp 401 BadJson;
     get_reply := fun _ => GetException;
     sleep_interrupted := fun _ => false; remove_ok := false |}.

(** The sample site, a server that takes the upload and answers the first
    status query with "processing", and an interruption during the wait
    that follows. *)
Definition interrupted_wait : outside :=
  {| environ := environ (site_only sample_site);
     site_tree := Some sample_site; docs_tree := None;
     zip_creatable := true;
     post_reply := PostHttp 200 (JsonObject (<["upload_id" := JStr "7"]> ∅));
     get_reply := fun _ => GetHttp 200 (JsonObject (status_object "processing"));
     sleep_interrupted := fun n => n =? 0; remove_ok := true |}.

(** A world in which an archive of an earlier run is still on disk. *)
Definition stale_world : world :=
  {| w_archive := Some {| a_members := [["old.html"]]; a_closed := true |};
     w_trace := [] |}.

End UploaderVocabulary.

(** ** The linter *)

Section LinterVocabulary.
Import Linter.


(** Lines joined by newlines, to write file contents down. *)
Definition unlines (lines : list string) : string :=
  String.concat (String newline EmptyString) lines.

(** The level-one headings a Markdown reader sees: the lines with exactly
    one leading [#] that lie outside fenced code blocks, fences being told
    as [check_code_blocks] tells them. *)
Fixpoint h1_outside_fences (lines : list string) (in_code_block : bool) : nat :=
  match lines with
  | [] => 0
  | line :: rest =>
      if startswith line fence then h1_outside_fences rest (negb in_code_block)
      else if negb in_code_block && startswith line "#" && (heading_level line =? 1)
           then S (h1_outside_fences rest in_code_block)
           else h1_outside_fences rest in_code_block
  end.

(** A page with one title and a shell comment in a closed code block. *)
Definition page_with_shell_comment : string :=
  unlines ["# Install"; ""; "```bash"; "# fetch the package"; "pip install docsflow"; "```"; ""].

(** The number of newline characters of a text. *)
Fixpoint newlines (s : string) : nat :=
  match s with
  | EmptyString => 0
  | String a s' => (if Ascii.eqb a newline then 1 else 0) + newlines s'
  end.

(** A line as [split] gives it: without a newline in it. *)
Definition one_line (s : string) : Prop := newlines s = 0.

(** The number of lines that start with a code fence. *)
Definition fence_lines (content : string) : nat :=
  length (List.filter (fun l => startswith l fence) (split_lines content)).

(** A link whose target [check_links] looks up: the target ends with ".md"
    and does not start with "http". *)
Definition internal (link : string * string) : bool :=
  endswith (snd link) ".md" && negb (startswith (snd link) "http").

(** A link that [check_links] reports as broken: its target is looked up
    and is not there. *)
Definition broken (fs : files) (link : string * string) : bool :=
  internal link &&
  match link_target_exists fs (snd link) with
  | Some found => negb found
  | None => false
  end.

(** A link at which the lookup of the target raises. *)
Definition lookup_raises (fs : files) (link : string * string) : bool :=
  internal link &&
  match link_target_exists fs (snd link) with
  | Some _ => false
  | None => true
  end.

(** The links the loop gets through: those before the first one at which
    the lookup raises. *)
Fixpoint looked_up (fs : files) (links : list (string * string))
  : list (string * string) :=
  match links with
  | [] => []
  | link :: rest =>
      if lookup_raises fs link then [] else link :: looked_up fs rest
  end.

(** The source text of a link with the given label and target. *)
Definition link_source (link_text url : string) : string :=
  String "["%char (String.append link_text
    (String "]"%char (String "("%char (String.append url
      (String ")"%char EmptyString))))).

(** The number of lines that start with exactly one [#]. *)
Definition h1_lines (content : string) : nat :=
  length (List.filter (fun l => startswith l "#" && (heading_level l =? 1))
                      (split_lines content)).

(** From [st] to [st'] the two accumulators were only appended to, with
    entries about files among [fl]. *)
Definition recorded_for (fl : list string) (st st' : linter) : Prop :=
  exists new_errors new_warnings,
    errors st' = errors st ++ new_errors /\
    warnings st' = warnings st ++ new_warnings /\
    Forall (fun e => In (fst e) fl) new_errors /\
    Forall (fun e => In (fst e) fl) new_warnings.






End LinterVocabulary.

(** ** The YAML validator *)

Section YamlVocabulary.
Import YamlValidator.






(** [key in pairs] for a mapping. *)
Definition has (pairs : list (string * yaml)) (key : string) : bool :=
  match assoc key pairs with Some _ => true | None => false end.

(** A service the compose check accepts: a mapping with [image] or
    [build]. *)
Definition service_ok (service_config : yaml) : bool :=
  match service_config with
  | YDict pairs => has pairs "image" || has pairs "build"
  | _ => false
  end.

(** A compose file the check accepts. *)
Definition compose_ok (pairs : list (string * yaml)) : bool :=
  match assoc "services" pairs with
  | Some (YDict services) => forallb service_ok (map snd services)
  | _ => false
  end.

(** A job the workflow check accepts: a mapping with [runs-on] and
    [steps]. *)
Definition job_ok (job_config : yaml) : bool :=
  match job_config with
  | YDict pairs => has pairs "runs-on" && has pairs "steps"
  | _ => false
  end.

(** A workflow file the check accepts. *)
Definition workflow_ok (pairs : list (string * yaml)) : bool :=
  has pairs "name" && has pairs "on"
  && match assoc "jobs" pairs with
     | Some (YDict jobs) => forallb job_ok (map snd jobs)
     | _ => false
     end.

(** The pages the navigation check looks up for one navigation item: the
    string values ending in ".md" of an item that is a mapping. *)
Definition item_targets (item : yaml) : list string :=
  match item with
  | YDict pairs =>
      flat_map (fun kv =>
                  match snd kv with
                  | YStr p => if endswith p ".md" then [p] else []
                  | _ => []
                  end) pairs
  | _ => []
  end.

Definition nav_targets (items : list yaml) : list string :=
  flat_map item_targets items.

(** The validator with more errors for the file [f]. *)
Definition with_errors (st : validator) (f : path) (ms : list yaml_message)
  : validator :=
  {| errors := errors st ++ map (fun m => (f, m)) ms;
     warnings := warnings st;
     announced := announced st |}.

(** A page that is looked up and is not there, and a page at which the
    lookup raises. *)
Definition page_missing (fs : files) (p : string) : bool :=
  match docs_path_exists fs p with
  | Some found => negb found
  | None => false
  end.

Definition page_lookup_raises (fs : files) (p : string) : bool :=
  match docs_path_exists fs p with
  | Some _ => false
  | None => true
  end.

(** The pages the check gets through: those before the first one at which
    the lookup raises. *)
Fixpoint pages_looked_up (fs : files) (ps : list string) : list string :=
  match ps with
  | [] => []
  | p :: rest =>
      if page_lookup_raises fs p then [] else p :: pages_looked_up fs rest
  end.

(** The errors for the missing ones among the pages [ps]. *)
Definition missing_pages (fs : files) (ps : list string) : list yaml_message :=
  map NavTargetMissing (List.filter (page_missing fs) ps).

(** How the navigation check ends on the pages [ps]. *)
Definition pages_result (fs : files) (success : bool) (ps : list string)
  : res bool :=
  if existsb (page_lookup_raises fs) ps then Raise OtherException
  else Ret (success && forallb (fun p => negb (page_missing fs p)) ps).

(** A navigation with a section: the page listed inside the section does
    not exist. *)
Definition nested_nav : list yaml :=
  [YDict [("Home", YStr "index.md")];
   YDict [("Guide", YList [YDict [("Intro", YStr "guide/missing.md")]])]].

Definition only_index : files :=
  {| load := fun _ => Unreadable;
     config_path_exists := fun _ => Some true;
     docs_path_exists := fun p => Some (String.eqb p "index.md") |}.

(** Code that always returns, and code that always raises. *)
Definition returns {A} (m : M A) : Prop :=
  forall st, exists a st', m st = (Ret a, st').

Definition raises {A} (m : M A) : Prop :=
  forall st, exists e st', m st = (Raise e, st').

(** A value that [for item in v] cannot iterate over and [key in v] cannot
    search: null, a boolean, a number or a timestamp. *)
Definition scalar (v : yaml) : bool :=
  match v with
  | YNull | YBool _ | YInt _ | YFloat _ | YDate _ => true
  | _ => false
  end.

(** The navigation values on which [validate_navigation] raises: a scalar,
    or a list with a page at which the lookup raises.  The items of a
    mapping are its keys and those of a string its characters, none of
    which is a mapping, so that nothing is looked up for them. *)
Definition navigation_raises (fs : files) (nav : yaml) : bool :=
  match nav with
  | YList items => existsb (page_lookup_raises fs) (nav_targets items)
  | YDict _ | YStr _ => false
  | _ => true
  end.

(** The mappings on which the MkDocs check raises: [docs_dir] is there and
    is not a string, or is a string at which the lookup raises; or [nav] is
    there and the navigation check raises on it. *)
Definition mkdocs_raises (fs : files) (pairs : list (string * yaml)) : bool :=
  match assoc "docs_dir" pairs with
  | Some (YStr d) =>
      match config_path_exists fs d with
      | Some _ =>
          match assoc "nav" pairs with
          | Some nav => navigation_raises fs nav
          | None => false
          end
      | None => true
      end
  | None =>
      match assoc "nav" pairs with
      | Some nav => navigation_raises fs nav
      | None => false
      end
  | Some _ => true
  end.

(** The files that get one of the three schema checks. *)
Definition typed (file_path : path) : bool :=
  String.eqb (name file_path) "mkdocs.yml" || match_workflow file_path
  || String.eqb (name file_path) "docker-compose.yml".

(** The state after [file_path] was announced and nothing was recorded. *)
Definition only_announced (st : validator) (file_path : path) : validator :=
  {| errors := errors st; warnings := warnings st;
     announced := announced st ++ [file_path] |}.

(** A workflow with a [.yaml] extension in which nothing is as a workflow
    should be, and a Compose file that holds a number. *)
Definition yaml_workflow : files :=
  {| load := fun _ => Loaded (YDict [("jobs", YInt 3)]);
     config_path_exists := fun _ => Some false;
     docs_path_exists := fun _ => Some false |}.

Definition number_document : files :=
  {| load := fun _ => Loaded (YInt 42);
     config_path_exists := fun _ => Some false;
     docs_path_exists := fun _ => Some false |}.






(** A file system without pages that refuses to look up a name of more
    than 255 characters, and such a name. *)
Definition short_names_only : files :=
  {| load := fun _ => Unreadable;
     config_path_exists := fun d =>
       if String.length d <=? 255 then Some false else None;
     docs_path_exists := fun p =>
       if String.length p <=? 255 then Some false else None |}.

Definition long_name : string := String.append (repeat_char 300 "a") ".md".

End YamlVocabulary.

(** ** Sample projects for the validation runs *)

(** Two Markdown files, the first of which lacks its final newline. *)
Definition two_pages : Linter.files :=
  {| Linter.read_file := fun f =>
       if String.eqb f "docs/a.md" then Some "# A"
       else if String.eqb f "docs/b.md" then Some (unlines ["# B"; ""])
       else None;
     Linter.link_target_exists := fun _ => Some true |}.

(** A page with two titles and a link whose target is a name of 300
    characters, which the file system refuses to look up; and a second
    page. *)
Definition page_with_long_link : string :=
  unlines ["# A"; "# Again";
           String.append "See [the guide]("
             (String.append (repeat_char 300 "a") ".md).");
           ""].

Definition long_link_target : Linter.files :=
  {| Linter.read_file := fun f =>
       if String.eqb f "docs/a.md" then Some page_with_long_link
       else if String.eqb f "docs/b.md" then Some (unlines ["# B"; ""])
       else None;
     Linter.link_target_exists := fun url =>
       if String.length url <=? 255 then Some true else None |}.

(** A project whose [mkdocs.yml] lacks [docs_dir], and a second file. *)
Definition no_docs_dir : YamlValidator.files :=
  {| YamlValidator.load := fun f =>
       if String.eqb (YamlValidator.name f) "mkdocs.yml"
       then YamlValidator.Loaded
              (YamlValidator.YDict [("site_name", YamlValidator.YStr "DocsFlow")])
       else YamlValidator.Loaded (YamlValidator.YDict []);
     YamlValidator.config_path_exists := fun _ => Some true;
     YamlValidator.docs_path_exists := fun _ => Some true |}.


(** * Properties *)

(** ** Strings *)

Section StringFacts.

Lemma rstrip_all (c : ascii) (s : string) :
  rstrip c s = EmptyString <->
  Forall (fun a => a = c) (list_ascii_of_string s).
Proof.
  induction s as [|a s IH]; simpl.
  - split; [constructor | reflexivity].
  - destruct (rstrip c s) eqn:E.
    + destruct (Ascii.eqb_spec a c) as [->|Hne].
      * split; [intros _; constructor; [reflexivity | now apply IH] | reflexivity].
      * split; [discriminate | intros H; inversion H; contradiction].
    + split; [discriminate |].
      intros H. inversion H as [|? ? _ Hs]; subst.
      apply IH in Hs. discriminate.
Qed.

Lemma truthy_false (s : string) : truthy s = false <-> s = EmptyString.
Proof. destruct s; simpl; split; congruence. Qed.

Lemma truthy_true (s : string) : truthy s = true <-> s <> EmptyString.
Proof. destruct s; simpl; split; congruence. Qed.

Lemma append_empty_l (s : string) : String.append EmptyString s = s.
Proof. reflexivity. Qed.

Lemma append_String (a : ascii) (s t : string) :
  String.append (String a s) t = String a (String.append s t).
Proof. reflexivity. Qed.

Lemma append_assoc (s t u : string) :
  String.append (String.append s t) u = String.append s (String.append t u).
Proof.
  induction s as [|a s IH]; [reflexivity|].
  rewrite !append_String, IH. reflexivity.
Qed.

End StringFacts.

(** ** The uploader: construction *)

Section UploaderInit.
Import Uploader.

(** An absent variable reads as the empty string. *)
Lemma getenv_absent (o : outside) (name : string) :
  environ o !! name = None -> getenv o name = "".
Proof. unfold getenv. now intros ->. Qed.

Lemma init_cases (o : outside) :
  init o =
  if truthy (rstrip "/" (fluid_url o)) && truthy (fluid_user o)
     && truthy (fluid_pass o)
  then Ret {| base_url := rstrip "/" (fluid_url o);
              username := fluid_user o;
              password := fluid_pass o;
              docs_dir := "docs";
              build_dir := "site";
              package_name := "docs_package.zip" |}
  else Raise OtherException.
Proof.
  unfold init, fluid_url, fluid_user, fluid_pass. simpl.
  rewrite andb_true_r, andb_assoc. reflexivity.
Qed.

(** C7, as stated, fails: three non-empty values do not guarantee that the
    uploader can be constructed. *)
Lemma init_nonempty_counterexample :
  ~ (forall o : outside,
        fluid_url o <> "" -> fluid_user o <> "" -> fluid_pass o <> "" ->
        exists self, init o = Ret self).
Proof.
  intros H.
  assert (Hinit : init slash_env = Raise OtherException) by (vm_compute; reflexivity).
  destruct (H slash_env) as [self Hself].
  - vm_compute. discriminate.
  - vm_compute. discriminate.
  - vm_compute. discriminate.
  - rewrite Hinit in Hself. discriminate.
Qed.

(** C7 (amended).  Construction raises the configuration error when one of
    the three values is absent or empty, and also when the base URL consists
    of slashes only; it succeeds exactly when user name and password are
    non-empty and the base URL has a character other than ['/'], and then the
    object holds the URL without its trailing slashes.  The constructor is a
    function of the environment alone: it has no access to the event trace,
    so it performs no request and writes no file. *)
Theorem init_configuration_check (o : outside) :
  ((fluid_url o = "" \/ fluid_user o = "" \/ fluid_pass o = "") ->
   init o = Raise OtherException) /\
  ((exists self, init o = Ret self) <->
   (Exists (fun a => a <> "/"%char) (list_ascii_of_string (fluid_url o)) /\
    fluid_user o <> "" /\ fluid_pass o <> "")) /\
  (forall self, init o = Ret self ->
     base_url self = rstrip "/" (fluid_url o) /\
     username self = fluid_user o /\ password self = fluid_pass o) /\
  (init o = Raise OtherException \/ exists self, init o = Ret self).
Proof.
  rewrite init_cases.
  assert (Hurl : truthy (rstrip "/" (fluid_url o)) = true <->
                 Exists (fun a => a <> "/"%char) (list_ascii_of_string (fluid_url o))).
  { rewrite truthy_true, rstrip_all, <- Exists_Forall_neg.
    - tauto.
    - intros a. destruct (Ascii.eqb_spec a "/"%char); tauto. }
  destruct (truthy (rstrip "/" (fluid_url o))) eqn:E1;
    destruct (truthy (fluid_user o)) eqn:E2;
    destruct (truthy (fluid_pass o)) eqn:E3; simpl;
    rewrite <- Hurl, <- !truthy_true, E2, E3;
    (split; [|split; [|split]]);
    try (intros [H|[H|H]]; rewrite H in *; simpl in *; congruence);
    try (intros self H; (discriminate H || (injection H as <-; auto)));
    try (split; [intros [self H]; congruence || auto | intros (? & ? & ?); congruence || eauto]);
    eauto.
Qed.

End UploaderInit.

(** ** The linter *)

Section LinterFacts.
Import Linter.

(** [add_warning] and [announce] leave the errors alone. *)
Lemma errors_add_warning f m st : errors (add_warning f m st) = errors st.
Proof. reflexivity. Qed.

Lemma announced_add_warning f m st : announced (add_warning f m st) = announced st.
Proof. reflexivity. Qed.


Lemma scan_fences_errors f lines b st :
  errors (snd (scan_fences f lines b st)) = errors st /\
  announced (snd (scan_fences f lines b st)) = announced st.
Proof.
  revert b st. induction lines as [|[i line] lines IH]; intros b st.
  - split; reflexivity.
  - simpl. destruct (startswith line fence); [|apply IH].
    destruct b; simpl; [apply IH|].
    destruct (_ && _); [|apply IH].
    exact (IH true (add_warning f (MissingLanguage i) st)).
Qed.












(** *** What was recorded before has no part in a check *)


















(** *** Headings inside fenced code blocks *)

Lemma collect_headings_all lines start :
  map (fun h => snd h) (collect_headings (enumerate lines start)) =
  map fst (List.filter (fun il => startswith (snd il) "#") (enumerate lines start)).
Proof.
  revert start. induction lines as [|line lines IH]; intros start; simpl.
  - reflexivity.
  - destruct (startswith line "#"); simpl; rewrite IH; reflexivity.
Qed.

(** C9.  The heading check takes every line that starts with [#] for a
    heading, whether or not it lies inside a fenced code block: the line
    numbers of the headings it collects are those of all such lines.  So for
    the page above, which has one level-one heading outside its (closed,
    accepted) code block and a [#] comment inside it, the single-H1 rule
    records the error "Found 2 H1 headings". *)
Theorem heading_check_counts_fenced_comments :
  (forall content,
     map (fun h => snd h)
         (collect_headings (enumerate (split_lines content) 1)) =
     map fst (List.filter (fun il => startswith (snd il) "#")
                     (enumerate (split_lines content) 1))) /\
  h1_outside_fences (split_lines page_with_shell_comment) false = 1 /\
  check_code_blocks "docs/install.md" page_with_shell_comment init = (true, init) /\
  check_heading_structure "docs/install.md" page_with_shell_comment init =
    (false, add_error "docs/install.md" (H1Count 2) init).
Proof.
  split; [intros content; apply collect_headings_all|].
  split; [vm_compute; reflexivity|].
  split; vm_compute; reflexivity.
Qed.

(** *** Splitting into lines *)

Lemma split_lines_not_nil s : split_lines s <> [].
Proof.
  destruct s as [|a s]; simpl; [discriminate|].
  destruct (Ascii.eqb a newline); [discriminate|].
  destruct (split_lines s); discriminate.
Qed.

Lemma unlines_cons_nonempty l ls :
  ls <> [] ->
  unlines (l :: ls) = String.append l (String newline (unlines ls)).
Proof. destruct ls; [congruence|]. reflexivity. Qed.

Lemma unlines_String a l ls :
  unlines (String a l :: ls) = String a (unlines (l :: ls)).
Proof. destruct ls; reflexivity. Qed.

Lemma newlines_append s t : newlines (String.append s t) = newlines s + newlines t.
Proof.
  induction s as [|a s IH]; [reflexivity|].
  change (String.append (String a s) t) with (String a (String.append s t)).
  simpl. rewrite IH. lia.
Qed.

Lemma split_lines_one_line l :
  one_line l -> split_lines l = [l].
Proof.
  unfold one_line. induction l as [|a l IH]; simpl; [reflexivity|].
  destruct (Ascii.eqb a newline); [discriminate|]. simpl.
  intros H. rewrite (IH H). reflexivity.
Qed.

Lemma split_lines_append l s :
  one_line l ->
  split_lines (String.append l (String newline s)) = l :: split_lines s.
Proof.
  unfold one_line. induction l as [|a l IH]; intros H.
  - change (String.append EmptyString (String newline s)) with (String newline s).
    simpl. rewrite ?Ascii.eqb_refl. reflexivity.
  - change (String.append (String a l) (String newline s))
      with (String a (String.append l (String newline s))).
    simpl in *. destruct (Ascii.eqb a newline); [discriminate|].
    rewrite (IH H). reflexivity.
Qed.

(** X11.  Splitting a text at its newlines loses nothing: joining the lines
    with newlines gives the text back, no line contains a newline, and there
    is one line more than there are newlines (so the empty text has one,
    empty, line, and a text with a final newline has an empty last line).
    Conversely the lines of joined lines are those lines. *)
Theorem split_lines_round_trip :
  (forall s, unlines (split_lines s) = s) /\
  (forall s, Forall one_line (split_lines s)) /\
  (forall s, length (split_lines s) = S (newlines s)) /\
  (forall ls, ls <> [] -> Forall one_line ls -> split_lines (unlines ls) = ls).
Proof.
  split; [|split; [|split]].
  - induction s as [|a s IH]; [reflexivity|]. simpl.
    destruct (Ascii.eqb_spec a newline) as [->|Hne].
    + rewrite unlines_cons_nonempty by apply split_lines_not_nil.
      rewrite IH. reflexivity.
    + pose proof (split_lines_not_nil s) as Hn.
      destruct (split_lines s) as [|l ls]; [congruence|].
      rewrite unlines_String, IH. reflexivity.
  - induction s as [|a s IH]; simpl.
    + constructor; [reflexivity | constructor].
    + destruct (Ascii.eqb a newline) eqn:E.
      * constructor; [reflexivity | exact IH].
      * pose proof (split_lines_not_nil s) as Hn.
        destruct (split_lines s) as [|l ls]; [congruence|].
        inversion IH as [|? ? Hl Hls]; subst.
        constructor; [|exact Hls]. unfold one_line in *. simpl. now rewrite E.
  - induction s as [|a s IH]; simpl; [reflexivity|].
    destruct (Ascii.eqb a newline); simpl.
    + now rewrite IH.
    + pose proof (split_lines_not_nil s) as Hn.
      destruct (split_lines s) as [|l ls]; [congruence|]. simpl in *. exact IH.
  - induction ls as [|l ls IH]; intros Hne Hall; [congruence|].
    inversion Hall as [|? ? Hl Hls]; subst.
    destruct ls as [|l' ls].
    + simpl. now apply split_lines_one_line.
    + rewrite unlines_cons_nonempty by discriminate.
      rewrite split_lines_append by exact Hl.
      rewrite IH; [reflexivity | discriminate | exact Hls].
Qed.

(** *** Code fences *)

Lemma filter_enumerate {A} (p : A -> bool) (xs : list A) : forall start,
  length (List.filter (fun ix => p (snd ix)) (enumerate xs start)) =
  length (List.filter p xs).
Proof.
  induction xs as [|x xs IH]; intros start; simpl; [reflexivity|].
  destruct (p x); simpl; now rewrite IH.
Qed.

Lemma scan_fences_parity f lines : forall b st,
  fst (scan_fences f lines b st) =
  xorb b (Nat.odd (length (List.filter (fun il => startswith (snd il) fence) lines))).
Proof.
  induction lines as [|[i line] lines IH]; intros b st; simpl.
  - now rewrite xorb_false_r.
  - destruct (startswith line fence); [|apply IH].
    cbn [length]. rewrite Nat.odd_succ, <- Nat.negb_odd.
    destruct b; simpl.
    + rewrite IH. simpl. now destruct (Nat.odd _).
    + destruct (_ && _); rewrite IH; simpl; now destruct (Nat.odd _).
Qed.

Lemma code_blocks_parity f content st :
  fst (check_code_blocks f content st) = Nat.even (fence_lines content) /\
  errors (snd (check_code_blocks f content st)) =
    errors st ++
    (if Nat.even (fence_lines content) then [] else [(f, UnclosedCodeBlock)]).
Proof.
  unfold check_code_blocks, fence_lines.
  pose proof (scan_fences_parity f (enumerate (split_lines content) 1) false st) as Hp.
  destruct (scan_fences_errors f (enumerate (split_lines content) 1) false st) as [He _].
  rewrite (filter_enumerate (fun l => startswith l fence)) in Hp. simpl in Hp.
  destruct (scan_fences f (enumerate (split_lines content) 1) false st) as [b st'].
  simpl in Hp, He. rewrite <- Nat.negb_odd, <- Hp.
  destruct b; simpl; rewrite He, ?app_nil_r; split; reflexivity.
Qed.

(** X12.  The code block check counts fence lines and nothing else: a file
    passes exactly when the number of its lines that start with three
    backquotes is even, and otherwise gets the one error "Unclosed code
    block found".  Any line that starts with the fence closes an open block,
    whatever follows the backquotes on it. *)
Theorem code_blocks_closed_iff_even f content st :
  fst (check_code_blocks f content st) = Nat.even (fence_lines content) /\
  errors (snd (check_code_blocks f content st)) =
    errors st ++
    (if Nat.even (fence_lines content) then [] else [(f, UnclosedCodeBlock)]).
Proof. apply code_blocks_parity. Qed.

(** *** Links *)

Lemma check_each_link_spec fs f links : forall success st,
  fst (check_each_link fs f links success st) =
    (if existsb (lookup_raises fs) links then Raise OtherException
     else Ret (success && forallb (fun l => negb (broken fs l)) links)) /\
  errors (snd (check_each_link fs f links success st)) =
    errors st ++
    map (fun l => (f, BrokenLink (snd l)))
        (List.filter (broken fs) (looked_up fs links)).
Proof.
  induction links as [|[text url] links IH]; intros success st.
  - simpl. rewrite andb_true_r, app_nil_r. split; reflexivity.
  - cbn [check_each_link forallb existsb looked_up].
    set (st1 := if existsb (String.eqb (lower text)) generic_link_texts
                then add_warning f (NonDescriptiveLink text) st else st).
    assert (He : errors st1 = errors st)
      by (subst st1; destruct (existsb (String.eqb (lower text)) generic_link_texts);
          reflexivity).
    clearbody st1.
    assert (Hcases :
      (internal (text, url) = false /\
       broken fs (text, url) = false /\ lookup_raises fs (text, url) = false) \/
      (internal (text, url) = true /\
       ((link_target_exists fs url = Some true /\
         broken fs (text, url) = false /\ lookup_raises fs (text, url) = false) \/
        (link_target_exists fs url = Some false /\
         broken fs (text, url) = true /\ lookup_raises fs (text, url) = false) \/
        (link_target_exists fs url = None /\
         broken fs (text, url) = false /\ lookup_raises fs (text, url) = true)))).
    { unfold broken, lookup_raises. cbn [snd].
      destruct (internal (text, url)); [right|left; auto].
      split; [reflexivity|].
      destruct (link_target_exists fs url) as [[]|]; cbn; auto 10. }
    unfold internal in Hcases at 1 2. cbn [snd] in Hcases.
    destruct Hcases as [(Hint & Hb & Hl) | (Hint & [(Hex & Hb & Hl) | [(Hex & Hb & Hl) | (Hex & Hb & Hl)] ])];
      rewrite Hint, ?Hex, Hb, Hl; cbn [negb orb andb List.filter]; rewrite ?Hb.
    + destruct (IH success st1) as [H1 H2]. rewrite H1, H2, He. split; reflexivity.
    + destruct (IH success st1) as [H1 H2]. rewrite H1, H2, He. split; reflexivity.
    + destruct (IH false (add_error f (BrokenLink url) st1)) as [H1 H2].
      rewrite H1, H2. cbn [add_error errors map snd andb].
      rewrite He, andb_false_r, <- app_assoc. split; reflexivity.
    + cbn. rewrite He, app_nil_r. split; reflexivity.
Qed.

(** X13.  A link is looked up when its target ends with ".md" and does not
    start with "http"; it is broken when the target then does not exist
    below the docs directory.  The links are taken in the order of the text.
    If no lookup raises, the check passes exactly when no link is broken,
    and it records one error for each occurrence of a broken link.  If a
    lookup raises, nothing catches the exception: the check ends with it,
    having recorded the broken links among those before.  Targets that
    start with "http" and targets with anything after ".md", a fragment
    for one, are never looked up. *)
Theorem check_links_reports_broken fs f content st :
  fst (check_links fs f content st) =
    (if existsb (lookup_raises fs) (findall_links content)
     then Raise OtherException
     else Ret (forallb (fun l => negb (broken fs l)) (findall_links content))) /\
  errors (snd (check_links fs f content st)) =
    errors st ++
    map (fun l => (f, BrokenLink (snd l)))
        (List.filter (broken fs) (looked_up fs (findall_links content))) /\
  (forall link, startswith (snd link) "http" = true \/
                endswith (snd link) ".md" = false ->
                broken fs link = false /\ lookup_raises fs link = false).
Proof.
  unfold check_links.
  destruct (check_each_link_spec fs f (findall_links content) true st) as [H1 H2].
  split; [exact H1|]. split; [exact H2|].
  intros link [H|H]; unfold broken, lookup_raises, internal; rewrite H; simpl;
    rewrite ?andb_false_r; split; reflexivity.
Qed.

(** A page with a link whose target is too long a name for the file
    system: the link check raises. *)
Example check_links_raises :
  check_links long_link_target "docs/a.md" page_with_long_link init =
  (Raise OtherException, init).
Proof. vm_compute. reflexivity. Qed.

Lemma span_not_spec stop s : forall run rest,
  span_not stop s = (run, rest) ->
  s = String.append run rest /\
  ~ In stop (list_ascii_of_string run) /\
  String.length s = String.length run + String.length rest.
Proof.
  induction s as [|a s IH]; intros run rest; simpl.
  - intros [= <- <-]. repeat split. intros [].
  - destruct (Ascii.eqb_spec a stop) as [->|Hne].
    + intros [= <- <-]. repeat split. intros [].
    + destruct (span_not stop s) as [run' rest'] eqn:E.
      intros [= <- <-]. destruct (IH run' rest' eq_refl) as (-> & Hin & Hlen).
      repeat split.
      * simpl. intros [?|?]; [congruence | contradiction].
      * simpl. now rewrite Hlen.
Qed.

Lemma match_link_spec s link_text url rest :
  match_link s = Some (link_text, url, rest) ->
  s = String.append (link_source link_text url) rest /\
  link_text <> EmptyString /\ url <> EmptyString /\
  ~ In "]"%char (list_ascii_of_string link_text) /\
  ~ In ")"%char (list_ascii_of_string url) /\
  String.length rest < String.length s.
Proof.
  unfold match_link.
  destruct s as [|a s1]; [discriminate|].
  destruct (Ascii.eqb_spec a "["%char) as [->|Hne].
  2: { destruct a as [[] [] [] [] [] [] [] []]; try discriminate; congruence. }
  destruct (span_not "]"%char s1) as [t s2] eqn:E1.
  apply span_not_spec in E1 as (-> & Ht & Hl1).
  destruct s2 as [|b s2]; [discriminate|].
  destruct (Ascii.eqb_spec b "]"%char) as [->|Hneb].
  2: { destruct b as [[] [] [] [] [] [] [] []]; try discriminate; congruence. }
  destruct s2 as [|c s3]; [discriminate|].
  destruct (Ascii.eqb_spec c "("%char) as [->|Hnec].
  2: { destruct c as [[] [] [] [] [] [] [] []]; try discriminate; congruence. }
  destruct (span_not ")"%char s3) as [u s4] eqn:E2.
  apply span_not_spec in E2 as (-> & Hu & Hl2).
  destruct s4 as [|e s5]; [discriminate|].
  destruct (Ascii.eqb_spec e ")"%char) as [->|Hnee].
  2: { destruct e as [[] [] [] [] [] [] [] []]; try discriminate; congruence. }
  destruct (truthy t) eqn:Tt; [|discriminate].
  destruct (truthy u) eqn:Tu; [|discriminate].
  simpl. intros [= <- <- <-].
  apply truthy_true in Tt, Tu.
  repeat split; try assumption.
  - unfold link_source.
    rewrite append_String. f_equal.
    rewrite append_assoc. f_equal.
    rewrite !append_String. do 2 f_equal.
    rewrite append_assoc. reflexivity.
  - simpl in *. lia.
Qed.

Lemma findall_from_sound fuel : forall s link_text url,
  In (link_text, url) (findall_from fuel s) ->
  exists before rest,
    s = String.append before (String.append (link_source link_text url) rest) /\
    link_text <> EmptyString /\ url <> EmptyString /\
    ~ In "]"%char (list_ascii_of_string link_text) /\
    ~ In ")"%char (list_ascii_of_string url).
Proof.
  induction fuel as [|fuel IH]; intros s t u; simpl; [intros []|].
  destruct (match_link s) as [[[t0 u0] rest]|] eqn:E.
  - apply match_link_spec in E as (Hs & Ht & Hu & Hnt & Hnu & _).
    intros [[= <- <-]|Hin].
    + exists EmptyString, rest. rewrite append_empty_l. auto.
    + destruct (IH rest t u Hin) as (before & rest' & Hr & H).
      exists (String.append (link_source t0 u0) before), rest'.
      split; [|exact H]. rewrite Hs, Hr, append_assoc. reflexivity.
  - destruct s as [|a s]; [intros []|]. intros Hin.
    destruct (IH s t u Hin) as (before & rest' & Hr & H).
    exists (String a before), rest'. split; [|exact H].
    rewrite append_String, <- Hr. reflexivity.
Qed.

Lemma findall_from_fuel : forall n s fuel1 fuel2,
  String.length s < n -> String.length s < fuel1 -> String.length s < fuel2 ->
  findall_from fuel1 s = findall_from fuel2 s.
Proof.
  induction n as [|n IH]; intros s fuel1 fuel2 Hn H1 H2; [lia|].
  destruct fuel1 as [|fuel1]; [lia|]. destruct fuel2 as [|fuel2]; [lia|].
  simpl. destruct (match_link s) as [[[t u] rest]|] eqn:E.
  - apply match_link_spec in E as (_ & _ & _ & _ & _ & Hlen).
    f_equal. apply IH; lia.
  - destruct s as [|a s]; [reflexivity|]. simpl in *. apply IH; lia.
Qed.

(** X14.  The scanner that stands for the link pattern finds only links:
    each pair it returns has a non-empty label without a closing bracket and
    a non-empty target without a closing parenthesis, and the text contains
    the label in brackets followed at once by the target in parentheses.
    The scan consumes a character at every step, so its result does not
    depend on the fuel once that exceeds the length of the text. *)
Theorem findall_links_sound content :
  (forall link_text url,
     In (link_text, url) (findall_links content) ->
     exists before rest,
       content =
         String.append before (String.append (link_source link_text url) rest) /\
       link_text <> EmptyString /\ url <> EmptyString /\
       ~ In "]"%char (list_ascii_of_string link_text) /\
       ~ In ")"%char (list_ascii_of_string url)) /\
  (forall fuel, String.length content < fuel ->
     findall_from fuel content = findall_links content).
Proof.
  split.
  - intros t u. apply findall_from_sound.
  - intros fuel Hfuel. unfold findall_links.
    apply (findall_from_fuel (S (String.length content))); lia.
Qed.

(** The links of a short page. *)
Example findall_links_example :
  findall_links "See [the guide](guide.md), [here](https://x.org) and [a](b)c] (d)." =
  [("the guide", "guide.md"); ("here", "https://x.org"); ("a", "b")].
Proof. vm_compute. reflexivity. Qed.

(** *** Heading levels *)

Lemma startswith_hash a s : startswith (String a s) "#" = Ascii.eqb a "#".
Proof.
  unfold startswith. cbn [String.prefix].
  destruct (ascii_dec "#" a) as [<-|Hne].
  - rewrite Ascii.eqb_refl. now destruct s.
  - symmetry. apply Ascii.eqb_neq. congruence.
Qed.

Lemma length_lstrip c s : String.length (lstrip c s) <= String.length s.
Proof.
  induction s as [|a s IH]; simpl; [lia|].
  destruct (Ascii.eqb a c); simpl; lia.
Qed.

Lemma length_append s t :
  String.length (String.append s t) = String.length s + String.length t.
Proof.
  induction s as [|a s IH]; [reflexivity|].
  rewrite append_String. simpl. now rewrite IH.
Qed.

Lemma lstrip_hashes n rest :
  startswith rest "#" = false ->
  lstrip "#" (String.append (repeat_char n "#") rest) = rest.
Proof.
  intros H. induction n as [|n IH].
  - rewrite append_empty_l. destruct rest as [|a rest]; [reflexivity|].
    rewrite startswith_hash in H. simpl. now rewrite H.
  - simpl repeat_char. rewrite append_String. simpl. exact IH.
Qed.

Lemma length_repeat_char n c : String.length (repeat_char n c) = n.
Proof. induction n as [|n IH]; simpl; [reflexivity | now rewrite IH]. Qed.

(** X15.  The level of a heading is the number of [#] characters the line
    begins with, however many they are and whatever follows them (a space is
    not required), and a line is taken for a heading exactly when that
    number is at least one. *)
Theorem heading_level_counts_hashes :
  (forall n rest, startswith rest "#" = false ->
     heading_level (String.append (repeat_char n "#") rest) = n) /\
  (forall line, startswith line "#" = true <-> 1 <= heading_level line).
Proof.
  split.
  - intros n rest H. unfold heading_level.
    rewrite lstrip_hashes by exact H.
    rewrite length_append, length_repeat_char. lia.
  - intros line. unfold heading_level. destruct line as [|a s].
    + simpl. split; [discriminate | lia].
    + rewrite startswith_hash. simpl. destruct (Ascii.eqb a "#").
      * pose proof (length_lstrip "#" s). split; [lia | reflexivity].
      * simpl. split; [discriminate | lia].
Qed.

(** *** When a file passes *)

Lemma count_h1_lines lines : forall start,
  count_h1 (collect_headings (enumerate lines start)) =
  length (List.filter (fun l => startswith l "#" && (heading_level l =? 1)) lines).
Proof.
  unfold count_h1.
  induction lines as [|line lines IH]; intros start; simpl; [reflexivity|].
  destruct (startswith line "#"); simpl; [|apply IH].
  destruct (heading_level line =? 1); simpl; now rewrite IH.
Qed.

Lemma check_heading_structure_result f content st :
  fst (check_heading_structure f content st) = (h1_lines content =? 1).
Proof.
  unfold check_heading_structure, h1_lines.
  rewrite count_h1_lines.
  destruct (_ =? 1); reflexivity.
Qed.

(** X16.  For a file that can be read, [lint_file] returns unless the
    lookup of a link target raises, and then the file passes exactly when it
    has one line with a single leading [#], an even number of fence lines,
    no broken internal link, and a newline at its end.  Nothing else matters
    to the result: jumps in the heading hierarchy, fences without a language,
    generic link texts and asterisk bullets only ever add warnings.  When
    the lookup of a link target raises, so does [lint_file]. *)
Theorem lint_file_passes_iff fs f content st
  (Hread : read_file fs f = Some content) :
  fst (lint_file fs f st) =
    if existsb (lookup_raises fs) (findall_links content)
    then Raise OtherException
    else Ret ((h1_lines content =? 1)
              && Nat.even (fence_lines content)
              && forallb (fun l => negb (broken fs l)) (findall_links content)
              && endswith content (String newline EmptyString)).
Proof.
  unfold lint_file. rewrite Hread.
  set (st0 := announce f st).
  pose proof (check_heading_structure_result f content st0) as H1.
  destruct (check_heading_structure f content st0) as [ok1 st1].
  destruct (code_blocks_parity f content st1) as [H2 _].
  destruct (check_code_blocks f content st1) as [ok2 st2].
  destruct (check_each_link_spec fs f (findall_links content) true st2) as [H3 _].
  fold (check_links fs f content st2) in H3.
  destruct (check_links fs f content st2) as [r3 st3]. cbn [fst] in H3. subst r3.
  destruct (existsb (lookup_raises fs) (findall_links content)); [reflexivity|].
  assert (H4 : fst (check_line_endings f content st3) =
               endswith content (String newline EmptyString)).
  { unfold check_line_endings. now destruct (endswith _ _). }
  destruct (check_line_endings f content st3) as [ok4 st4].
  unfold check_list_formatting. simpl in *. subst.
  destruct (h1_lines content =? 1), (Nat.even (fence_lines content)),
    (forallb _ _), (endswith _ _); reflexivity.
Qed.

Lemma lint_file_passes_iff_witness :
  fst (lint_file two_pages "docs/b.md" init) =
    if existsb (lookup_raises two_pages) (findall_links (unlines ["# B"; ""]))
    then Raise OtherException
    else Ret ((h1_lines (unlines ["# B"; ""]) =? 1)
              && Nat.even (fence_lines (unlines ["# B"; ""]))
              && forallb (fun l => negb (broken two_pages l))
                         (findall_links (unlines ["# B"; ""]))
              && endswith (unlines ["# B"; ""]) (String newline EmptyString)).
Proof.
  apply (lint_file_passes_iff two_pages "docs/b.md" (unlines ["# B"; ""]) init).
  reflexivity.
Defined.

(** *** The report only grows *)

Lemma recorded_refl fl st : recorded_for fl st st.
Proof. exists [], []. rewrite !app_nil_r. repeat split; constructor. Qed.

Lemma recorded_trans fl st1 st2 st3 :
  recorded_for fl st1 st2 -> recorded_for fl st2 st3 -> recorded_for fl st1 st3.
Proof.
  intros (e1 & w1 & He1 & Hw1 & Fe1 & Fw1) (e2 & w2 & He2 & Hw2 & Fe2 & Fw2).
  exists (e1 ++ e2), (w1 ++ w2).
  rewrite He2, He1, Hw2, Hw1, !app_assoc.
  repeat split; apply List.Forall_app; split; assumption.
Qed.

Lemma recorded_mono fl fl' st st' :
  (forall f, In f fl -> In f fl') -> recorded_for fl st st' -> recorded_for fl' st st'.
Proof.
  intros Hsub (e & w & He & Hw & Fe & Fw). exists e, w.
  repeat split; try assumption;
    eapply List.Forall_impl; try eassumption; intros a; apply Hsub.
Qed.

Lemma recorded_add_error f m st : recorded_for [f] st (add_error f m st).
Proof.
  exists [(f, m)], []. simpl. rewrite app_nil_r.
  repeat split; repeat constructor.
Qed.

Lemma recorded_add_warning f m st : recorded_for [f] st (add_warning f m st).
Proof.
  exists [], [(f, m)]. simpl. rewrite app_nil_r.
  repeat split; repeat constructor.
Qed.

Lemma recorded_announce f st : recorded_for [f] st (announce f st).
Proof. exists [], []. simpl. rewrite !app_nil_r. repeat split; constructor. Qed.

Lemma recorded_check_hierarchy f rest : forall prev st,
  recorded_for [f] st (check_hierarchy f prev rest st).
Proof.
  induction rest as [|[[level text] line_num] rest IH]; intros prev st; simpl.
  - apply recorded_refl.
  - destruct (prev + 1 <? level); [|apply IH].
    eapply recorded_trans; [apply recorded_add_warning | apply IH].
Qed.

Lemma recorded_scan_fences f lines : forall b st,
  recorded_for [f] st (snd (scan_fences f lines b st)).
Proof.
  induction lines as [|[i line] lines IH]; intros b st; simpl.
  - apply recorded_refl.
  - destruct (startswith line fence); [|apply IH].
    destruct b; simpl; [apply IH|].
    destruct (_ && _); [|apply IH].
    eapply recorded_trans; [apply recorded_add_warning | apply IH].
Qed.

Lemma recorded_check_each_link fs f links : forall success st,
  recorded_for [f] st (snd (check_each_link fs f links success st)).
Proof.
  induction links as [|[text url] links IH]; intros success st.
  - apply recorded_refl.
  - cbn [check_each_link].
    set (st1 := if existsb (String.eqb (lower text)) generic_link_texts
                then add_warning f (NonDescriptiveLink text) st else st).
    assert (H1 : recorded_for [f] st st1).
    { subst st1. destruct (existsb _ _);
        [apply recorded_add_warning | apply recorded_refl]. }
    clearbody st1.
    destruct (_ && _); [|eapply recorded_trans; [exact H1 | apply IH] ].
    destruct (link_target_exists fs url) as [[]|]; cbn [negb snd].
    + eapply recorded_trans; [exact H1 | apply IH].
    + eapply recorded_trans; [exact H1|].
      eapply recorded_trans; [apply recorded_add_error | apply IH].
    + exact H1.
Qed.

Lemma recorded_scan_bullets f lines : forall st,
  recorded_for [f] st (scan_bullets f lines st).
Proof.
  induction lines as [|[i line] lines IH]; intros st; simpl.
  - apply recorded_refl.
  - destruct (asterisk_bullet line); [|apply IH].
    eapply recorded_trans; [apply recorded_add_warning | apply IH].
Qed.

Lemma recorded_lint_file fs f st : recorded_for [f] st (snd (lint_file fs f st)).
Proof.
  unfold lint_file.
  eapply recorded_trans; [apply (recorded_announce f)|].
  set (st0 := announce f st). clearbody st0.
  destruct (read_file fs f) as [content|]; [|apply recorded_add_error].
  assert (H1 : recorded_for [f] st0 (snd (check_heading_structure f content st0))).
  { unfold check_heading_structure.
    destruct (negb _); simpl;
      destruct (collect_headings _) as [|[[level text] i] rest];
      try apply recorded_refl; try apply recorded_add_error;
      try apply recorded_check_hierarchy.
    eapply recorded_trans; [apply recorded_add_error | apply recorded_check_hierarchy]. }
  destruct (check_heading_structure f content st0) as [ok1 st1].
  assert (H2 : recorded_for [f] st1 (snd (check_code_blocks f content st1))).
  { unfold check_code_blocks.
    pose proof (recorded_scan_fences f (enumerate (split_lines content) 1) false st1) as H.
    destruct (scan_fences _ _ _ _) as [[] st']; simpl in *; [|exact H].
    eapply recorded_trans; [exact H | apply recorded_add_error]. }
  destruct (check_code_blocks f content st1) as [ok2 st2].
  pose proof (recorded_check_each_link fs f (findall_links content) true st2) as H3.
  fold (check_links fs f content st2) in H3.
  destruct (check_links fs f content st2) as [[ok3|e] st3].
  2: { simpl in *. eapply recorded_trans; [exact H1|].
       eapply recorded_trans; [exact H2 | exact H3]. }
  assert (H4 : recorded_for [f] st3 (snd (check_line_endings f content st3))).
  { unfold check_line_endings.
    destruct (negb _); [apply recorded_add_error | apply recorded_refl]. }
  destruct (check_line_endings f content st3) as [ok4 st4].
  pose proof (recorded_scan_bullets f (enumerate (split_lines content) 1) st4) as H5.
  unfold check_list_formatting. simpl in *.
  eapply recorded_trans; [exact H1|].
  eapply recorded_trans; [exact H2|].
  eapply recorded_trans; [exact H3|].
  eapply recorded_trans; [exact H4 | exact H5].
Qed.

Lemma recorded_lint_each fs md_files : forall success st,
  recorded_for md_files st (snd (lint_each fs md_files success st)).
Proof.
  induction md_files as [|f rest IH]; intros success st.
  - apply recorded_refl.
  - cbn [lint_each].
    pose proof (recorded_lint_file fs f st) as Hf.
    destruct (lint_file fs f st) as [[ok|e] st1]; simpl in Hf.
    + eapply recorded_trans.
      * eapply recorded_mono; [|exact Hf]. intros g [<-|[]]. now left.
      * eapply recorded_mono; [|apply IH]. intros g Hg. now right.
    + eapply recorded_mono; [|exact Hf]. intros g [<-|[]]. now left.
Qed.

(** X17.  A run of the linter never drops or changes what the report held
    before: errors and warnings are only appended to, and every entry the
    run adds is about one of the files it was given.  This holds as well of
    the report a run leaves behind when an exception ends it. *)
Theorem lint_run_appends_entries_of_its_files fs md_files st :
  recorded_for md_files st (snd (lint_all_files fs md_files st)).
Proof.
  unfold lint_all_files. destruct md_files as [|f rest].
  - apply recorded_refl.
  - apply recorded_lint_each.
Qed.

End LinterFacts.

(** ** The uploader: traces *)

Section UploaderTraces.
Import Uploader.

Lemma count_app p t1 t2 : count p (t1 ++ t2) = count p t1 + count p t2.
Proof. unfold count. rewrite List.filter_app, length_app. reflexivity. Qed.

Lemma after_nil w : after w [] = w.
Proof. destruct w. unfold after. simpl. rewrite app_nil_r. reflexivity. Qed.

Lemma after_after w t1 t2 : after (after w t1) t2 = after w (t1 ++ t2).
Proof. unfold after. simpl. rewrite app_assoc. reflexivity. Qed.

Lemma emit_after e w : emit e w = (Ret tt, after w [e]).
Proof. reflexivity. Qed.

(** *** The poller *)

(** [kind_of] reads the two literals and nothing else. *)
Lemma kind_of_completed r :
  kind_of r = Completed <->
  exists d, r = GetHttp 200 (JsonObject d) /\ d !! "status" = Some (JStr "completed").
Proof.
  split.
  - destruct r as [code [| |d]| |]; simpl; try discriminate;
      destruct (Z.eqb_spec code 200) as [->|]; try discriminate.
    destruct (d !! "status") as [[label|]|] eqn:E; try discriminate.
    destruct (String.eqb_spec label "completed") as [->|]; [eauto|].
    destruct (String.eqb label "failed"); discriminate.
  - intros (d & -> & E). simpl. rewrite E. reflexivity.
Qed.

Lemma kind_of_failed r :
  kind_of r = Failed <->
  exists d, r = GetHttp 200 (JsonObject d) /\ d !! "status" = Some (JStr "failed").
Proof.
  split.
  - destruct r as [code [| |d]| |]; simpl; try discriminate;
      destruct (Z.eqb_spec code 200) as [->|]; try discriminate.
    destruct (d !! "status") as [[label|]|] eqn:E; try discriminate.
    destruct (String.eqb label "completed"); [discriminate|].
    destruct (String.eqb_spec label "failed") as [->|]; [eauto|discriminate].
  - intros (d & -> & E). simpl. rewrite E. reflexivity.
Qed.

Lemma kind_of_not_wait r : kind_of r <> InterruptedWait.
Proof.
  destruct r as [code [| |d]| |]; simpl; try discriminate;
    destruct (Z.eqb code 200); try discriminate.
  destruct (d !! "status") as [[label|]|]; try discriminate.
  destruct (String.eqb label "completed"); [discriminate|].
  destruct (String.eqb label "failed"); discriminate.
Qed.

(** A turn is decided by its reply, unless the reply is a reason to wait:
    then it is a retry when the wait ends and an interruption otherwise. *)
Lemma turn_kind_reply o n k :
  k <> Retry -> k <> InterruptedWait ->
  turn_kind o n = k <-> kind_of (get_reply o n) = k.
Proof.
  intros H1 H2. unfold turn_kind.
  destruct (kind_of (get_reply o n)); try tauto.
  destruct (sleep_interrupted o n); split; congruence.
Qed.

Lemma turn_kind_retry o n :
  turn_kind o n = Retry <->
  kind_of (get_reply o n) = Retry /\ sleep_interrupted o n = false.
Proof.
  unfold turn_kind.
  destruct (kind_of (get_reply o n)), (sleep_interrupted o n); split;
    intros H; try discriminate; try (destruct H; discriminate); auto.
Qed.

Lemma turn_kind_wait o n :
  turn_kind o n = InterruptedWait <->
  kind_of (get_reply o n) = Retry /\ sleep_interrupted o n = true.
Proof.
  unfold turn_kind. pose proof (kind_of_not_wait (get_reply o n)) as Hk.
  destruct (kind_of (get_reply o n)), (sleep_interrupted o n); split;
    intros H; try discriminate; try (destruct H; discriminate); auto;
    contradiction.
Qed.

Lemma turn_kind_completed o n :
  turn_kind o n = Completed <->
  exists d, get_reply o n = GetHttp 200 (JsonObject d) /\
            d !! "status" = Some (JStr "completed").
Proof. rewrite turn_kind_reply by discriminate. apply kind_of_completed. Qed.

Lemma turn_kind_failed o n :
  turn_kind o n = Failed <->
  exists d, get_reply o n = GetHttp 200 (JsonObject d) /\
            d !! "status" = Some (JStr "failed").
Proof. rewrite turn_kind_reply by discriminate. apply kind_of_failed. Qed.

Lemma first_decisive_Some o remaining attempt n k :
  first_decisive o remaining attempt = Some (n, k) ->
  attempt <= n < attempt + remaining /\
  turn_kind o n = k /\ k <> Retry /\
  forall m, attempt <= m < n -> turn_kind o m = Retry.
Proof.
  revert attempt. induction remaining as [|r IH]; intros a; simpl; [discriminate|].
  destruct (turn_kind o a) eqn:E; intros H;
    try (injection H as <- <-; repeat split; [lia | lia | exact E | discriminate | intros; lia]).
  apply IH in H as (Hn & Hk & Hne & Hm).
  repeat split; [lia | lia | exact Hk | exact Hne |].
  intros m Hlt. destruct (Nat.eq_dec m a) as [->|]; [exact E | apply Hm; lia].
Qed.

Lemma first_decisive_None o remaining attempt :
  first_decisive o remaining attempt = None <->
  forall m, attempt <= m < attempt + remaining -> turn_kind o m = Retry.
Proof.
  revert attempt. induction remaining as [|r IH]; intros a; simpl.
  - split; [intros _ m; lia | reflexivity].
  - split.
    + destruct (turn_kind o a) eqn:E; try discriminate.
      intros H m Hm. destruct (Nat.eq_dec m a) as [->|]; [exact E|].
      apply (proj1 (IH _) H). lia.
    + intros H. rewrite (H a) by lia. apply IH. intros m Hm. apply H. lia.
Qed.

Lemma loop_outcome_retry o rem a pre r new :
  quiet_turn pre ->
  loop_outcome (a + 1) rem (first_decisive o rem (a + 1)) r new ->
  loop_outcome a (S rem) (first_decisive o rem (a + 1)) r (pre ++ new).
Proof.
  intros (G & S & P & T & Co & F) (HP & H).
  unfold loop_outcome. rewrite forallb_app, !count_app, G, S, P, T, Co, F, HP.
  split; [reflexivity|].
  destruct (first_decisive o rem (a + 1)) as [[n k]|] eqn:E.
  - apply first_decisive_Some in E as (Hn & _).
    destruct H as (-> & -> & -> & H).
    do 3 (split; [simpl; lia|]).
    destruct k; destruct H as (-> & -> & ->); repeat split.
  - destruct H as (-> & -> & -> & -> & -> & ->). repeat split.
Qed.

Lemma world_after w t :
  {| w_archive := w_archive w; w_trace := w_trace w ++ t |} = after w t.
Proof. reflexivity. Qed.

(** Run the straight-line part of a computation. *)
Ltac run_py :=
  cbv [bind try_except try_with http_get http_post json_object emit print sleep
       print_if_present when ret raise is_Exception fst snd jval_is existsb
       default from_option id get_archive set_archive package_exists negb];
  cbn [w_archive w_trace];
  rewrite <- ?app_assoc; cbn [app]; rewrite ?world_after, ?after_after; cbn [app].

Lemma monitor_loop_outcome o remaining attempt w :
  exists r new,
    monitor_loop o remaining attempt w = (r, after w new) /\
    loop_outcome attempt remaining (first_decisive o remaining attempt) r new.
Proof.
  revert attempt w. induction remaining as [|rem IH]; intros a w.
  - exists (Ret false), [EvPrint MMonitoringTimedOut]. split; [reflexivity|].
    repeat split.
  - cbn [monitor_loop first_decisive].
    assert (Hretry : forall pre,
               quiet_turn pre ->
               exists r new,
                 monitor_loop o rem (a + 1) (after w pre) = (r, after w new) /\
                 loop_outcome a (S rem) (first_decisive o rem (a + 1)) r new).
    { intros pre Hpre. destruct (IH (a + 1) (after w pre)) as (r & new & Hrun & Hout).
      exists r, (pre ++ new). rewrite Hrun, after_after. split; [reflexivity|].
      now apply loop_outcome_retry. }
    unfold turn_kind.
    destruct (get_reply o a) as [code [| |d]| |] eqn:E; cbn [kind_of];
      run_py; rewrite E;
      repeat first
        [ progress run_py
        | match goal with
          | |- context [match ?d !! ?k with _ => _ end] =>
              destruct (d !! k) as [[?|]|] eqn:?
          | |- context [if ?c then _ else _] => destruct c eqn:?
          end ].
    all: try match goal with
             | H : (_ =? _)%string = _ |- _ => cbv in H; discriminate H
             | H : (_ || _) = _ |- _ => cbv in H; discriminate H
             end.
    all: try (apply Hretry; repeat split).
    all: eexists _, _; (split; [reflexivity|]);
      unfold loop_outcome, count; cbn; repeat split; first [reflexivity | lia].
Qed.

Lemma first_decisive_intro o remaining attempt n k :
  attempt <= n < attempt + remaining ->
  turn_kind o n = k -> k <> Retry ->
  (forall m, attempt <= m < n -> turn_kind o m = Retry) ->
  first_decisive o remaining attempt = Some (n, k).
Proof.
  intros Hn Hk Hne Hm.
  destruct (first_decisive o remaining attempt) as [[n' k']|] eqn:E.
  - apply first_decisive_Some in E as (Hn' & Hk' & Hne' & Hm').
    destruct (Nat.lt_trichotomy n n') as [Hlt|[->|Hgt]].
    + rewrite Hm' in Hk by lia. congruence.
    + congruence.
    + rewrite Hm in Hk' by lia. congruence.
  - rewrite first_decisive_None in E. rewrite E in Hk by lia. congruence.
Qed.

Lemma monitor_processing_outcome o self upload_id w :
  exists r new,
    monitor_processing o self upload_id w = (r, after w new) /\
    loop_outcome 0 max_attempts (first_decisive o max_attempts 0) r new.
Proof.
  unfold monitor_processing. run_py.
  destruct (monitor_loop_outcome o max_attempts 0 (after w [EvPrint MMonitoring]))
    as (r & new & Hrun & Hout).
  exists r, (EvPrint MMonitoring :: new).
  change (max_attempts - 0) with max_attempts.
  rewrite Hrun, after_after. split; [reflexivity|].
  destruct Hout as (HP & H). unfold loop_outcome.
  change (EvPrint MMonitoring :: new) with ([EvPrint MMonitoring] ++ new).
  rewrite forallb_app, !count_app, HP. split; [reflexivity|].
  destruct (first_decisive o max_attempts 0) as [[n k]|].
  - destruct H as (-> & -> & -> & H). do 3 (split; [reflexivity|]).
    destruct k; destruct H as (-> & -> & ->); repeat split.
  - destruct H as (-> & -> & -> & -> & -> & ->). repeat split.
Qed.

(** C3.  Whatever the status endpoint replies, the poller returns [True]
    exactly when, within its 30 queries, the first reply that is not a
    reason to go round again is an HTTP 200 whose label is the literal
    "completed"; it reports "Processing failed" exactly when that reply
    carries the literal "failed", and then returns [False]; and when none
    of the 30 replies is decisive it returns [False] with the time-out
    message, after exactly 30 queries and 30 waits, without ever reporting
    completion.  A turn "goes round again" ([turn_kind] is [Retry]) when its
    reply decides nothing and the wait that follows is not interrupted. *)
Theorem poller_decides_on_literals o self upload_id w :
  exists r new,
    monitor_processing o self upload_id w = (r, after w new) /\
    (r = Ret true <->
     exists n d, n < 30 /\ get_reply o n = GetHttp 200 (JsonObject d) /\
                 d !! "status" = Some (JStr "completed") /\
                 forall m, m < n -> turn_kind o m = Retry) /\
    (r = Ret true -> count says_completed new = 1) /\
    (count says_failed new = 1 <->
     exists n d, n < 30 /\ get_reply o n = GetHttp 200 (JsonObject d) /\
                 d !! "status" = Some (JStr "failed") /\
                 forall m, m < n -> turn_kind o m = Retry) /\
    (count says_failed new = 1 -> r = Ret false) /\
    (count says_timed_out new = 1 <->
     forall n, n < 30 -> turn_kind o n = Retry) /\
    (count says_timed_out new = 1 ->
     r = Ret false /\ count is_get new = 30 /\ count is_sleep new = 30 /\
     count says_completed new = 0 /\ count says_failed new = 0).
Proof.
  destruct (monitor_processing_outcome o self upload_id w) as (r & new & Hrun & Hout).
  exists r, new. split; [exact Hrun|].
  destruct Hout as (_ & H).
  assert (Hsome : forall n k, first_decisive o max_attempts 0 = Some (n, k) <->
            n < 30 /\ turn_kind o n = k /\ k <> Retry /\
            forall m, m < n -> turn_kind o m = Retry).
  { intros n k. split.
    - intros E. apply first_decisive_Some in E as (Hn & Hk & Hne & Hm).
      unfold max_attempts in Hn.
      repeat split; [lia | exact Hk | exact Hne | intros; apply Hm; lia].
    - intros (Hn & Hk & Hne & Hm).
      apply first_decisive_intro; try assumption; [unfold max_attempts; lia|].
      intros; apply Hm; lia. }
  assert (Hnone : first_decisive o max_attempts 0 = None <->
            forall n, n < 30 -> turn_kind o n = Retry).
  { rewrite first_decisive_None. unfold max_attempts.
    split; intros Hn n ?; apply Hn; lia. }
  assert (Hc : (exists n d, n < 30 /\ get_reply o n = GetHttp 200 (JsonObject d) /\
                 d !! "status" = Some (JStr "completed") /\
                 forall m, m < n -> turn_kind o m = Retry) <->
               exists n, first_decisive o max_attempts 0 = Some (n, Completed)).
  { split.
    - intros (n & d & Hn & Hr & Hd & Hm). exists n. apply Hsome.
      repeat split; [exact Hn | apply turn_kind_completed; eauto | discriminate | exact Hm].
    - intros (n & E). apply Hsome in E as (Hn & Hk & _ & Hm).
      apply turn_kind_completed in Hk as (d & Hr & Hd). eauto 10. }
  assert (Hf : (exists n d, n < 30 /\ get_reply o n = GetHttp 200 (JsonObject d) /\
                 d !! "status" = Some (JStr "failed") /\
                 forall m, m < n -> turn_kind o m = Retry) <->
               exists n, first_decisive o max_attempts 0 = Some (n, Failed)).
  { split.
    - intros (n & d & Hn & Hr & Hd & Hm). exists n. apply Hsome.
      repeat split; [exact Hn | apply turn_kind_failed; eauto | discriminate | exact Hm].
    - intros (n & E). apply Hsome in E as (Hn & Hk & _ & Hm).
      apply turn_kind_failed in Hk as (d & Hr & Hd). eauto 10. }
  rewrite Hc, Hf, <- Hnone. clear Hc Hf Hnone Hsome.
  destruct (first_decisive o max_attempts 0) as [[n k]|].
  - destruct H as (Hg & Hs & Ht & H).
    destruct k; destruct H as (-> & Hco & Hfa); rewrite ?Hco, ?Hfa, ?Ht;
      repeat split; try discriminate; try congruence; eauto;
      try (intros (? & ?); congruence).
  - destruct H as (-> & Hg & Hs & Ht & Hco & Hfa). rewrite Hco, Hfa, Ht.
    repeat split; try discriminate; try congruence; eauto;
      try (intros (? & ?); congruence).
Qed.

Lemma monitor_loop_processing o rem a w d :
  get_reply o a = GetHttp 200 (JsonObject d) ->
  d !! "status" = Some (JStr "processing") ->
  sleep_interrupted o a = false ->
  monitor_loop o (S rem) a w =
  monitor_loop o rem (a + 1) (after w (processing_turn a)).
Proof.
  intros R S W. cbn [monitor_loop]. run_py. rewrite R. run_py. rewrite S.
  simpl. run_py. rewrite W. run_py. reflexivity.
Qed.

Lemma monitor_loop_completed o rem a w d url :
  get_reply o a = GetHttp 200 (JsonObject d) ->
  d !! "status" = Some (JStr "completed") ->
  d !! "publication_url" = Some url ->
  monitor_loop o (S rem) a w =
  (Ret true,
   after w [EvGet a; EvPrint (MProcessingStatus (JStr "completed"));
            EvPrint MProcessingCompleted; EvPrint (MPublishedAt url)]).
Proof.
  intros R S U. cbn [monitor_loop]. run_py. rewrite R. run_py. rewrite S.
  simpl. rewrite U. run_py. reflexivity.
Qed.

(** C4.  When the first five replies are HTTP 200 with the label
    "processing" and the sixth is HTTP 200 with the label "completed" and a
    publication URL, and none of the five waits is interrupted, the poller
    returns [True]; its events are exactly: five
    times a query, the status line and a wait of 10 seconds, then the sixth
    query, the status line, the completion message and the URL.  That is 6
    queries and 5 waits, none of them after the terminal reply. *)
Theorem poller_processing_then_completed o self upload_id w d url
  (Hprocessing : forall n, n < 5 ->
     exists dn, get_reply o n = GetHttp 200 (JsonObject dn) /\
                dn !! "status" = Some (JStr "processing"))
  (Hwaits : forall n, n < 5 -> sleep_interrupted o n = false)
  (Hsixth : get_reply o 5 = GetHttp 200 (JsonObject d))
  (Hcompleted : d !! "status" = Some (JStr "completed"))
  (Hurl : d !! "publication_url" = Some url) :
  let new :=
    EvPrint MMonitoring ::
    flat_map processing_turn [0; 1; 2; 3; 4] ++
    [EvGet 5; EvPrint (MProcessingStatus (JStr "completed"));
     EvPrint MProcessingCompleted; EvPrint (MPublishedAt url)] in
  monitor_processing o self upload_id w = (Ret true, after w new) /\
  count is_get new = 6 /\ count is_sleep new = 5.
Proof.
  intros new. split; [|split; reflexivity].
  destruct (Hprocessing 0) as (d0 & R0 & S0); [lia|].
  destruct (Hprocessing 1) as (d1 & R1 & S1); [lia|].
  destruct (Hprocessing 2) as (d2 & R2 & S2); [lia|].
  destruct (Hprocessing 3) as (d3 & R3 & S3); [lia|].
  destruct (Hprocessing 4) as (d4 & R4 & S4); [lia|].
  unfold monitor_processing. run_py.
  change (max_attempts - 0) with (S (S (S (S (S (S 24)))))).
  rewrite (monitor_loop_processing o _ 0 _ d0 R0 S0 (Hwaits 0 ltac:(lia))), after_after.
  rewrite (monitor_loop_processing o _ 1 _ d1 R1 S1 (Hwaits 1 ltac:(lia))), after_after.
  rewrite (monitor_loop_processing o _ 2 _ d2 R2 S2 (Hwaits 2 ltac:(lia))), after_after.
  rewrite (monitor_loop_processing o _ 3 _ d3 R3 S3 (Hwaits 3 ltac:(lia))), after_after.
  rewrite (monitor_loop_processing o _ 4 _ d4 R4 S4 (Hwaits 4 ltac:(lia))), after_after.
  rewrite (monitor_loop_completed o _ 5 _ d url Hsixth Hcompleted Hurl), after_after.
  reflexivity.
Qed.

Lemma poller_processing_then_completed_witness :
  monitor_processing scenario_d some_uploader (JStr "7") fresh_world =
    (Ret true,
     after fresh_world
       (EvPrint MMonitoring ::
        flat_map processing_turn [0; 1; 2; 3; 4] ++
        [EvGet 5; EvPrint (MProcessingStatus (JStr "completed"));
         EvPrint MProcessingCompleted;
         EvPrint (MPublishedAt (JStr "https://docs.example/pub/7"))])) /\
  count is_get
    (EvPrint MMonitoring ::
     flat_map processing_turn [0; 1; 2; 3; 4] ++
     [EvGet 5; EvPrint (MProcessingStatus (JStr "completed"));
      EvPrint MProcessingCompleted;
      EvPrint (MPublishedAt (JStr "https://docs.example/pub/7"))]) = 6 /\
  count is_sleep
    (EvPrint MMonitoring ::
     flat_map processing_turn [0; 1; 2; 3; 4] ++
     [EvGet 5; EvPrint (MProcessingStatus (JStr "completed"));
      EvPrint MProcessingCompleted;
      EvPrint (MPublishedAt (JStr "https://docs.example/pub/7"))]) = 5.
Proof.
  apply (poller_processing_then_completed scenario_d some_uploader (JStr "7")
           fresh_world
           (<["publication_url" := JStr "https://docs.example/pub/7"]>
              (status_object "completed"))
           (JStr "https://docs.example/pub/7")).
  - intros n Hn. exists (status_object "processing").
    destruct n as [|[|[|[|[|n]]]]]; try (split; reflexivity). lia.
  - reflexivity.
  - reflexivity.
  - reflexivity.
  - reflexivity.
Defined.

(** *** upload_package *)

Lemma reported_outcomes_app t1 t2 :
  reported_outcomes (t1 ++ t2) = reported_outcomes t1 ++ reported_outcomes t2.
Proof.
  induction t1 as [|e t1 IH]; simpl; [reflexivity|].
  destruct (outcome_message e); simpl; rewrite IH; reflexivity.
Qed.

Lemma poller_events_quiet t :
  forallb poller_event t = true ->
  reported_outcomes t = [] /\ count is_post t = 0 /\ count is_cleanup t = 0 /\
  count is_zip t = 0 /\ count is_cleaning t = 0.
Proof.
  induction t as [|e t IH]; simpl; [repeat split|].
  intros H. apply andb_true_iff in H as [He Ht].
  destruct (IH Ht) as (R & P & C & Z & K).
  unfold count in *. simpl.
  destruct e as [| | | | | | | | |[]]; try discriminate He; simpl; auto.
Qed.

(** C5, as stated, fails: a reply with status 200 is not always reported
    as a success. *)
Lemma upload_status_200_counterexample :
  ~ (forall o self w code body,
        w_archive w <> None -> post_reply o = PostHttp code body ->
        exists r new,
          upload_package o self w = (r, after w new) /\
          reported_outcomes new = [outcome_of_status code]).
Proof.
  intros H.
  destruct (H html_reply some_uploader packaged_world 200%Z BadJson)
    as (r & new & Hrun & Hout); [discriminate | reflexivity |].
  vm_compute in Hrun. injection Hrun as _ <-. discriminate Hout.
Qed.

(** C5 (amended).  With the package on disk, [upload_package] posts exactly
    once, and what it reports is a function of the status code and the body
    of the reply: 401 is an authentication failure, 413 a too large payload,
    any other code but 200 a server error with that code, all three without
    polling and with result [False]; 200 is a success when the body is a
    JSON object (and then the result is [True] unless an upload id sends the
    uploader polling), a success followed by a failure when the body is some
    other JSON value, and a plain failure when the body is not JSON. *)
Theorem upload_outcome_of_response o self w code body
  (Hpackage : w_archive w <> None)
  (Hreply : post_reply o = PostHttp code body) :
  exists r new,
    upload_package o self w = (r, after w new) /\
    count is_post new = 1 /\
    reported_outcomes new =
      (if Z.eqb code 200 then
         match body with
         | JsonObject _ => [Success]
         | JsonNonObject => [Success; UnclassifiedFailure]
         | BadJson => [UnclassifiedFailure]
         end
       else [outcome_of_status code]) /\
    (code <> 200%Z -> r = Ret false /\ count is_get new = 0) /\
    (r = Ret true -> code = 200%Z /\ exists d, body = JsonObject d) /\
    (forall d, code = 200%Z -> body = JsonObject d ->
               d !! "upload_id" = None -> r = Ret true /\ count is_get new = 0).
Proof.
  unfold upload_package. run_py.
  destruct (w_archive w) as [z|] eqn:Hz; [clear Hpackage | congruence].
  run_py. rewrite Hreply. run_py. unfold outcome_of_status.
  destruct (Z.eqb_spec code 200) as [->|Hne].
  - destruct body as [| |d]; run_py.
    + eexists _, _. split; [reflexivity|]. repeat split; try congruence; try discriminate.
    + eexists _, _. split; [reflexivity|]. repeat split; try congruence; try discriminate.
    + destruct (d !! "upload_id") as [upload_id|] eqn:Hid.
      * match goal with |- context [monitor_processing o self upload_id ?w0] =>
          destruct (monitor_processing_outcome o self upload_id w0)
            as (r & new & Hrun & HP & H)
        end.
        rewrite Hrun, after_after.
        destruct (poller_events_quiet _ HP) as (R & P & _ & _).
        assert (Hr : r = Ret true \/ r = Ret false \/ r = Raise KeyboardInterrupt).
        { destruct (first_decisive o max_attempts 0) as [[n []]|];
            intuition (subst; auto). }
        destruct Hr as [-> | [-> | ->] ];
          (eexists _, _; split; [reflexivity|]);
          rewrite count_app, reported_outcomes_app, R, P;
          (repeat split; eauto; try congruence; try discriminate);
          intros d0 _ Ed; injection Ed as <-; congruence.
      * eexists _, _. split; [reflexivity|]. repeat split; eauto; congruence.
  - destruct (Z.eqb_spec code 401) as [->|Hne1];
      [|destruct (Z.eqb_spec code 413) as [->|Hne2]];
      run_py; (eexists _, _; split; [reflexivity|]);
      repeat split; try congruence; try discriminate.
Qed.

Lemma upload_outcome_of_response_witness :
  exists r new,
    upload_package unauthorized some_uploader packaged_world =
      (r, after packaged_world new) /\
    count is_post new = 1 /\
    reported_outcomes new = [AuthFailure] /\
    (401%Z <> 200%Z -> r = Ret false /\ count is_get new = 0) /\
    (r = Ret true -> 401%Z = 200%Z /\ exists d, JsonObject ∅ = JsonObject d) /\
    (forall d, 401%Z = 200%Z -> JsonObject ∅ = JsonObject d ->
               d !! "upload_id" = None -> r = Ret true /\ count is_get new = 0).
Proof.
  apply (upload_outcome_of_response unauthorized some_uploader packaged_world
           401%Z (JsonObject ∅)).
  - discriminate.
  - reflexivity.
Defined.

(** ** The uploader: packaging *)

Lemma visible_app p q : visible (p ++ q) = visible p && visible q.
Proof. apply forallb_app. Qed.

Lemma filter_flat_map {A B} (p : B -> bool) (f : A -> list B) (l : list A) :
  List.filter p (flat_map f l) = flat_map (fun a => List.filter p (f a)) l.
Proof.
  induction l as [|a l IH]; simpl; [reflexivity|].
  rewrite List.filter_app, IH. reflexivity.
Qed.

Lemma flat_map_flat_map {A B C} (g : B -> list C) (f : A -> list B) (l : list A) :
  flat_map g (flat_map f l) = flat_map (fun a => flat_map g (f a)) l.
Proof.
  induction l as [|a l IH]; simpl; [reflexivity|].
  rewrite flat_map_app, IH. reflexivity.
Qed.

Lemma flat_map_ext_Forall {A B} (f g : A -> list B) (l : list A) :
  Forall (fun a => f a = g a) l -> flat_map f l = flat_map g l.
Proof. induction 1 as [|a l H _ IH]; simpl; [reflexivity | now rewrite H, IH]. Qed.

(** Below a path that is not visible nothing is visible. *)
Lemma tree_files_hidden top : forall root,
  visible root = false ->
  List.filter (fun t => visible (fst t)) (tree_files root top) = [].
Proof.
  induction top as [name readable|name es IH] using entry_rect'; intros root Hroot.
  - reflexivity.
  - cbn [tree_files]. rewrite List.filter_app, filter_flat_map.
    assert (H1 : List.filter (fun t => visible (fst t))
                   (map (fun fr => (root ++ [fst fr], snd fr)) (filenames es)) = []).
    { induction (filenames es) as [|[f r] l IHl]; simpl; [reflexivity|].
      rewrite visible_app, Hroot. exact IHl. }
    match goal with
    | |- ?a ++ _ = [] => replace a with (@nil (path * bool)) by (symmetry; exact H1)
    end.
    clear H1. simpl.
    induction IH as [|e es He _ IHes]; simpl; [reflexivity|].
    rewrite IHes, app_nil_r. destruct e as [|d ch]; [reflexivity|].
    apply He. rewrite visible_app, Hroot. reflexivity.
Qed.

(** The walk with pruning reaches exactly the visible files of the tree. *)
Lemma walk_targets top : forall root,
  visible root = true ->
  flat_map step_targets (os_walk (fun d => negb (startswith d ".")) root top) =
  List.filter (fun t => visible (fst t)) (tree_files root top).
Proof.
  induction top as [name readable|name es IH] using entry_rect'; intros root Hroot.
  - reflexivity.
  - cbn [os_walk tree_files flat_map].
    rewrite List.filter_app, filter_flat_map, flat_map_flat_map. f_equal.
    + unfold step_targets. cbn [fst snd].
      induction (filenames es) as [|[f r] l IHl]; simpl; [reflexivity|].
      rewrite visible_app, Hroot. simpl. rewrite andb_true_r. unfold shown.
      destruct (negb (startswith f ".")); simpl; rewrite IHl; reflexivity.
    + apply flat_map_ext_Forall.
      induction IH as [|e es He _ IHes]; constructor; [|exact IHes].
      destruct e as [|d ch]; [reflexivity|].
      destruct (negb (startswith d ".")) eqn:Hd.
      * apply He. rewrite visible_app, Hroot. simpl. unfold shown. now rewrite Hd.
      * cbn [flat_map]. symmetry. apply (tree_files_hidden (Dir d ch)).
        rewrite visible_app, Hroot. simpl. unfold shown. now rewrite Hd.
Qed.

Lemma targets_visible_files top :
  targets top = List.filter (fun t => visible (fst t)) (tree_files [] top).
Proof. apply walk_targets. reflexivity. Qed.

Lemma written_nil w z : w_archive w = Some z -> written w z [] = w.
Proof.
  destruct w as [a t], z as [m c]. simpl. intros ->.
  unfold written, extended. simpl. rewrite !app_nil_r. reflexivity.
Qed.

Lemma written_cons w z p ps :
  written (written w z [p]) (extended z [p]) ps = written w z (p :: ps).
Proof.
  unfold written, extended. simpl. rewrite <- !app_assoc. reflexivity.
Qed.

Lemma written_app w z ps qs :
  written (written w z ps) (extended z ps) qs = written w z (ps ++ qs).
Proof.
  unfold written, extended. simpl. rewrite map_app, <- !app_assoc. reflexivity.
Qed.

Lemma add_files_run root files : forall n w z,
  w_archive w = Some z ->
  add_files root files n w =
  ((if all_readable (step_targets (root, files))
    then Ret (n + length (step_targets (root, files)))
    else Raise OtherException),
   written w z (readable_prefix (step_targets (root, files)))).
Proof.
  induction files as [|[file readable] rest IH]; intros n w z Hw.
  - simpl. rewrite Nat.add_0_r, written_nil by assumption. reflexivity.
  - cbn [add_files]. unfold step_targets in *. cbn [fst snd List.filter] in *.
    destruct (startswith file "."); cbn [negb].
    + now apply IH.
    + cbn [map all_readable forallb readable_prefix snd length].
      destruct readable; cbn [andb].
      * unfold zip_write, bind, get_archive, set_archive, emit. rewrite Hw. simpl.
        rewrite (IH (n + 1) _ (extended z [root ++ [file]])) by reflexivity.
        f_equal.
        -- unfold all_readable. destruct (forallb _ _); [f_equal; lia | reflexivity].
        -- rewrite <- written_cons. reflexivity.
      * unfold zip_write, bind, raise. rewrite written_nil by assumption. reflexivity.
Qed.

Lemma readable_prefix_app ts us :
  readable_prefix (ts ++ us) =
  if all_readable ts then readable_prefix ts ++ readable_prefix us
  else readable_prefix ts.
Proof.
  induction ts as [|[p []] ts IH]; simpl; [reflexivity| |reflexivity].
  rewrite IH. unfold all_readable. destruct (forallb snd ts); reflexivity.
Qed.

Lemma add_dirs_run steps : forall n w z,
  w_archive w = Some z ->
  add_dirs steps n w =
  ((if all_readable (flat_map step_targets steps)
    then Ret (n + length (flat_map step_targets steps))
    else Raise OtherException),
   written w z (readable_prefix (flat_map step_targets steps))).
Proof.
  induction steps as [|[root files] rest IH]; intros n w z Hw.
  - simpl. rewrite Nat.add_0_r, written_nil by assumption. reflexivity.
  - cbn [add_dirs flat_map]. unfold bind.
    rewrite (add_files_run root files n w z Hw).
    unfold all_readable in *. rewrite forallb_app, length_app.
    rewrite readable_prefix_app. unfold all_readable.
    destruct (forallb snd (step_targets (root, files))) eqn:Hall; cbn [andb].
    + rewrite (IH _ _ (extended z (readable_prefix (step_targets (root, files)))))
        by reflexivity.
      rewrite written_app. f_equal.
      destruct (forallb _ _); [f_equal; lia | reflexivity].
    + reflexivity.
Qed.

Lemma init_standard o self : init o = Ret self -> standard self.
Proof.
  unfold init. destruct (forallb _ _); [|discriminate].
  intros H. injection H as <-. split; reflexivity.
Qed.

(** What [create_package] does, in full. *)
Lemma create_package_run o self w :
  standard self ->
  create_package o self w =
  match chosen_source o with
  | None =>
      (Ret false, after w [EvPrint MCreating; EvPrint (MSourceMissing "docs")])
  | Some (d, es) =>
      if zip_creatable o then
        (Ret (all_readable (targets (Dir d es))),
         {| w_archive := Some (closed_archive (readable_prefix (targets (Dir d es))));
            w_trace := w_trace w ++ package_events (targets (Dir d es)) |})
      else creation_failed w
  end.
Proof.
  intros [Hb Hd]. unfold create_package, chosen_source, dir_exists.
  rewrite Hb, Hd. unfold lookup_dir.
  assert (Hrun : forall d es,
    try_except
      (with_zipfile o
         (files_added ← add_dirs (os_walk (fun d => negb (startswith d ".")) []
                                    (Dir d es)) 0;
          print (MPackageCreated files_added) ;;
          checksum ← calculate_checksum;
          print (MChecksum checksum) ;;
          ret true))
      (print MCreateFailed ;; ret false)
      (after w [EvPrint MCreating]) =
    if zip_creatable o then
      (Ret (all_readable (targets (Dir d es))),
       {| w_archive := Some (closed_archive (readable_prefix (targets (Dir d es))));
          w_trace := w_trace w ++ package_events (targets (Dir d es)) |})
    else creation_failed w).
  { intros d es. unfold try_except, try_with, with_zipfile.
    destruct (zip_creatable o); [|unfold creation_failed; run_py; reflexivity].
    unfold bind at 1 2 3.
    cbn [set_archive emit after w_archive w_trace].
    unfold bind at 1.
    rewrite (add_dirs_run _ 0 _ (open_archive [])) by reflexivity.
    fold (targets (Dir d es)). unfold package_events.
    destruct (all_readable (targets (Dir d es))) eqn:Hall;
      cbv [written extended open_archive closed_archive calculate_checksum
           zip_close print emit bind ret get_archive set_archive is_Exception];
      cbn [w_archive w_trace a_members a_closed app Nat.add];
      rewrite <- ?app_assoc; reflexivity. }
  destruct (site_tree o) as [es|]; [|destruct (docs_tree o) as [es|]];
    repeat first
      [ progress change (String.eqb "site" "site") with true
      | progress change (String.eqb "site" "docs") with false
      | progress change (String.eqb "docs" "site") with false
      | progress change (String.eqb "docs" "docs") with true
      | progress cbv beta iota ].
  - unfold print, bind at 1. rewrite emit_after. apply Hrun.
  - unfold print, bind at 1. rewrite emit_after. apply Hrun.
  - unfold print, bind, emit, ret, after. simpl. rewrite <- app_assoc. reflexivity.
Qed.





Lemma count_zip_writes p ps :
  (forall q, p (EvZipWrite q) = false) -> count p (map EvZipWrite ps) = 0.
Proof.
  intros Hp. unfold count. induction ps as [|q ps IH]; simpl; [reflexivity|].
  rewrite Hp. exact IH.
Qed.



Lemma readable_prefix_all ts :
  all_readable ts = true -> readable_prefix ts = map fst ts.
Proof.
  induction ts as [|[p []] ts IH]; simpl; intros H; [reflexivity| |discriminate].
  now rewrite IH.
Qed.





(** On the sample site two of the seven files are packaged. *)
Example sample_site_package :
  create_package (site_only sample_site) some_uploader fresh_world =
  (Ret true,
   {| w_archive := Some (closed_archive [["index.html"]; ["guide"; "intro.html"]]);
      w_trace :=
        [EvPrint MCreating; EvZipOpen;
         EvZipWrite ["index.html"]; EvZipWrite ["guide"; "intro.html"];
         EvPrint (MPackageCreated 2);
         EvDigest (open_archive [["index.html"]; ["guide"; "intro.html"]]);
         EvPrint (MChecksum (open_archive [["index.html"]; ["guide"; "intro.html"]]));
         EvZipClose] |}).
Proof. vm_compute. reflexivity. Qed.

(** *** The source directory *)

Lemma count_zip_package_events ts : 0 < count is_zip (package_events ts).
Proof. unfold package_events, count. simpl. lia. Qed.

(** The first reading of C10 fails: with a source directory in place,
    packaging still fails without any archive event when the archive file
    itself cannot be created, and a path [site] that exists without being a
    directory is taken as the source, so that [docs] is not packaged. *)
Lemma packaging_fails_with_source_counterexample :
  ~ (forall o self w, init o = Ret self ->
       (exists new,
          create_package o self w = (Ret false, after w new) /\
          count is_zip new = 0) ->
       site_tree o = None /\ docs_tree o = None) /\
  ~ (forall o self w es, init o = Ret self ->
       site_tree o = Some [] -> docs_tree o = Some es ->
       create_package o self w = packaged w (Dir "docs" es)).
Proof.
  split.
  - intros H.
    destruct (H unwritable_directory some_uploader fresh_world eq_refl)
      as [Hsite _]; [|discriminate].
    exists [EvPrint MCreating; EvPrint MCreateFailed]. split; reflexivity.
  - intros H.
    specialize (H site_is_a_file some_uploader fresh_world
                  [File "index.md" true] eq_refl eq_refl eq_refl).
    vm_compute in H. discriminate.
Qed.

(** C10, amended.  [create_package] has no parameter for the source
    directory: the two candidates are the names [__init__] stores, "site"
    and "docs".  If the path [site] exists it is the source, whether or not
    [docs] exists, and also when [site] has nothing to walk; only if [site]
    does not exist is [docs] the source.  When the archive file can be
    created the source is packaged.  The packager returns [False] without
    any archive event, leaving the file system as it was, exactly when
    neither path exists or the archive file cannot be created. *)
Theorem source_directory_is_fixed o self w
  (Hinit : init o = Ret self) :
  build_dir self = "site" /\ docs_dir self = "docs" /\
  (forall es, site_tree o = Some es -> zip_creatable o = true ->
     create_package o self w = packaged w (Dir "site" es)) /\
  (forall es, site_tree o = None -> docs_tree o = Some es ->
     zip_creatable o = true ->
     create_package o self w = packaged w (Dir "docs" es)) /\
  ((exists new,
      create_package o self w = (Ret false, after w new) /\ count is_zip new = 0)
   <->
   (site_tree o = None /\ docs_tree o = None) \/ zip_creatable o = false).
Proof.
  pose proof (init_standard o self Hinit) as Hself.
  destruct Hself as [Hb Hd]. split; [exact Hb|]. split; [exact Hd|].
  rewrite (create_package_run o self w (conj Hb Hd)).
  unfold chosen_source, packaged, visible_files.
  split; [|split].
  - intros es -> ->. rewrite <- targets_visible_files. reflexivity.
  - intros es -> -> ->. rewrite <- targets_visible_files. reflexivity.
  - destruct (site_tree o) as [es|]; [|destruct (docs_tree o) as [es|]].
    + destruct (zip_creatable o).
      * split; [|intros [[? _]|?]; discriminate].
        intros (new & Hrun & Hzip). exfalso.
        injection Hrun as _ _ Ht. apply app_inv_head in Ht. subst new.
        pose proof (count_zip_package_events (targets (Dir "site" es))). lia.
      * split; [auto|]. intros _. eexists. split; reflexivity.
    + destruct (zip_creatable o).
      * split; [|intros [[_ ?]|?]; discriminate].
        intros (new & Hrun & Hzip). exfalso.
        injection Hrun as _ _ Ht. apply app_inv_head in Ht. subst new.
        pose proof (count_zip_package_events (targets (Dir "docs" es))). lia.
      * split; [auto|]. intros _. eexists. split; reflexivity.
    + split; [auto|]. intros _. eexists. split; reflexivity.
Qed.

Lemma source_directory_is_fixed_witness :
  build_dir some_uploader = "site" /\ docs_dir some_uploader = "docs" /\
  (forall es, site_tree (site_only sample_site) = Some es ->
     zip_creatable (site_only sample_site) = true ->
     create_package (site_only sample_site) some_uploader fresh_world =
     packaged fresh_world (Dir "site" es)) /\
  (forall es, site_tree (site_only sample_site) = None ->
     docs_tree (site_only sample_site) = Some es ->
     zip_creatable (site_only sample_site) = true ->
     create_package (site_only sample_site) some_uploader fresh_world =
     packaged fresh_world (Dir "docs" es)) /\
  ((exists new,
      create_package (site_only sample_site) some_uploader fresh_world =
        (Ret false, after fresh_world new) /\ count is_zip new = 0)
   <->
   (site_tree (site_only sample_site) = None /\
    docs_tree (site_only sample_site) = None) \/
   zip_creatable (site_only sample_site) = false).
Proof.
  apply (source_directory_is_fixed (site_only sample_site) some_uploader fresh_world).
  reflexivity.
Defined.

(** *** The digest and the close of the archive *)

(** C2 fails on the code: when packaging succeeds (a source directory
    exists, the archive can be created and every visible file can be read),
    the digest is taken
    while the archive writer is still open.  The events end with the digest,
    the checksum line and only then the close; no close comes before the
    digest, what is hashed is the file without its central directory, and
    the file left on disk is the closed archive, which was never hashed. *)
Theorem digest_taken_before_close o self w d es
  (Hself : standard self)
  (Hsource : chosen_source o = Some (d, es))
  (Hcreatable : zip_creatable o = true)
  (Hreadable : all_readable (visible_files (Dir d es)) = true) :
  exists pre snapshot,
    create_package o self w =
      (Ret true,
       {| w_archive := Some (closed_archive (a_members snapshot));
          w_trace := w_trace w ++ pre ++
                     [EvDigest snapshot; EvPrint (MChecksum snapshot); EvZipClose] |}) /\
    a_closed snapshot = false /\
    count is_zip_close pre = 0.
Proof.
  rewrite (create_package_run o self w Hself), Hsource, Hcreatable.
  unfold visible_files in Hreadable. rewrite <- targets_visible_files in Hreadable.
  set (ts := targets (Dir d es)) in *.
  exists ([EvPrint MCreating; EvZipOpen] ++ map EvZipWrite (readable_prefix ts) ++
          [EvPrint (MPackageCreated (length ts))]),
         (open_archive (readable_prefix ts)).
  split; [|split].
  - rewrite Hreadable. unfold package_events. rewrite Hreadable.
    simpl. rewrite <- !app_assoc. reflexivity.
  - reflexivity.
  - rewrite !count_app, count_zip_writes by reflexivity. reflexivity.
Qed.

Lemma digest_taken_before_close_witness :
  exists pre snapshot,
    create_package (site_only sample_site) some_uploader fresh_world =
      (Ret true,
       {| w_archive := Some (closed_archive (a_members snapshot));
          w_trace := w_trace fresh_world ++ pre ++
                     [EvDigest snapshot; EvPrint (MChecksum snapshot); EvZipClose] |}) /\
    a_closed snapshot = false /\
    count is_zip_close pre = 0.
Proof.
  apply (digest_taken_before_close (site_only sample_site) some_uploader
           fresh_world "site" sample_site).
  - split; reflexivity.
  - reflexivity.
  - reflexivity.
  - reflexivity.
Defined.

(** *** deploy and cleanup *)

(** Counting with a narrower predicate. *)
Lemma count_none (p q : event -> bool) t :
  (forall e, p e = true -> q e = true) -> count q t = 0 -> count p t = 0.
Proof.
  intros Hpq. unfold count. induction t as [|e t IH]; simpl; [reflexivity|].
  destruct (q e) eqn:Hq; [discriminate|]. intros H.
  destruct (p e) eqn:Hp; [apply Hpq in Hp; congruence | auto].
Qed.

Lemma cleaning_counts t :
  count is_cleaning t = 0 ->
  count is_cleanup t = 0 /\ count is_remove t = 0 /\
  count says_cleanup_warning t = 0.
Proof.
  intros H. repeat split; refine (count_none _ is_cleaning t _ H);
    intros [| | | | | | | | |[]]; simpl; congruence.
Qed.

(** [upload_package] never cleans up and never touches the archive; it
    returns, or is interrupted. *)
Lemma upload_package_quiet o self w :
  exists r new,
    upload_package o self w = (r, after w new) /\
    count is_cleaning new = 0 /\
    (r = Ret true \/ r = Ret false \/ r = Raise KeyboardInterrupt).
Proof.
  unfold upload_package. run_py.
  destruct (w_archive w) as [z|]; run_py.
  2: { eexists _, _. split; [reflexivity|]. split; [reflexivity|]. auto. }
  destruct (post_reply o) as [code body| | | |]; run_py.
  2-5: eexists _, _; (split; [reflexivity|]); split; [reflexivity|]; auto.
  destruct (Z.eqb code 200);
    [|destruct (Z.eqb code 401); [|destruct (Z.eqb code 413)]]; run_py.
  2-4: eexists _, _; (split; [reflexivity|]); split; [reflexivity|]; auto.
  destruct body as [| |d]; run_py.
  1-2: eexists _, _; (split; [reflexivity|]); split; [reflexivity|]; auto.
  destruct (d !! "upload_id") as [upload_id|].
  2: { eexists _, _. split; [reflexivity|]. split; [reflexivity|]. auto. }
  match goal with |- context [monitor_processing o self upload_id ?w0] =>
    destruct (monitor_processing_outcome o self upload_id w0)
      as (r & new & Hrun & HP & H)
  end.
  rewrite Hrun, after_after.
  destruct (poller_events_quiet _ HP) as (_ & _ & _ & _ & C).
  assert (Hr : r = Ret true \/ r = Ret false \/ r = Raise KeyboardInterrupt).
  { destruct (first_decisive o max_attempts 0) as [[n []]|];
      intuition (subst; auto). }
  destruct Hr as [-> | [-> | ->] ];
    (eexists _, _; split; [reflexivity|]);
    rewrite count_app, C; (split; [reflexivity|]); auto.
Qed.

(** C1 fails on the code: when a file of the source directory cannot be
    read, [create_package] has already created the archive; it catches the
    error and returns [False], and [deploy] returns [False] at once: no call
    of [cleanup] is among its events, and the partial archive stays on
    disk.  (When the archive file could not even be created, [deploy]
    returns in the same way, with the file system as it was.) *)
Theorem deploy_skips_cleanup_when_packaging_fails o self w d es
  (Hself : standard self)
  (Hsource : chosen_source o = Some (d, es))
  (Hunreadable : all_readable (visible_files (Dir d es)) = false) :
  exists new,
    deploy o self w =
      (Ret false,
       {| w_archive :=
            if zip_creatable o
            then Some (closed_archive (readable_prefix (visible_files (Dir d es))))
            else w_archive w;
          w_trace := w_trace w ++ new |}) /\
    count is_cleanup new = 0.
Proof.
  unfold deploy, print, bind at 1. rewrite emit_after.
  unfold try_with, bind at 1.
  rewrite (create_package_run o self _ Hself), Hsource.
  destruct (zip_creatable o).
  2: { exists [EvPrint MStarting; EvPrint MCreating; EvPrint MCreateFailed].
       unfold creation_failed. rewrite after_after. split; reflexivity. }
  unfold visible_files in *. rewrite <- targets_visible_files in *.
  set (ts := targets (Dir d es)) in *. rewrite Hunreadable. cbn [negb].
  exists ([EvPrint MStarting] ++ package_events ts).
  split.
  - unfold ret, after. cbn [w_trace]. rewrite <- app_assoc. reflexivity.
  - unfold package_events. rewrite Hunreadable.
    rewrite !count_app, count_zip_writes by reflexivity. reflexivity.
Qed.

Lemma deploy_skips_cleanup_when_packaging_fails_witness :
  exists new,
    deploy (site_only unreadable_site) some_uploader fresh_world =
      (Ret false,
       {| w_archive :=
            if zip_creatable (site_only unreadable_site)
            then Some (closed_archive
                         (readable_prefix
                            (visible_files (Dir "site" unreadable_site))))
            else w_archive fresh_world;
          w_trace := w_trace fresh_world ++ new |}) /\
    count is_cleanup new = 0.
Proof.
  apply (deploy_skips_cleanup_when_packaging_fails (site_only unreadable_site)
           some_uploader fresh_world "site" unreadable_site).
  - split; reflexivity.
  - reflexivity.
  - reflexivity.
Defined.

(** The run at that input, event by event. *)
Example deploy_leaves_partial_archive :
  run (deploy (site_only unreadable_site) some_uploader) =
  (Ret false,
   {| w_archive := Some (closed_archive [["index.html"]]);
      w_trace := [EvPrint MStarting; EvPrint MCreating; EvZipOpen;
                  EvZipWrite ["index.html"]; EvZipClose;
                  EvPrint MCreateFailed] |}).
Proof. vm_compute. reflexivity. Qed.


(** *** The stored base URL *)

Lemma rstrip_decompose (c : ascii) (s : string) :
  exists k, s = String.append (rstrip c s) (repeat_char k c).
Proof.
  induction s as [|a s [k IH]]; simpl.
  - exists 0. reflexivity.
  - destruct (rstrip c s) eqn:E.
    + rewrite append_empty_l in IH.
      destruct (Ascii.eqb_spec a c) as [->|Hne].
      * exists (S k). rewrite append_empty_l. simpl. congruence.
      * exists k. rewrite append_String, append_empty_l. congruence.
    + exists k. rewrite append_String. congruence.
Qed.

Lemma rstrip_no_trailing (c : ascii) (s : string) : forall s',
  rstrip c s <> String.append s' (String c EmptyString).
Proof.
  induction s as [|a s IH]; intros s' H; simpl in H.
  - destruct s'; discriminate.
  - destruct (rstrip c s) eqn:E.
    + destruct (Ascii.eqb_spec a c) as [->|Hne].
      * destruct s'; discriminate.
      * destruct s' as [|b s']; rewrite ?append_empty_l, ?append_String in H.
        -- injection H as ->. contradiction.
        -- injection H as _ H. destruct s'; discriminate.
    + destruct s' as [|b s']; rewrite ?append_empty_l, ?append_String in H.
      * discriminate.
      * injection H as _ H. exact (IH s' H).
Qed.

(** X1.  The base URL a constructed uploader holds is the value of
    [FLUID_URL] without its trailing slashes: the two differ by a run of
    slashes at the end, and the stored URL does not end with a slash, so
    that the request URLs built from it have no doubled slash. *)
Theorem base_url_without_trailing_slash o self
  (Hinit : init o = Ret self) :
  (exists k, fluid_url o = String.append (base_url self) (repeat_char k "/")) /\
  (forall s', base_url self <> String.append s' "/").
Proof.
  rewrite init_cases in Hinit.
  destruct (_ && _); [|discriminate]. injection Hinit as <-. simpl.
  split; [apply rstrip_decompose | apply rstrip_no_trailing].
Qed.

Lemma base_url_without_trailing_slash_witness :
  (exists k, fluid_url (site_only sample_site) =
             String.append (base_url some_uploader) (repeat_char k "/")) /\
  (forall s', base_url some_uploader <> String.append s' "/").
Proof.
  apply (base_url_without_trailing_slash (site_only sample_site) some_uploader).
  reflexivity.
Defined.

(** *** More on the poller *)

Lemma transient_retry r : transient r = true -> kind_of r = Retry.
Proof.
  destruct r as [code [| |d]| |]; simpl; try discriminate; try reflexivity;
    destruct (Z.eqb code 200); simpl; try discriminate; reflexivity.
Qed.

Lemma kind_of_interrupted r : kind_of r = Interrupted <-> r = GetInterrupt.
Proof.
  split; [|intros ->; reflexivity].
  destruct r as [code [| |d]| |]; simpl; try discriminate; try reflexivity;
    destruct (Z.eqb code 200); try discriminate.
  destruct (d !! "status") as [[label|]|]; try discriminate.
  destruct (String.eqb label "completed"); [discriminate|].
  destruct (String.eqb label "failed"); discriminate.
Qed.

(** X2.  A status check that fails by itself (the request raises, the
    status code is not 200, the body is not a JSON object) does not end the
    polling: it counts as one attempt, is followed by the same wait, and the
    loop goes on.  If the first [n] checks fail in this way, none of the
    waits is interrupted, and the next reply, still within the 30 attempts,
    says "completed", the poller returns [True] after [n + 1] queries and
    [n] waits. *)
Theorem poller_retries_failed_checks o self upload_id w n d
  (Hbudget : n < 30)
  (Hfailed : forall m, m < n -> transient (get_reply o m) = true)
  (Hwaits : forall m, m < n -> sleep_interrupted o m = false)
  (Hreply : get_reply o n = GetHttp 200 (JsonObject d))
  (Hcompleted : d !! "status" = Some (JStr "completed")) :
  exists new,
    monitor_processing o self upload_id w = (Ret true, after w new) /\
    count is_get new = n + 1 /\ count is_sleep new = n.
Proof.
  destruct (monitor_processing_outcome o self upload_id w) as (r & new & Hrun & _ & H).
  assert (E : first_decisive o max_attempts 0 = Some (n, Completed)).
  { apply first_decisive_intro.
    - unfold max_attempts. lia.
    - apply turn_kind_completed. eauto.
    - discriminate.
    - intros m Hm. apply turn_kind_retry.
      split; [apply transient_retry, Hfailed | apply Hwaits]; lia. }
  rewrite E in H. destruct H as (Hg & Hs & _ & -> & _).
  exists new. split; [exact Hrun|]. split; lia.
Qed.

Lemma poller_retries_failed_checks_witness :
  exists new,
    monitor_processing flaky_endpoint some_uploader (JStr "7") fresh_world =
      (Ret true, after fresh_world new) /\
    count is_get new = 3 + 1 /\ count is_sleep new = 3.
Proof.
  apply (poller_retries_failed_checks flaky_endpoint some_uploader (JStr "7")
           fresh_world 3 (status_object "completed")).
  - lia.
  - intros m Hm. destruct m as [|[|[|m]]]; try reflexivity. lia.
  - reflexivity.
  - reflexivity.
  - reflexivity.
Defined.

Lemma sleep_seconds_app t1 t2 :
  sleep_seconds (t1 ++ t2) = sleep_seconds t1 + sleep_seconds t2.
Proof.
  induction t1 as [|e t1 IH]; simpl; [reflexivity|].
  destruct e; simpl; rewrite ?IH; lia.
Qed.

(** Every wait of the loop is one of 10 seconds. *)
Lemma monitor_loop_sleeps o remaining attempt w :
  exists r new,
    monitor_loop o remaining attempt w = (r, after w new) /\
    sleep_seconds new = 10 * count is_sleep new.
Proof.
  revert attempt w. induction remaining as [|rem IH]; intros a w.
  - exists (Ret false), [EvPrint MMonitoringTimedOut]. split; reflexivity.
  - cbn [monitor_loop].
    assert (Hretry : forall pre,
               sleep_seconds pre = 10 * count is_sleep pre ->
               exists r new,
                 monitor_loop o rem (a + 1) (after w pre) = (r, after w new) /\
                 sleep_seconds new = 10 * count is_sleep new).
    { intros pre Hpre. destruct (IH (a + 1) (after w pre)) as (r & new & Hrun & Hs).
      exists r, (pre ++ new). rewrite Hrun, after_after. split; [reflexivity|].
      rewrite sleep_seconds_app, count_app. lia. }
    destruct (get_reply o a) as [code [| |d]| |] eqn:E;
      run_py; rewrite E;
      repeat first
        [ progress run_py
        | match goal with
          | |- context [match ?d !! ?k with _ => _ end] =>
              destruct (d !! k) as [[?|]|] eqn:?
          | |- context [if ?c then _ else _] => destruct c eqn:?
          end ].
    all: try (apply Hretry; reflexivity).
    all: eexists _, _; (split; [reflexivity|]); reflexivity.
Qed.

(** X3.  The poller is bounded: it makes at most 30 queries, it waits at
    most once per query and 10 seconds each time, so it spends at most 300
    seconds waiting. *)
Theorem poller_is_bounded o self upload_id w :
  exists r new,
    monitor_processing o self upload_id w = (r, after w new) /\
    count is_get new <= 30 /\
    count is_sleep new <= count is_get new /\
    sleep_seconds new = 10 * count is_sleep new /\
    sleep_seconds new <= 300.
Proof.
  destruct (monitor_processing_outcome o self upload_id w) as (r & new & Hrun & _ & H).
  exists r, new. split; [exact Hrun|].
  assert (Hs : sleep_seconds new = 10 * count is_sleep new).
  { unfold monitor_processing in Hrun. revert Hrun. run_py. intros Hrun.
    destruct (monitor_loop_sleeps o (max_attempts - 0) 0 (after w [EvPrint MMonitoring]))
      as (r' & new' & Hrun' & Hs').
    rewrite Hrun', after_after in Hrun. injection Hrun as _ Hrun.
    apply app_inv_head in Hrun. subst new. exact Hs'. }
  destruct (first_decisive o max_attempts 0) as [[n k]|] eqn:E.
  - apply first_decisive_Some in E as (Hn & _). unfold max_attempts in Hn.
    destruct H as (Hg & Hsl & _). destruct k; lia.
  - destruct H as (_ & Hg & Hsl & _). unfold max_attempts in *. lia.
Qed.

(** X4.  The only exception that leaves the poller is [KeyboardInterrupt],
    and it leaves it exactly when it arrives before any decisive reply,
    during a status query or during the wait after a query that decided
    nothing: the waits are inside the [try] as the queries are, and its
    handler catches [Exception] only.  Every other failure of a query is
    caught inside the loop. *)
Theorem poller_raises_only_interrupt o self upload_id w :
  forall e, fst (monitor_processing o self upload_id w) = Raise e <->
    e = KeyboardInterrupt /\
    exists n, n < 30 /\
      (get_reply o n = GetInterrupt \/
       (kind_of (get_reply o n) = Retry /\ sleep_interrupted o n = true)) /\
      forall m, m < n -> turn_kind o m = Retry.
Proof.
  intros e.
  destruct (monitor_processing_outcome o self upload_id w) as (r & new & Hrun & _ & H).
  rewrite Hrun. cbn [fst].
  assert (Hint : forall n,
            (get_reply o n = GetInterrupt \/
             (kind_of (get_reply o n) = Retry /\ sleep_interrupted o n = true)) <->
            (turn_kind o n = Interrupted \/ turn_kind o n = InterruptedWait)).
  { intros n. rewrite turn_kind_wait, (turn_kind_reply o n Interrupted) by discriminate.
    rewrite kind_of_interrupted. reflexivity. }
  assert (Hno : forall n k, first_decisive o max_attempts 0 = Some (n, k) ->
            k <> Interrupted -> k <> InterruptedWait ->
            ~ exists n', n' < 30 /\
                (turn_kind o n' = Interrupted \/ turn_kind o n' = InterruptedWait) /\
                forall m, m < n' -> turn_kind o m = Retry).
  { intros n k E H1 H2 (n' & Hn' & Hk' & Hm').
    assert (E' : exists k', first_decisive o max_attempts 0 = Some (n', k') /\
                            (k' = Interrupted \/ k' = InterruptedWait)).
    { destruct Hk' as [Hk'|Hk']; [exists Interrupted | exists InterruptedWait];
        (split; [|auto]);
        (apply first_decisive_intro;
         [unfold max_attempts; lia | exact Hk' | discriminate
         | intros; apply Hm'; lia]). }
    destruct E' as (k' & E' & Hk''). rewrite E in E'. injection E' as -> ->.
    destruct Hk''; contradiction. }
  destruct (first_decisive o max_attempts 0) as [[n k]|] eqn:E.
  - pose proof (first_decisive_Some _ _ _ _ _ E) as (Hn & Hk & Hne & Hm).
    unfold max_attempts in Hn.
    destruct H as (_ & _ & _ & H).
    destruct k; destruct H as (-> & _).
    + split; [discriminate|]. intros (_ & n' & Hn' & Hr & Hm'). exfalso.
      apply (Hno n Completed eq_refl); try discriminate.
      exists n'. rewrite <- Hint. auto.
    + split; [discriminate|]. intros (_ & n' & Hn' & Hr & Hm'). exfalso.
      apply (Hno n Failed eq_refl); try discriminate.
      exists n'. rewrite <- Hint. auto.
    + congruence.
    + split.
      * intros [= <-]. split; [reflexivity|]. exists n.
        split; [lia|]. split; [apply Hint; auto|].
        intros; apply Hm; lia.
      * intros [-> _]. reflexivity.
    + split.
      * intros [= <-]. split; [reflexivity|]. exists n.
        split; [lia|]. split; [apply Hint; auto|].
        intros; apply Hm; lia.
      * intros [-> _]. reflexivity.
  - destruct H as (-> & _). split; [discriminate|].
    intros (_ & n' & Hn' & Hr & _).
    rewrite first_decisive_None in E. apply Hint in Hr.
    rewrite E in Hr by (unfold max_attempts; lia). destruct Hr; discriminate.
Qed.

(** An interrupt during the first wait, event by event. *)
Example interrupt_during_wait :
  monitor_processing interrupted_wait some_uploader (JStr "7") fresh_world =
  (Raise KeyboardInterrupt,
   after fresh_world
     [EvPrint MMonitoring; EvGet 0;
      EvPrint (MProcessingStatus (JStr "processing")); EvSleep 10]).
Proof. vm_compute. reflexivity. Qed.

(** *** More on upload_package and deploy *)

Lemma monitor_processing_result o self upload_id w :
  fst (monitor_processing o self upload_id w) = poll_result o.
Proof.
  destruct (monitor_processing_outcome o self upload_id w) as (r & new & Hrun & _ & H).
  rewrite Hrun. unfold poll_result. cbn [fst].
  destruct (first_decisive o max_attempts 0) as [[n k]|] eqn:E.
  - destruct H as (_ & _ & _ & H).
    destruct k; try (destruct H as (-> & _); reflexivity).
    apply first_decisive_Some in E as (_ & _ & Hne & _). congruence.
  - destruct H as (-> & _). reflexivity.
Qed.



Lemma reported_outcomes_zip_writes ps :
  reported_outcomes (map EvZipWrite ps) = [].
Proof. induction ps as [|p ps IH]; simpl; [reflexivity | exact IH]. Qed.

(** Packaging posts nothing, queries nothing, cleans nothing up and reports
    no upload outcome. *)
Lemma package_events_quiet ts :
  count is_post (package_events ts) = 0 /\
  count is_get (package_events ts) = 0 /\
  count is_cleaning (package_events ts) = 0 /\
  reported_outcomes (package_events ts) = [].
Proof.
  unfold package_events.
  rewrite !count_app, !reported_outcomes_app, reported_outcomes_zip_writes,
    !count_zip_writes by reflexivity.
  destruct (all_readable ts); repeat split.
Qed.

(** [cleanup] with and without the archive on disk. *)
Lemma cleanup_run o self w z :
  w_archive w = Some z ->
  cleanup o self w =
  (Ret tt, {| w_archive := cleaned o z; w_trace := w_trace w ++ cleanup_events o |}).
Proof.
  intros Hz. unfold cleanup, os_remove, cleaned, cleanup_events. run_py.
  rewrite Hz. destruct (remove_ok o); run_py; unfold after; cbn [w_trace w_archive];
    rewrite <- ?app_assoc, ?Hz; reflexivity.
Qed.

Lemma cleanup_nothing o self w :
  w_archive w = None -> cleanup o self w = (Ret tt, after w [EvCleanup]).
Proof. intros Hz. unfold cleanup. run_py. rewrite Hz. reflexivity. Qed.

Lemma cleanup_events_counts o :
  count is_cleanup (cleanup_events o) = 1 /\
  count is_remove (cleanup_events o) = (if remove_ok o then 1 else 0) /\
  count says_cleanup_warning (cleanup_events o) = (if remove_ok o then 0 else 1) /\
  count is_post (cleanup_events o) = 0 /\
  count is_get (cleanup_events o) = 0 /\
  reported_outcomes (cleanup_events o) = [].
Proof. unfold cleanup_events. destruct (remove_ok o); repeat split. Qed.

(** [deploy] after a successful packaging, in terms of what the upload
    does. *)
Lemma deploy_after_upload o self w d es r new :
  standard self -> chosen_source o = Some (d, es) ->
  zip_creatable o = true ->
  all_readable (visible_files (Dir d es)) = true ->
  upload_package o self (world_with_package w (visible_files (Dir d es))) =
    (r, after (world_with_package w (visible_files (Dir d es))) new) ->
  deploy o self w =
    (Ret (deploy_flag r),
     {| w_archive :=
          cleaned o (closed_archive (readable_prefix (visible_files (Dir d es))));
        w_trace := w_trace (world_with_package w (visible_files (Dir d es)))
                   ++ new ++ deploy_ending o r |}).
Proof.
  intros Hself Hsource Hcreatable Hall Hup.
  unfold deploy, print, bind at 1. rewrite emit_after.
  unfold try_with, bind at 1.
  rewrite (create_package_run o self _ Hself), Hsource, Hcreatable.
  unfold visible_files in *. rewrite <- targets_visible_files in *.
  set (ts := targets (Dir d es)) in *. rewrite Hall. cbn [negb].
  unfold bind at 1.
  replace {| w_archive := Some (closed_archive (readable_prefix ts));
             w_trace := w_trace (after w [EvPrint MStarting]) ++ package_events ts |}
    with (world_with_package w ts)
    by (unfold world_with_package, after; cbn [w_trace];
        rewrite <- app_assoc; reflexivity).
  rewrite Hup.
  destruct r as [[]|[]];
    cbv [bind emit print ret]; cbn [w_archive w_trace after];
    erewrite cleanup_run by reflexivity;
    cbv [world_with_package deploy_flag deploy_ending after];
    cbn [w_archive w_trace app]; rewrite <- ?app_assoc; reflexivity.
Qed.




(** X6.  When the package was built and the server answers the upload with
    a status other than 200, [deploy] returns [False] after exactly one POST
    and without a single status query; the rejection is reported with that
    status and [cleanup] runs once.  If [os.remove] succeeds the archive is
    gone; if it raises, the exception is caught, the warning is printed and
    the archive stays on disk. *)
Theorem deploy_rejected_upload o self w d es code body
  (Hself : standard self)
  (Hsource : chosen_source o = Some (d, es))
  (Hcreatable : zip_creatable o = true)
  (Hreadable : all_readable (visible_files (Dir d es)) = true)
  (Hreply : post_reply o = PostHttp code body)
  (Hcode : code <> 200%Z) :
  exists new,
    deploy o self w =
      (Ret false,
       {| w_archive :=
            cleaned o (closed_archive (map fst (visible_files (Dir d es))));
          w_trace := w_trace w ++ new |}) /\
    count is_post new = 1 /\ count is_get new = 0 /\
    count is_cleanup new = 1 /\
    count is_remove new = (if remove_ok o then 1 else 0) /\
    count says_cleanup_warning new = (if remove_ok o then 0 else 1) /\
    reported_outcomes new = [outcome_of_status code].
Proof.
  set (w0 := world_with_package w (visible_files (Dir d es))).
  assert (Hup : exists new,
             upload_package o self w0 = (Ret false, after w0 new) /\
             count is_post new = 1 /\ count is_get new = 0 /\
             count is_cleaning new = 0 /\
             reported_outcomes new = [outcome_of_status code]).
  { unfold upload_package, outcome_of_status. run_py. subst w0.
    cbn [world_with_package w_archive]. run_py. rewrite Hreply. run_py.
    destruct (Z.eqb_spec code 200) as [|_]; [contradiction|].
    destruct (Z.eqb code 401); [|destruct (Z.eqb code 413)]; run_py;
      (eexists; split; [reflexivity|]); repeat split. }
  destruct Hup as (new & Hup & HP & HG & HC & HR).
  rewrite (deploy_after_upload o self w d es _ _ Hself Hsource Hcreatable
             Hreadable Hup).
  rewrite (readable_prefix_all _ Hreadable).
  cbn [deploy_flag deploy_ending]. unfold world_with_package. cbn [w_trace].
  eexists. split; [rewrite <- !app_assoc; reflexivity|].
  destruct (package_events_quiet (visible_files (Dir d es))) as (QP & QG & QC & QR).
  destruct (cleaning_counts _ QC) as (QC1 & QC2 & QC3).
  destruct (cleaning_counts _ HC) as (HC1 & HC2 & HC3).
  destruct (cleanup_events_counts o) as (E1 & E2 & E3 & E4 & E5 & E6).
  rewrite !count_app, !reported_outcomes_app, HP, HG, HC1, HC2, HC3, HR,
    QP, QG, QC1, QC2, QC3, QR, E1, E2, E3, E4, E5, E6.
  repeat split; destruct (remove_ok o); reflexivity.
Qed.

Lemma deploy_rejected_upload_witness :
  exists new,
    deploy undeletable_archive some_uploader fresh_world =
      (Ret false,
       {| w_archive :=
            cleaned undeletable_archive
              (closed_archive (map fst (visible_files (Dir "site" sample_site))));
          w_trace := w_trace fresh_world ++ new |}) /\
    count is_post new = 1 /\ count is_get new = 0 /\
    count is_cleanup new = 1 /\
    count is_remove new = (if remove_ok undeletable_archive then 1 else 0) /\
    count says_cleanup_warning new =
      (if remove_ok undeletable_archive then 0 else 1) /\
    reported_outcomes new = [outcome_of_status 401].
Proof.
  apply (deploy_rejected_upload undeletable_archive some_uploader fresh_world
           "site" sample_site 401%Z BadJson).
  - split; reflexivity.
  - reflexivity.
  - reflexivity.
  - reflexivity.
  - reflexivity.
  - discriminate.
Defined.

(** The run in which the archive cannot be deleted, event by event. *)
Example deploy_leaves_undeletable_archive :
  run (deploy undeletable_archive some_uploader) =
  (Ret false,
   {| w_archive := Some (closed_archive [["index.html"]; ["guide"; "intro.html"]]);
      w_trace :=
        [EvPrint MStarting; EvPrint MCreating; EvZipOpen;
         EvZipWrite ["index.html"]; EvZipWrite ["guide"; "intro.html"];
         EvPrint (MPackageCreated 2);
         EvDigest (open_archive [["index.html"]; ["guide"; "intro.html"]]);
         EvPrint (MChecksum (open_archive [["index.html"]; ["guide"; "intro.html"]]));
         EvZipClose;
         EvPrint MUploading; EvPrint MUploadingTo; EvPost; EvPrint MAuthFailed;
         EvCleanup; EvPrint MCleanupWarning; EvPrint MDeploymentFailed] |}).
Proof. vm_compute. reflexivity. Qed.

(** X7.  After a reply with status 200 and a JSON object, [upload_package]
    polls exactly when the object has the key [upload_id]: with the key, at
    least one status query is made and the result is the poller's; without
    it no query is made and the result is [True]. *)
Theorem upload_polls_iff_upload_id o self w d
  (Hpackage : w_archive w <> None)
  (Hreply : post_reply o = PostHttp 200 (JsonObject d)) :
  exists r new,
    upload_package o self w = (r, after w new) /\
    match d !! "upload_id" with
    | Some upload_id =>
        r = fst (monitor_processing o self upload_id w) /\ 1 <= count is_get new
    | None => r = Ret true /\ count is_get new = 0
    end.
Proof.
  unfold upload_package. run_py.
  destruct (w_archive w) as [z|]; [clear Hpackage | congruence].
  run_py. rewrite Hreply. run_py. rewrite Z.eqb_refl. run_py.
  destruct (d !! "upload_id") as [upload_id|].
  - match goal with |- context [monitor_processing o self upload_id ?w0] =>
      pose proof (monitor_processing_result o self upload_id w0) as Hres;
      destruct (monitor_processing_outcome o self upload_id w0)
        as (r & new & Hrun & _ & H)
    end.
    pose proof (monitor_processing_result o self upload_id w) as Hw.
    rewrite Hrun in Hres |- *. cbn [fst] in Hres. subst r. rewrite after_after.
    assert (Hg : 1 <= count is_get new).
    { destruct (first_decisive o max_attempts 0) as [[n k]|].
      - destruct H as (-> & _). lia.
      - destruct H as (_ & -> & _). unfold max_attempts. lia. }
    unfold poll_result in *.
    destruct (first_decisive o max_attempts 0) as [[n []]|];
      (eexists _, _; split; [reflexivity|]);
      (split; [symmetry; exact Hw|]); rewrite count_app; simpl; lia.
  - eexists _, _. split; [reflexivity|]. split; reflexivity.
Qed.

Lemma upload_polls_iff_upload_id_witness :
  exists r new,
    upload_package stuck_processing some_uploader packaged_world =
      (r, after packaged_world new) /\
    match (<["upload_id" := JStr "7"]> ∅ : gmap string jval) !! "upload_id" with
    | Some upload_id =>
        r = fst (monitor_processing stuck_processing some_uploader upload_id
                   packaged_world) /\
        1 <= count is_get new
    | None => r = Ret true /\ count is_get new = 0
    end.
Proof.
  apply (upload_polls_iff_upload_id stuck_processing some_uploader packaged_world
           (<["upload_id" := JStr "7"]> ∅)).
  - discriminate.
  - reflexivity.
Defined.

(** X8.  When the upload request itself fails, [upload_package] has posted
    once and does not post again: a time-out, a connection failure and any
    other exception are each reported as such and make it return [False]
    without polling, while an interruption is not caught and passes on to
    the caller. *)
Theorem upload_request_failures o self w
  (Hpackage : w_archive w <> None)
  (Hfailed : forall code body, post_reply o <> PostHttp code body) :
  exists new,
    upload_package o self w =
      ((match post_reply o with
        | PostInterrupt => Raise KeyboardInterrupt
        | _ => Ret false
        end), after w new) /\
    count is_post new = 1 /\ count is_get new = 0 /\
    reported_outcomes new = outcome_of_failure (post_reply o).
Proof.
  unfold upload_package. run_py.
  destruct (w_archive w) as [z|]; [clear Hpackage | congruence].
  run_py.
  destruct (post_reply o) as [code body| | | |] eqn:E; run_py.
  - exfalso. exact (Hfailed code body eq_refl).
  - eexists. split; [reflexivity|]. repeat split.
  - eexists. split; [reflexivity|]. repeat split.
  - eexists. split; [reflexivity|]. repeat split.
  - eexists. split; [reflexivity|]. repeat split.
Qed.

Lemma upload_request_failures_witness :
  exists new,
    upload_package unreachable_server some_uploader packaged_world =
      ((match post_reply unreachable_server with
        | PostInterrupt => Raise KeyboardInterrupt
        | _ => Ret false
        end), after packaged_world new) /\
    count is_post new = 1 /\ count is_get new = 0 /\
    reported_outcomes new = outcome_of_failure (post_reply unreachable_server).
Proof.
  apply (upload_request_failures unreachable_server some_uploader packaged_world).
  - discriminate.
  - intros code body. discriminate.
Defined.

(** X9.  Once the package has been built, [cleanup] is called exactly once,
    whatever the upload and the polling do, an interruption during a query
    or a wait included.  What becomes of the archive is up to [os.remove]:
    if it succeeds the file is gone; if it raises, [cleanup] catches the
    exception, prints its warning, and the complete archive stays on
    disk. *)
Theorem deploy_cleans_up_once o self w d es :
  standard self -> chosen_source o = Some (d, es) ->
  zip_creatable o = true ->
  all_readable (visible_files (Dir d es)) = true ->
  exists r new,
    deploy o self w =
      (Ret r,
       {| w_archive :=
            cleaned o (closed_archive (map fst (visible_files (Dir d es))));
          w_trace := w_trace w ++ new |}) /\
    count is_cleanup new = 1 /\
    count is_remove new = (if remove_ok o then 1 else 0) /\
    count says_cleanup_warning new = (if remove_ok o then 0 else 1).
Proof.
  intros Hself Hsource Hcreatable Hall.
  destruct (upload_package_quiet o self
              (world_with_package w (visible_files (Dir d es))))
    as (r & new & Hup & HC & Hr).
  rewrite (deploy_after_upload o self w d es _ _ Hself Hsource Hcreatable Hall Hup).
  rewrite (readable_prefix_all _ Hall).
  unfold world_with_package. cbn [w_trace].
  eexists _, _. split; [rewrite <- !app_assoc; reflexivity|].
  destruct (package_events_quiet (visible_files (Dir d es))) as (_ & _ & QC & _).
  destruct (cleaning_counts _ QC) as (QC1 & QC2 & QC3).
  destruct (cleaning_counts _ HC) as (HC1 & HC2 & HC3).
  destruct (cleanup_events_counts o) as (E1 & E2 & E3 & _).
  assert (Hend : count is_cleanup (deploy_ending o r) = 1 /\
                 count is_remove (deploy_ending o r) =
                   (if remove_ok o then 1 else 0) /\
                 count says_cleanup_warning (deploy_ending o r) =
                   (if remove_ok o then 0 else 1)).
  { destruct Hr as [-> | [-> | ->] ]; unfold deploy_ending;
      rewrite ?count_app;
      change (?e :: cleanup_events o) with ([e] ++ cleanup_events o);
      rewrite ?count_app, E1, E2, E3;
      repeat split; destruct (remove_ok o); reflexivity. }
  destruct Hend as (D1 & D2 & D3).
  rewrite !count_app, HC1, HC2, HC3, QC1, QC2, QC3, D1, D2, D3.
  repeat split.
Qed.

Lemma deploy_cleans_up_once_witness :
  exists r new,
    deploy interrupted_wait some_uploader fresh_world =
      (Ret r,
       {| w_archive :=
            cleaned interrupted_wait
              (closed_archive (map fst (visible_files (Dir "site" sample_site))));
          w_trace := w_trace fresh_world ++ new |}) /\
    count is_cleanup new = 1 /\
    count is_remove new = (if remove_ok interrupted_wait then 1 else 0) /\
    count says_cleanup_warning new =
      (if remove_ok interrupted_wait then 0 else 1).
Proof.
  apply (deploy_cleans_up_once interrupted_wait some_uploader fresh_world
           "site" sample_site).
  - split; reflexivity.
  - reflexivity.
  - reflexivity.
  - reflexivity.
Defined.



(** The stale archive of the sample is replaced. *)
Example stale_archive_replaced :
  w_archive (snd (create_package (site_only sample_site) some_uploader stale_world)) =
  Some (closed_archive [["index.html"]; ["guide"; "intro.html"]]).
Proof. vm_compute. reflexivity. Qed.

End UploaderTraces.

(** ** The YAML validator *)

Section YamlFacts.
Import YamlValidator.






























(** *** What was recorded before has no part in a check *)




























(** *** The schemas of workflow and compose files *)

(** Run the straight-line part of validator code on a mapping. *)
Ltac run_yaml :=
  cbv [bind ret raise add_error add_warning contains getitem has];
  cbn [errors warnings announced].

Lemma check_required_result f pairs fields : forall success st,
  exists st',
    check_required f (YDict pairs) fields success st =
    (Ret (success && forallb (has pairs) fields), st').
Proof.
  induction fields as [|field rest IH]; intros success st; cbn [check_required forallb].
  - rewrite andb_true_r. eexists. reflexivity.
  - unfold bind at 1. cbn [contains]. unfold ret at 1. unfold has at 1.
    destruct (assoc field pairs); cbn [negb andb].
    + apply IH.
    + unfold bind, add_error.
      match goal with
      | |- context [check_required f (YDict pairs) rest ?b ?s] =>
          destruct (IH b s) as [st' ->]
      end.
      rewrite andb_false_r. eexists. reflexivity.
Qed.

Lemma check_services_result f services : forall success st,
  exists st',
    check_services f services success st =
    (Ret (success && forallb service_ok (map snd services)), st').
Proof.
  induction services as [|[service_name service_config] rest IH];
    intros success st; cbn [check_services forallb map snd].
  - rewrite andb_true_r. eexists. reflexivity.
  - destruct service_config;
      try (unfold bind, add_error;
           match goal with
           | |- context [check_services f rest ?b ?s] =>
               destruct (IH b s) as [st' ->]
           end;
           rewrite andb_false_r; eexists; reflexivity).
    run_yaml. cbn [service_ok]. unfold has.
    destruct (assoc "image" pairs), (assoc "build" pairs); cbn [negb andb orb];
      match goal with
      | |- context [check_services f rest ?b ?s] =>
          destruct (IH b s) as [st' ->]
      end; eexists; rewrite ?andb_false_r, ?andb_true_r; reflexivity.
Qed.

Lemma check_jobs_result f jobs : forall success st,
  exists st',
    check_jobs f jobs success st =
    (Ret (success && forallb job_ok (map snd jobs)), st').
Proof.
  induction jobs as [|[job_name job_config] rest IH];
    intros success st; cbn [check_jobs forallb map snd].
  - rewrite andb_true_r. eexists. reflexivity.
  - destruct job_config;
      try (unfold bind, add_error;
           match goal with
           | |- context [check_jobs f rest ?b ?s] =>
               destruct (IH b s) as [st' ->]
           end;
           rewrite andb_false_r; eexists; reflexivity).
    run_yaml. cbn [job_ok]. unfold has.
    destruct (assoc "runs-on" pairs), (assoc "steps" pairs); cbn [negb andb];
      match goal with
      | |- context [check_jobs f rest ?b ?s] =>
          destruct (IH b s) as [st' ->]
      end; eexists; rewrite ?andb_false_r, ?andb_true_r; reflexivity.
Qed.

(** X18.  On a mapping the compose check never raises, and it passes
    exactly when the mapping has a key [services] whose value is a mapping
    of which every value is itself a mapping with [image] or [build]; a
    missing [version] does not matter to the result. *)
Theorem compose_check_follows_schema f pairs st :
  exists st',
    validate_docker_compose f (YDict pairs) st = (Ret (compose_ok pairs), st').
Proof.
  unfold validate_docker_compose, compose_ok. run_yaml.
  destruct (assoc "version" pairs); cbn [negb];
    (destruct (assoc "services" pairs) as [services|]; cbn [negb];
     [|eexists; reflexivity]);
    (destruct services;
     try (eexists; reflexivity);
     match goal with
     | |- context [check_services f ?l true ?s] =>
         destruct (check_services_result f l true s) as [st' ->]
     end; eexists; reflexivity).
Qed.

(** X19.  On a mapping the workflow check never raises, and it passes
    exactly when the mapping has the keys [name], [on] and [jobs] and the
    value of [jobs] is a mapping of which every value is itself a mapping
    with [runs-on] and [steps]. *)
Theorem workflow_check_follows_schema f pairs st :
  exists st',
    validate_github_workflow f (YDict pairs) st = (Ret (workflow_ok pairs), st').
Proof.
  unfold validate_github_workflow, workflow_ok. unfold bind at 1.
  destruct (check_required_result f pairs ["name"; "on"; "jobs"] true st) as [st1 ->].
  cbn [forallb andb]. run_yaml. unfold has.
  destruct (assoc "jobs" pairs) as [jobs|]; cbn [andb].
  - rewrite andb_true_r.
    destruct jobs; try (eexists; rewrite andb_false_r; reflexivity).
    match goal with
    | |- context [check_jobs f ?l ?b ?s] =>
        destruct (check_jobs_result f l b s) as [st' ->]
    end. eexists. reflexivity.
  - eexists. rewrite !andb_false_r. reflexivity.
Qed.

(** *** The navigation check *)

Lemma with_errors_nil st f : with_errors st f [] = st.
Proof. destruct st. unfold with_errors. simpl. now rewrite app_nil_r. Qed.

Lemma with_errors_app st f ms ns :
  with_errors (with_errors st f ms) f ns = with_errors st f (ms ++ ns).
Proof. unfold with_errors. simpl. now rewrite map_app, app_assoc. Qed.

Lemma pages_result_app fs success ps qs :
  pages_result fs success (ps ++ qs) =
  match pages_result fs success ps with
  | Ret b => pages_result fs b qs
  | Raise e => Raise e
  end.
Proof.
  unfold pages_result. rewrite existsb_app, forallb_app.
  destruct (existsb (page_lookup_raises fs) ps); cbn [orb]; [reflexivity|].
  rewrite andb_assoc. reflexivity.
Qed.

Lemma pages_looked_up_app fs ps qs :
  pages_looked_up fs (ps ++ qs) =
  if existsb (page_lookup_raises fs) ps then pages_looked_up fs ps
  else pages_looked_up fs ps ++ pages_looked_up fs qs.
Proof.
  induction ps as [|p ps IH]; cbn [app pages_looked_up existsb]; [reflexivity|].
  destruct (page_lookup_raises fs p); cbn [orb]; [reflexivity|].
  rewrite IH. destruct (existsb (page_lookup_raises fs) ps); reflexivity.
Qed.

Lemma missing_pages_app fs ps qs :
  missing_pages fs (ps ++ qs) = missing_pages fs ps ++ missing_pages fs qs.
Proof. unfold missing_pages. rewrite List.filter_app, map_app. reflexivity. Qed.

Lemma check_nav_targets_result fs f pairs : forall success st,
  check_nav_targets fs f pairs success st =
  (pages_result fs success (item_targets (YDict pairs)),
   with_errors st f
     (missing_pages fs (pages_looked_up fs (item_targets (YDict pairs))))).
Proof.
  induction pairs as [|[title target] rest IH]; intros success st;
    cbn [check_nav_targets item_targets flat_map snd].
  - unfold pages_result. cbn. rewrite andb_true_r, with_errors_nil. reflexivity.
  - cbn [item_targets] in IH.
    destruct target; try (rewrite IH; reflexivity).
    destruct (endswith s ".md"); cbn [app]; [|rewrite IH; reflexivity].
    unfold bind, path_exists.
    assert (Hcases :
      (docs_path_exists fs s = Some true /\
       page_missing fs s = false /\ page_lookup_raises fs s = false) \/
      (docs_path_exists fs s = Some false /\
       page_missing fs s = true /\ page_lookup_raises fs s = false) \/
      (docs_path_exists fs s = None /\
       page_missing fs s = false /\ page_lookup_raises fs s = true)).
    { unfold page_missing, page_lookup_raises.
      destruct (docs_path_exists fs s) as [[]|]; auto 10. }
    unfold pages_result, missing_pages.
    cbn [existsb forallb pages_looked_up].
    destruct Hcases as [(Hex & Hm & Hr) | [(Hex & Hm & Hr) | (Hex & Hm & Hr)] ];
      rewrite Hex, Hr, ?Hm; cbn [ret raise negb orb andb List.filter map];
      rewrite ?Hm; cbn [map].
    + rewrite IH. reflexivity.
    + unfold add_error. rewrite IH. unfold pages_result, missing_pages.
      rewrite andb_false_r. f_equal.
      unfold with_errors. simpl. rewrite <- app_assoc. reflexivity.
    + rewrite with_errors_nil. reflexivity.
Qed.

Lemma check_nav_items_result fs f items : forall success st,
  check_nav_items fs f items success st =
  (pages_result fs success (nav_targets items),
   with_errors st f (missing_pages fs (pages_looked_up fs (nav_targets items)))).
Proof.
  unfold nav_targets.
  induction items as [|item rest IH]; intros success st;
    cbn [check_nav_items flat_map].
  - unfold pages_result. cbn. rewrite andb_true_r, with_errors_nil. reflexivity.
  - destruct item; try (rewrite IH; reflexivity).
    unfold bind. rewrite check_nav_targets_result.
    rewrite pages_result_app, pages_looked_up_app.
    unfold pages_result at 1 2.
    destruct (existsb (page_lookup_raises fs) (item_targets (YDict pairs)));
      [reflexivity|].
    rewrite IH, missing_pages_app, with_errors_app. reflexivity.
Qed.

(** X20.  For a navigation list the check looks up the string values ending
    in ".md" of the items that are mappings, one level deep and in order,
    and nothing else.  If no lookup raises, it passes when all of them exist
    below [docs] and records one error for each that does not.  If a lookup
    raises, nothing catches the exception: the check ends with it, having
    recorded the missing pages among those before.  Pages listed inside a
    section (a value that is itself a list) and items that are plain strings
    are never looked up. *)
Theorem navigation_check_is_one_level_deep fs f items st :
  validate_navigation fs f (YList items) st =
  ((if existsb (page_lookup_raises fs) (nav_targets items)
    then Raise OtherException
    else Ret (forallb (fun p => negb (page_missing fs p)) (nav_targets items))),
   with_errors st f (missing_pages fs (pages_looked_up fs (nav_targets items)))).
Proof.
  unfold validate_navigation, bind. cbn [iterate]. unfold ret.
  rewrite check_nav_items_result. reflexivity.
Qed.

(** A page name that the file system refuses ends the check, and the page
    after it is not looked up. *)
Example navigation_check_raises :
  validate_navigation short_names_only ["mkdocs.yml"]
    (YList [YDict [("Home", YStr "index.md")];
            YDict [("Long", YStr long_name)];
            YDict [("Last", YStr "last.md")]]) init =
  (Raise OtherException,
   with_errors init ["mkdocs.yml"] [NavTargetMissing "index.md"]).
Proof. vm_compute. reflexivity. Qed.

(** The missing page inside the section goes unnoticed. *)
Example nested_page_not_checked :
  validate_navigation only_index ["mkdocs.yml"] (YList nested_nav) init =
  (Ret true, init).
Proof. vm_compute. reflexivity. Qed.

(** *** When the MkDocs check raises *)

Lemma bind_ret_l {A B} (a : A) (k : A -> M B) : bind (ret a) k = k a.
Proof. reflexivity. Qed.

Lemma returns_ret {A} (a : A) : returns (@ret validator A a).
Proof. intros st. eexists _, _. reflexivity. Qed.

Lemma raises_raise {A} e : raises (@raise validator A e).
Proof. intros st. eexists _, _. reflexivity. Qed.

Lemma returns_bind {A B} (m : M A) (k : A -> M B) :
  returns m -> (forall a, returns (k a)) -> returns (bind m k).
Proof.
  intros Hm Hk st. unfold bind. destruct (Hm st) as (a & st' & ->). apply Hk.
Qed.

Lemma raises_bind_l {A B} (m : M A) (k : A -> M B) :
  raises m -> raises (bind m k).
Proof.
  intros Hm st. unfold bind. destruct (Hm st) as (e & st' & ->). eauto.
Qed.

Lemma raises_bind_r {A B} (m : M A) (k : A -> M B) :
  returns m -> (forall a, raises (k a)) -> raises (bind m k).
Proof.
  intros Hm Hk st. unfold bind. destruct (Hm st) as (a & st' & ->). apply Hk.
Qed.

Lemma returns_not_raises {A} (m : M A) st :
  returns m -> forall e st', m st <> (Raise e, st').
Proof. intros Hm e st' H. destruct (Hm st) as (a & st1 & E). congruence. Qed.

Lemma returns_add_error f m : returns (add_error f m).
Proof. intros st. eexists _, _. reflexivity. Qed.

Lemma returns_add_warning f m : returns (add_warning f m).
Proof. intros st. eexists _, _. reflexivity. Qed.

Lemma returns_check_required f pairs fields success :
  returns (check_required f (YDict pairs) fields success).
Proof.
  intros st. destruct (check_required_result f pairs fields success st) as [st' ->].
  eauto.
Qed.

Lemma nav_targets_strings {X} (g : X -> string) (l : list X) :
  nav_targets (map (fun x => YStr (g x)) l) = [].
Proof. induction l as [|x l IH]; [reflexivity | exact IH]. Qed.

Lemma returns_validate_navigation fs f nav :
  navigation_raises fs nav = false -> returns (validate_navigation fs f nav).
Proof.
  intros H st. unfold validate_navigation, bind.
  destruct nav; try discriminate; cbn [iterate]; unfold ret;
    rewrite check_nav_items_result; unfold pages_result;
    rewrite ?nav_targets_strings; cbn [navigation_raises] in H;
    rewrite ?H; cbn [existsb]; eauto.
Qed.

Lemma raises_validate_navigation fs f nav :
  navigation_raises fs nav = true -> raises (validate_navigation fs f nav).
Proof.
  intros H st. unfold validate_navigation, bind.
  destruct nav; try discriminate; cbn [iterate]; unfold raise, ret; eauto.
  rewrite check_nav_items_result. unfold pages_result.
  cbn [navigation_raises] in H. rewrite H. eauto.
Qed.

(** Straight-line validator code returns. *)
Ltac straight :=
  repeat first
    [ rewrite bind_ret_l
    | progress cbn [contains getitem path_exists]
    | match goal with
      | H : assoc _ _ = _ |- _ => rewrite H
      end
    | match goal with
      | |- context [match assoc ?k ?p with _ => _ end] =>
          destruct (assoc k p) as [[]|] eqn:?
      | |- context [if ?c then _ else _] => destruct c
      end ];
  try (intros ?; cbv [bind ret add_error add_warning]; eexists _, _; reflexivity).

Lemma mkdocs_returns fs f pairs :
  mkdocs_raises fs pairs = false ->
  returns (validate_mkdocs_config fs f (YDict pairs)).
Proof.
  unfold mkdocs_raises, validate_mkdocs_config. intros H.
  apply returns_bind; [apply returns_check_required | intros success].
  cbn [contains]. rewrite bind_ret_l.
  apply returns_bind; [straight | clear success; intros success].
  cbn [contains]. rewrite bind_ret_l.
  assert (Hnav : match assoc "nav" pairs with
                 | Some nav => navigation_raises fs nav
                 | None => false
                 end = false).
  { destruct (assoc "docs_dir" pairs) as [[]|]; try discriminate; [|exact H].
    destruct (config_path_exists fs s); [exact H | discriminate]. }
  apply returns_bind.
  { destruct (assoc "docs_dir" pairs) as [[]|] eqn:E; try discriminate;
      [|apply returns_ret].
    cbn [getitem]. rewrite E, bind_ret_l.
    destruct (config_path_exists fs s) as [found|]; [|discriminate].
    straight. }
  clear success; intros success.
  cbn [contains]. rewrite bind_ret_l.
  apply returns_bind.
  { destruct (assoc "nav" pairs) as [nav|] eqn:E.
    - cbn [getitem]. rewrite E, bind_ret_l.
      apply returns_bind; [|intros ok; apply returns_ret].
      apply returns_validate_navigation. exact Hnav.
    - apply returns_ret. }
  clear success; intros success.
  cbn [contains]. rewrite bind_ret_l.
  apply returns_bind; [|intros b; apply returns_ret].
  destruct (assoc "theme" pairs) as [theme|] eqn:E; [|apply returns_ret].
  cbn [getitem]. rewrite E, bind_ret_l.
  destruct theme; straight.
Qed.

Lemma mkdocs_raises_on fs f pairs :
  mkdocs_raises fs pairs = true ->
  raises (validate_mkdocs_config fs f (YDict pairs)).
Proof.
  unfold mkdocs_raises, validate_mkdocs_config. intros H.
  apply raises_bind_r; [apply returns_check_required | intros success].
  cbn [contains]. rewrite bind_ret_l.
  apply raises_bind_r; [straight | clear success; intros success].
  cbn [contains]. rewrite bind_ret_l.
  assert (Hnav : match assoc "nav" pairs with
                 | Some nav => navigation_raises fs nav
                 | None => false
                 end = true ->
                 forall success,
                   raises
                     (bind (contains (YDict pairs) "nav")
                        (fun has_nav =>
                           bind
                             (if has_nav then
                                bind (getitem (YDict pairs) "nav")
                                  (fun nav =>
                                     bind (validate_navigation fs f nav)
                                       (fun ok =>
                                          ret (if negb ok then false else success)))
                              else ret success)
                             (fun success =>
                                bind (contains (YDict pairs) "theme")
                                  (fun has_theme =>
                                     bind
                                       (if has_theme then
                                          bind (getitem (YDict pairs) "theme")
                                            (fun theme =>
                                               match theme with
                                               | YDict _ =>
                                                   bind (contains theme "name")
                                                     (fun has_name =>
                                                        bind
                                                          (if negb has_name
                                                           then add_warning f ThemeWithoutName
                                                           else ret tt)
                                                          (fun _ => ret success))
                                               | YStr _ => ret success
                                               | _ =>
                                                   bind (add_error f BadTheme)
                                                     (fun _ => ret false)
                                               end)
                                        else ret success)
                                       (fun success => ret success)))))).
  { intros Hn success'. cbn [contains]. rewrite bind_ret_l.
    destruct (assoc "nav" pairs) as [nav|] eqn:En; [|discriminate].
    cbn [getitem]. rewrite ?En, bind_ret_l.
    apply raises_bind_l, raises_bind_l. now apply raises_validate_navigation. }
  destruct (assoc "docs_dir" pairs) as [docs_dir|] eqn:E.
  - cbn [getitem]. rewrite E, bind_ret_l.
    destruct docs_dir;
      try (apply raises_bind_l; apply raises_raise).
    destruct (config_path_exists fs s) as [found|].
    + apply raises_bind_r; [straight | clear success; intros success].
      apply (Hnav H).
    + apply raises_bind_l, raises_bind_l, raises_raise.
  - rewrite bind_ret_l. apply (Hnav H).
Qed.

(** X21.  On a mapping, the MkDocs check is ended by an exception exactly
    when [docs_dir] is present and is not a string, or is a string at which
    the lookup of the directory raises; or [nav] is present and is null, a
    boolean, a number or a timestamp, or is a list with a page at which the
    lookup raises.  In every other case the check returns its flag.  The
    exception is not caught anywhere in the script. *)
Theorem mkdocs_check_raises_iff fs f pairs st :
  (exists e st', validate_mkdocs_config fs f (YDict pairs) st = (Raise e, st')) <->
  mkdocs_raises fs pairs = true.
Proof.
  split.
  - intros (e & st' & Hrun).
    destruct (mkdocs_raises fs pairs) eqn:E; [reflexivity|].
    exfalso. exact (returns_not_raises _ st (mkdocs_returns fs f pairs E) e st' Hrun).
  - intros H. apply (mkdocs_raises_on fs f pairs H).
Qed.

(** A [docs_dir] of 300 characters: the lookup raises, and so does the
    check, where a missing directory of a shorter name is reported. *)
Example mkdocs_long_docs_dir :
  validate_mkdocs_config short_names_only ["mkdocs.yml"]
    (YDict [("site_name", YStr "DocsFlow");
            ("docs_dir", YStr (repeat_char 300 "d"))]) init =
  (Raise OtherException, init) /\
  validate_mkdocs_config short_names_only ["mkdocs.yml"]
    (YDict [("site_name", YStr "DocsFlow"); ("docs_dir", YStr "pages")]) init =
  (Ret false, with_errors init ["mkdocs.yml"] [DocsDirMissing "pages"]).
Proof. split; vm_compute; reflexivity. Qed.

(** *** Which files get which check *)

Lemma name_rev f : name f = hd "" (rev f).
Proof.
  unfold name. rewrite <- (rev_involutive f) at 1.
  destruct (rev f) as [|x r]; [reflexivity|].
  cbn [rev hd]. apply List.last_last.
Qed.

Lemma not_yml_not_typed f :
  endswith (name f) ".yml" = false -> typed f = false.
Proof.
  intros H. unfold typed.
  assert (H1 : String.eqb (name f) "mkdocs.yml" = false).
  { destruct (String.eqb_spec (name f) "mkdocs.yml") as [e|]; [|reflexivity].
    rewrite e in H. vm_compute in H. discriminate. }
  assert (H2 : String.eqb (name f) "docker-compose.yml" = false).
  { destruct (String.eqb_spec (name f) "docker-compose.yml") as [e|]; [|reflexivity].
    rewrite e in H. vm_compute in H. discriminate. }
  assert (H3 : match_workflow f = false).
  { unfold match_workflow. rewrite name_rev in H.
    destruct (rev f) as [|a [|b [|c r]]]; try reflexivity.
    cbn [hd] in H. rewrite H. reflexivity. }
  rewrite H1, H2, H3. reflexivity.
Qed.

Lemma untyped_generic fs f data :
  typed f = false ->
  run_specific_validation fs f data = validate_generic_yaml f data.
Proof.
  unfold typed, run_specific_validation. intros H.
  apply orb_false_elim in H as [H H3]. apply orb_false_elim in H as [H1 H2].
  cbv zeta. rewrite H1, H2, H3. reflexivity.
Qed.

Lemma typed_scalar_raises fs f data st :
  typed f = true -> scalar data = true ->
  run_specific_validation fs f data st = (Raise OtherException, st).
Proof.
  unfold typed, run_specific_validation. intros H Hs. cbv zeta.
  destruct (String.eqb (name f) "mkdocs.yml");
    [destruct data; try discriminate; reflexivity|].
  destruct (match_workflow f);
    [destruct data; try discriminate; reflexivity|].
  destruct (String.eqb (name f) "docker-compose.yml"); [|discriminate].
  destruct data; try discriminate; reflexivity.
Qed.

(** X22.  A file whose name does not end in ".yml" (every [*.yaml] file the
    search finds, also a workflow or a Compose file) is checked for syntax
    only: once it parses to something other than null, the file passes and
    nothing is recorded for it. *)
Theorem other_names_get_syntax_check_only fs f data st :
  endswith (name f) ".yml" = false ->
  load fs f = Loaded data -> data <> YNull ->
  validate_file fs f st = (Ret true, only_announced st f).
Proof.
  intros Hext Hload Hnn. unfold validate_file.
  cbv [bind announce]. rewrite Hload.
  destruct data; [congruence| ..];
    rewrite (untyped_generic fs f _ (not_yml_not_typed f Hext)); reflexivity.
Qed.

Lemma other_names_get_syntax_check_only_witness :
  validate_file yaml_workflow [".github"; "workflows"; "ci.yaml"] init =
  (Ret true, only_announced init [".github"; "workflows"; "ci.yaml"]).
Proof.
  apply (other_names_get_syntax_check_only yaml_workflow
           [".github"; "workflows"; "ci.yaml"] (YDict [("jobs", YInt 3)]) init).
  - vm_compute. reflexivity.
  - reflexivity.
  - discriminate.
Defined.

(** X23.  A [mkdocs.yml], a workflow or a [docker-compose.yml] whose whole
    content is a number or a boolean is not reported: the first membership
    test raises, nothing is recorded for the file, and no handler of the
    script catches the exception. *)
Theorem scalar_document_raises fs f data st :
  typed f = true -> load fs f = Loaded data ->
  scalar data = true -> data <> YNull ->
  validate_file fs f st = (Raise OtherException, only_announced st f).
Proof.
  intros Ht Hload Hs Hnn. unfold validate_file.
  cbv [bind announce]. rewrite Hload.
  destruct data; try discriminate; try congruence;
    rewrite (typed_scalar_raises fs f _ _ Ht Hs); reflexivity.
Qed.

Lemma scalar_document_raises_witness :
  validate_file number_document ["docker-compose.yml"] init =
  (Raise OtherException, only_announced init ["docker-compose.yml"]).
Proof.
  apply (scalar_document_raises number_document ["docker-compose.yml"]
           (YInt 42) init).
  - vm_compute. reflexivity.
  - reflexivity.
  - reflexivity.
  - discriminate.
Defined.

End YamlFacts.

(** ** Validation runs *)

Example lint_run_goes_on :
  Linter.lint_all_files two_pages ["docs/a.md"; "docs/b.md"] Linter.init =
  (Ret false,
   {| Linter.errors := [("docs/a.md", Linter.NoFinalNewline)];
      Linter.warnings := [];
      Linter.announced := ["docs/a.md"; "docs/b.md"] |}).
Proof. vm_compute. reflexivity. Qed.


Example yaml_run_goes_on :
  YamlValidator.validate_all_files no_docs_dir [["mkdocs.yml"]; ["extra.yml"]]
    YamlValidator.init =
  (Ret false,
   {| YamlValidator.errors :=
        [(["mkdocs.yml"], YamlValidator.MissingField "docs_dir")];
      YamlValidator.warnings := [];
      YamlValidator.announced := [["mkdocs.yml"]; ["extra.yml"]] |}).
Proof. vm_compute. reflexivity. Qed.



